(** * Olympics countdown plugin (manager.py): model and verified properties

    The plugin computes the number of days to the next Olympic ceremony from
    a bundled schedule and the host's clock, and draws a logo and a few lines
    of text through the host's display manager.

    The development follows the layers of the source:
    - [Py]: the Python values the code manipulates (exceptions, ints and
      binary64 floats with Python's mixed arithmetic, configuration values);
    - [Datetime]: [datetime.date] as CPython implements it (field check,
      ordinal, comparison, subtraction);
    - the schedule [OLYMPICS_DATES] and the pure selection of the next event;
    - the host (clock, display manager, imaging library, logger) as a record
      of oracles, and a state-and-exception monad [M] in which the methods of
      [OlympicsCountdownPlugin] are written;
    - the theorems. *)

From Stdlib Require Import ZArith List String Ascii Bool Lia QArith Qpower Lqa.
From Stdlib Require Import DecimalString SpecFloat.
Import ListNotations.
Local Open Scope string_scope.
Local Open Scope Z_scope.

(* ===================================================================== *)
(** ** Python values *)
(* ===================================================================== *)

Module Py.

(** Classes of the exceptions the code raises, catches by class, or receives
    from the host.  Every value of [exn] is an instance of [Exception]:
    [KeyboardInterrupt] and [SystemExit], which a host call does not raise,
    are outside the model. *)
Inductive exn_class :=
| ValueError | TypeError | ZeroDivisionError | OverflowError | AttributeError
| HostError.

Record exn := Exn { exn_cls : exn_class; exn_msg : string }.

Definition exn_class_eqb (a b : exn_class) : bool :=
  match a, b with
  | ValueError, ValueError | TypeError, TypeError
  | ZeroDivisionError, ZeroDivisionError | OverflowError, OverflowError
  | AttributeError, AttributeError | HostError, HostError => true
  | _, _ => false
  end.

(** Result of evaluating an expression: a value or a raised exception. *)
Inductive outcome (A : Type) :=
| Ok (a : A)
| Raise (e : exn).
Arguments Ok {A} a.
Arguments Raise {A} e.

Definition obind {A B} (o : outcome A) (k : A -> outcome B) : outcome B :=
  match o with
  | Ok a => k a
  | Raise e => Raise e
  end.

Definition is_ok {A} (o : outcome A) : bool :=
  match o with Ok _ => true | Raise _ => false end.

Fixpoint omap {A B} (f : A -> outcome B) (l : list A) : outcome (list B) :=
  match l with
  | [] => Ok []
  | a :: r => obind (f a) (fun b => obind (omap f r) (fun bs => Ok (b :: bs)))
  end.

(** [str(n)] for an int. *)
Definition str_of_int (n : Z) : string := NilZero.string_of_int (Z.to_int n).

(** [len(s)] as an int. *)
Definition len (s : string) : Z := Z.of_nat (String.length s).

(** [s.upper()] on ASCII text. *)
Definition upper_ascii (c : ascii) : ascii :=
  let n := nat_of_ascii c in
  if Nat.leb 97 n && Nat.leb n 122 then ascii_of_nat (n - 32) else c.

Fixpoint upper (s : string) : string :=
  match s with
  | EmptyString => EmptyString
  | String c r => String (upper_ascii c) (upper r)
  end.

(** *** Floats

    A Python float is an IEEE 754 binary64 number; [spec_float] with
    [prec = 53] and [emax = 1024] is its executable specification. *)
Definition prec : Z := 53.
Definition emax : Z := 1024.
Abbreviation float := spec_float.

Definition fmul : float -> float -> float := SFmul prec emax.
Definition fadd : float -> float -> float := SFadd prec emax.
Definition fsub : float -> float -> float := SFsub prec emax.
Definition fltb : float -> float -> bool := SFltb.

(** An int as the exact (unrounded) binary number [z * 2^0]. *)
Definition exact_of_int (z : Z) : float :=
  match z with
  | Z0 => S754_zero false
  | Zpos p => S754_finite false p 0
  | Zneg p => S754_finite true p 0
  end.

(** [float(z)]: round to nearest even, [OverflowError] beyond the range. *)
Definition float_of_int (z : Z) : outcome float :=
  match binary_normalize prec emax z 0 false with
  | S754_infinity _ =>
      Raise (Exn OverflowError "int too large to convert to float")
  | f => Ok f
  end.

(** [a / b] on ints: the correctly rounded quotient. *)
Definition int_truediv (a b : Z) : outcome float :=
  if b =? 0 then Raise (Exn ZeroDivisionError "division by zero")
  else
    match SFdiv prec emax (exact_of_int a) (exact_of_int b) with
    | S754_infinity _ =>
        Raise (Exn OverflowError "integer division result too large for a float")
    | f => Ok f
    end.

(** Exact comparison of a float with an int, as [float.__lt__] and friends
    do it ([None] for NaN). *)
Definition float_cmp_int (f : float) (z : Z) : option comparison :=
  match f with
  | S754_nan => None
  | S754_infinity s => Some (if s then Lt else Gt)
  | S754_zero _ => Some (0 ?= z)
  | S754_finite s m e =>
      let v := cond_Zopp s (Zpos m) in
      Some (if 0 <=? e then (v * 2 ^ e ?= z) else (v ?= z * 2 ^ (- e)))
  end.

(** [int(f)]: truncation toward zero. *)
Definition int_of_float (f : float) : outcome Z :=
  match f with
  | S754_nan => Raise (Exn ValueError "cannot convert float NaN to integer")
  | S754_infinity _ =>
      Raise (Exn OverflowError "cannot convert float infinity to integer")
  | S754_zero _ => Ok 0
  | S754_finite s m e =>
      Ok (cond_Zopp s (if 0 <=? e then Zpos m * 2 ^ e else Zpos m / 2 ^ (- e)))
  end.

(** *** Numbers: an int or a float, with Python's mixed arithmetic *)
Inductive num :=
| NInt (z : Z)
| NFloat (f : float).

Definition num_mul (a b : num) : outcome num :=
  match a, b with
  | NInt x, NInt y => Ok (NInt (x * y))
  | NInt x, NFloat g => obind (float_of_int x) (fun f => Ok (NFloat (fmul f g)))
  | NFloat f, NInt y => obind (float_of_int y) (fun g => Ok (NFloat (fmul f g)))
  | NFloat f, NFloat g => Ok (NFloat (fmul f g))
  end.

Definition num_add (a b : num) : outcome num :=
  match a, b with
  | NInt x, NInt y => Ok (NInt (x + y))
  | NInt x, NFloat g => obind (float_of_int x) (fun f => Ok (NFloat (fadd f g)))
  | NFloat f, NInt y => obind (float_of_int y) (fun g => Ok (NFloat (fadd f g)))
  | NFloat f, NFloat g => Ok (NFloat (fadd f g))
  end.

Definition num_sub (a b : num) : outcome num :=
  match a, b with
  | NInt x, NInt y => Ok (NInt (x - y))
  | NInt x, NFloat g => obind (float_of_int x) (fun f => Ok (NFloat (fsub f g)))
  | NFloat f, NInt y => obind (float_of_int y) (fun g => Ok (NFloat (fsub f g)))
  | NFloat f, NFloat g => Ok (NFloat (fsub f g))
  end.

(** [a > b]. *)
Definition num_gt (a b : num) : bool :=
  match a, b with
  | NInt x, NInt y => y <? x
  | NFloat f, NInt y =>
      match float_cmp_int f y with Some Gt => true | _ => false end
  | NInt x, NFloat g =>
      match float_cmp_int g x with Some Lt => true | _ => false end
  | NFloat f, NFloat g => fltb g f
  end.

(** [a < b]. *)
Definition num_lt (a b : num) : bool := num_gt b a.

(** [int(x)]. *)
Definition num_int (a : num) : outcome Z :=
  match a with
  | NInt x => Ok x
  | NFloat f => int_of_float f
  end.

(** [max(xs)]: the first maximal element; [ValueError] on an empty
    sequence. *)
Fixpoint max_from (best : num) (rest : list num) : num :=
  match rest with
  | [] => best
  | x :: r => max_from (if num_gt x best then x else best) r
  end.

Definition py_max (xs : list num) : outcome num :=
  match xs with
  | [] => Raise (Exn ValueError "max() arg is an empty sequence")
  | x :: r => Ok (max_from x r)
  end.

(** [min(a, b)]: [a] unless [b < a]. *)
Definition py_min2 (a b : num) : num := if num_lt b a then b else a.

(** *** Configuration values

    The configuration is a JSON document as Python's [json] module reads it:
    null, booleans, ints, floats, strings, arrays and objects; tuples arise
    from [tuple(.)].  A finite float is held by its exact rational value (the
    only float operations the code applies to it, [int(.)] and [<= 0], are
    exact); [NaN], [Infinity] and [-Infinity], which [json] accepts, are
    [VNaN] and [VInf]. *)
Inductive pyval :=
| VNone
| VBool (b : bool)
| VInt (z : Z)
| VFloat (q : Q)
| VStr (s : string)
| VList (l : list pyval)
| VTuple (l : list pyval)
| VDict (kvs : list (string * pyval))
| VNaN
| VInf (negative : bool).

End Py.
Import Py.

(* ===================================================================== *)
(** ** datetime.date *)
(* ===================================================================== *)

Module Datetime.

(** A [date] object: the three fields CPython stores. *)
Record date := mkdate { year : Z; month : Z; day : Z }.

Definition MINYEAR : Z := 1.
Definition MAXYEAR : Z := 9999.

Definition _DAYS_IN_MONTH : list Z :=
  [-1; 31; 28; 31; 30; 31; 30; 31; 31; 30; 31; 30; 31].

Definition _DAYS_BEFORE_MONTH : list Z :=
  [-1; 0; 31; 59; 90; 120; 151; 181; 212; 243; 273; 304; 334].

Definition _is_leap (y : Z) : bool :=
  (y mod 4 =? 0) && (negb (y mod 100 =? 0) || (y mod 400 =? 0)).

Definition _days_before_year (y : Z) : Z :=
  let y := y - 1 in
  y * 365 + y / 4 - y / 100 + y / 400.

Definition _days_in_month (y m : Z) : Z :=
  if (m =? 2) && _is_leap y then 29
  else nth (Z.to_nat m) _DAYS_IN_MONTH 0.

Definition _days_before_month (y m : Z) : Z :=
  nth (Z.to_nat m) _DAYS_BEFORE_MONTH 0
  + (if (2 <? m) && _is_leap y then 1 else 0).

Definition _ymd2ord (y m d : Z) : Z :=
  _days_before_year y + _days_before_month y m + d.

(** [_check_date_fields]. *)
Definition valid_date (d : date) : bool :=
  (MINYEAR <=? year d) && (year d <=? MAXYEAR)
  && (1 <=? month d) && (month d <=? 12)
  && (1 <=? day d) && (day d <=? _days_in_month (year d) (month d)).

(** [date(y, m, d)]: [ValueError] on fields out of range. *)
Definition new_date (y m d : Z) : outcome date :=
  let r := mkdate y m d in
  if valid_date r then Ok r
  else Raise (Exn ValueError "date field out of range").

Definition toordinal (d : date) : Z := _ymd2ord (year d) (month d) (day d).

(** [_cmp] on the [(year, month, day)] tuples. *)
Definition date_cmp (a b : date) : comparison :=
  match year a ?= year b with
  | Eq => match month a ?= month b with
          | Eq => day a ?= day b
          | c => c
          end
  | c => c
  end.

Definition date_ltb (a b : date) : bool :=
  match date_cmp a b with Lt => true | _ => false end.
Definition date_leb (a b : date) : bool :=
  match date_cmp a b with Gt => false | _ => true end.
Definition date_eqb (a b : date) : bool :=
  match date_cmp a b with Eq => true | _ => false end.

(** [(a - b).days]. *)
Definition days_between (a b : date) : Z := toordinal a - toordinal b.

End Datetime.
Import Datetime.

(* ===================================================================== *)
(** ** The schedule and the selection of the next event *)
(* ===================================================================== *)

(** A schedule entry [(year, month, day, type, location)]. *)
Definition entry : Type := (Z * Z * Z * string * string)%type.

Definition OLYMPICS_DATES : list entry :=
  [ (2026, 2, 6, "winter", "Milan-Cortina");
    (2026, 2, 22, "winter", "Milan-Cortina");
    (2028, 7, 14, "summer", "Los Angeles");
    (2028, 7, 30, "summer", "Los Angeles");
    (2030, 2, 8, "winter", "TBD");
    (2030, 2, 24, "winter", "TBD");
    (2032, 7, 23, "summer", "Brisbane");
    (2032, 8, 8, "summer", "Brisbane") ].

(** The dict built for each Games. *)
Record event := mkevent
  { opening : date; closing : date; type : string; location : string }.

(** The grouping loop of [_get_next_olympics]: entries [i] and [i + 1] for
    [i = 0, 2, 4, ...] while [i + 1 < len]; a trailing odd entry is dropped. *)
Fixpoint olympics_events_of (dates : list entry) : outcome (list event) :=
  match dates with
  | (oy, om, od, otype, oloc) :: (cy, cm, cd, _, _) :: rest =>
      obind (new_date oy om od) (fun o =>
      obind (new_date cy cm cd) (fun c =>
      obind (olympics_events_of rest) (fun evs =>
      Ok (mkevent o c otype oloc :: evs))))
  | _ => Ok []
  end.

(** The search loop of [_get_next_olympics]: [None] when the loop falls
    through. *)
Fixpoint first_relevant (today : date) (events : list event)
  : option (event * bool) :=
  match events with
  | [] => None
  | ev :: rest =>
      if date_ltb today (opening ev) then Some (ev, false)
      else if date_leb (opening ev) today && date_leb today (closing ev)
           then Some (ev, true)
           else first_relevant today rest
  end.

(** [olympics_events[-1]] of a non-empty list. *)
Fixpoint last_event (events : list event) : option event :=
  match events with
  | [] => None
  | [ev] => Some ev
  | _ :: rest => last_event rest
  end.

(** The part of [_get_next_olympics] after the grouping: the loop, then the
    fallback on the last event, then [(None, False)]. *)
Definition next_olympics_in (events : list event) (today : date)
  : option event * bool :=
  match first_relevant today events with
  | Some (ev, active) => (Some ev, active)
  | None =>
      match last_event events with
      | Some ev => (Some ev, false)
      | None => (None, false)
      end
  end.

(** The result tuple of [_calculate_days_until], given the event chosen
    and the date read for the difference. *)
Definition days_until_result (info : option event) (is_active : bool)
  (today : date) : Z * bool * option event * string :=
  match info with
  | None => (0, false, None, "opening")
  | Some ev =>
      if is_active
      then (days_between (closing ev) today, true, Some ev, "closing")
      else (days_between (opening ev) today, false, Some ev, "opening")
  end.

(* ===================================================================== *)
(** ** The host and the plugin's state *)
(* ===================================================================== *)

(** A font object of the display manager; [size] is [None] for a font
    without a [size] attribute (a BDF font). *)
Record pil_font := mkfont { font_id : string; size : option Z }.

Definition opt_Z_eqb (a b : option Z) : bool :=
  match a, b with
  | Some x, Some y => x =? y
  | None, None => true
  | _, _ => false
  end.

Definition font_eqb (a b : pil_font) : bool :=
  String.eqb (font_id a) (font_id b) && opt_Z_eqb (size a) (size b).

(** A PIL image: its [size] and [mode]. *)
Record image := mkimage { img_width : Z; img_height : Z; mode : string }.

Inductive log_level := DEBUG | INFO | WARNING | ERROR.

(** The calls the plugin makes on its environment, with the arguments it
    passes. *)
Inductive call :=
| DateToday
| GetTextWidth (text : string) (f : pil_font)
| Clear
| Paste (img : image) (x y : Z) (with_mask : bool)
| DrawText (text : string) (x y : Z) (color : pyval)
    (font_arg : option pil_font) (small_font_arg : option bool)
    (centered : option bool)
| UpdateDisplay
| ImageNew (md : string) (w h : Z)
| Ellipse (bbox : list num) (outline : Z * Z * Z) (line_width : Z)
| Resize (img : image) (w h : Z)
| Convert (img : image) (md : string)
| Log (level : log_level) (msg : string).

(** The host: the display manager's attributes, and oracles that say, given
    the calls made so far, what a call returns and whether it raises. *)
Record host := mkhost
  { dm_width : Z;
    dm_height : Z;
    regular_font : pil_font;
    small_font : pil_font;
    extra_small_font : pil_font;
    today : list call -> outcome date;
    text_width : list call -> string -> pil_font -> outcome Z;
    fault : list call -> call -> option exn;
    plugin_dir : string;
    logo_file : string -> option (outcome image);
    int_of_str : string -> option Z;
    parent_validate_config : bool }.

(** The attributes [__init__] sets on the plugin object. *)
Record plugin := mkplugin
  { text_color : pyval;
    logo_size : pyval;
    days_until : Z;
    is_olympics_active : bool;
    current_olympics : option event;
    countdown_type : string;
    logo_image : option image;
    last_calculated_date : option date;
    last_displayed_message : option string }.

Record world := mkworld { self : plugin; trace : list call }.

(** *** The monad: host as environment, world as state, exceptions that
    keep the state reached when they were raised. *)
Definition M (A : Type) : Type := host -> world -> outcome A * world.

Definition ret {A} (a : A) : M A := fun _ w => (Ok a, w).

Definition bind {A B} (c : M A) (k : A -> M B) : M B :=
  fun h w =>
    match c h w with
    | (Ok a, w') => k a h w'
    | (Raise e, w') => (Raise e, w')
    end.

Definition lift {A} (o : outcome A) : M A := fun _ w => (o, w).

(** [try: c except Exception as e: handler e]. *)
Definition try_except {A} (c : M A) (handler : exn -> M A) : M A :=
  fun h w =>
    match c h w with
    | (Ok a, w') => (Ok a, w')
    | (Raise e, w') => handler e h w'
    end.

(** [try: c except (cls, ...): handler]. *)
Definition try_except_in {A} (classes : list exn_class) (c : M A)
  (handler : exn -> M A) : M A :=
  fun h w =>
    match c h w with
    | (Ok a, w') => (Ok a, w')
    | (Raise e, w') =>
        if existsb (exn_class_eqb (exn_cls e)) classes
        then handler e h w' else (Raise e, w')
    end.

Declare Scope monad_scope.
Delimit Scope monad_scope with monad.
Notation "x <- c1 ;; c2" := (bind c1 (fun x => c2))
  (at level 61, c1 at next level, right associativity) : monad_scope.
Notation "' pat <- c1 ;; c2" := (bind c1 (fun x => match x with pat => c2 end))
  (at level 61, pat pattern, c1 at next level, right associativity)
  : monad_scope.
Notation "c1 ;; c2" := (bind c1 (fun _ => c2))
  (at level 61, right associativity) : monad_scope.
Local Open Scope monad_scope.

Definition ask : M host := fun h w => (Ok h, w).
Definition get_self : M plugin := fun _ w => (Ok (self w), w).
Definition modify_self (f : plugin -> plugin) : M unit :=
  fun _ w => (Ok tt, mkworld (f (self w)) (trace w)).

Definition record_call (c : call) (w : world) : world :=
  mkworld (self w) (trace w ++ [c]).

(** A call on the display manager or the imaging library. *)
Definition host_call (c : call) : M unit :=
  fun h w =>
    (match fault h (trace w) c with Some e => Raise e | None => Ok tt end,
     record_call c w).

(** [date.today()]. *)
Definition date_today : M date :=
  fun h w => (today h (trace w), record_call DateToday w).

(** [self.display_manager.get_text_width(text, font)]. *)
Definition get_text_width (text : string) (f : pil_font) : M Z :=
  fun h w => (text_width h (trace w) text f, record_call (GetTextWidth text f) w).

(** [self.logger.<level>(msg)]. *)
Definition log (level : log_level) (msg : string) : M unit :=
  fun _ w => (Ok tt, record_call (Log level msg) w).

(** Attribute assignments. *)
Definition set_text_color (v : pyval) (s : plugin) : plugin :=
  mkplugin v (logo_size s) (days_until s) (is_olympics_active s)
    (current_olympics s) (countdown_type s) (logo_image s)
    (last_calculated_date s) (last_displayed_message s).
Definition set_logo_size (v : pyval) (s : plugin) : plugin :=
  mkplugin (text_color s) v (days_until s) (is_olympics_active s)
    (current_olympics s) (countdown_type s) (logo_image s)
    (last_calculated_date s) (last_displayed_message s).
Definition set_days_until (v : Z) (s : plugin) : plugin :=
  mkplugin (text_color s) (logo_size s) v (is_olympics_active s)
    (current_olympics s) (countdown_type s) (logo_image s)
    (last_calculated_date s) (last_displayed_message s).
Definition set_is_olympics_active (v : bool) (s : plugin) : plugin :=
  mkplugin (text_color s) (logo_size s) (days_until s) v
    (current_olympics s) (countdown_type s) (logo_image s)
    (last_calculated_date s) (last_displayed_message s).
Definition set_current_olympics (v : option event) (s : plugin) : plugin :=
  mkplugin (text_color s) (logo_size s) (days_until s) (is_olympics_active s)
    v (countdown_type s) (logo_image s)
    (last_calculated_date s) (last_displayed_message s).
Definition set_countdown_type (v : string) (s : plugin) : plugin :=
  mkplugin (text_color s) (logo_size s) (days_until s) (is_olympics_active s)
    (current_olympics s) v (logo_image s)
    (last_calculated_date s) (last_displayed_message s).
Definition set_logo_image (v : option image) (s : plugin) : plugin :=
  mkplugin (text_color s) (logo_size s) (days_until s) (is_olympics_active s)
    (current_olympics s) (countdown_type s) v
    (last_calculated_date s) (last_displayed_message s).
Definition set_last_calculated_date (v : option date) (s : plugin) : plugin :=
  mkplugin (text_color s) (logo_size s) (days_until s) (is_olympics_active s)
    (current_olympics s) (countdown_type s) (logo_image s)
    v (last_displayed_message s).
Definition set_last_displayed_message (v : option string) (s : plugin)
  : plugin :=
  mkplugin (text_color s) (logo_size s) (days_until s) (is_olympics_active s)
    (current_olympics s) (countdown_type s) (logo_image s)
    (last_calculated_date s) v.

(* ===================================================================== *)
(** ** OlympicsCountdownPlugin *)
(* ===================================================================== *)

(** *** Construction *)

(** Iteration over a configuration value ([for c in raw], [tuple(raw)]). *)
Definition chars (s : string) : list pyval :=
  map (fun c => VStr (String c EmptyString)) (list_ascii_of_string s).

Definition py_iter (v : pyval) : outcome (list pyval) :=
  match v with
  | VList l | VTuple l => Ok l
  | VStr s => Ok (chars s)
  | VDict kvs => Ok (map (fun kv => VStr (fst kv)) kvs)
  | _ => Raise (Exn TypeError "object is not iterable")
  end.

(** [int(c)] of a finite float: truncation toward zero. *)
Definition Qtrunc (q : Q) : Z := Z.quot (Qnum q) (Zpos (Qden q)).

(** [int(c)] on a configuration value. *)
Definition py_int (h : host) (v : pyval) : outcome Z :=
  match v with
  | VInt z => Ok z
  | VBool b => Ok (if b then 1 else 0)
  | VFloat q => Ok (Qtrunc q)
  | VNaN => Raise (Exn ValueError "cannot convert float NaN to integer")
  | VInf _ =>
      Raise (Exn OverflowError "cannot convert float infinity to integer")
  | VStr s =>
      match int_of_str h s with
      | Some z => Ok z
      | None => Raise (Exn ValueError "invalid literal for int() with base 10")
      end
  | _ => Raise (Exn TypeError "int() argument must be a string or a number")
  end.

Definition caught (classes : list exn_class) (e : exn) : bool :=
  existsb (exn_class_eqb (exn_cls e)) classes.

(** [config.get(name, default)]. *)
Fixpoint config_get (config : list (string * pyval)) (name : string)
  (default : pyval) : pyval :=
  match config with
  | [] => default
  | (k, v) :: rest => if String.eqb k name then v else config_get rest name default
  end.

(** The local function [_parse_color] of [__init__], applied to the value
    [raw] it reads from the configuration. *)
Definition _parse_color (h : host) (raw : pyval) : outcome pyval :=
  match obind (py_iter raw) (fun l =>
        obind (omap (py_int h) l) (fun zs => Ok (VTuple (map VInt zs)))) with
  | Ok t => Ok t
  | Raise e =>
      if caught [ValueError; TypeError] e then
        match obind (py_iter raw) (fun l => Ok (VTuple l)) with
        | Ok t => Ok t
        | Raise e' => if caught [TypeError] e' then Ok raw else Raise e'
        end
      else Raise e
  end.

Definition possible_names : list string :=
  [ "olympics-logo.png"; "olympics logo.png"; "olympics-icon.png";
    "logo.png"; "assets/olympics-logo.png"; "assets/logo.png" ].

(** The loop of [_load_logo_image]; [true] when it returned from inside. *)
Fixpoint load_first_logo (names : list string) : M bool :=
  match names with
  | [] => ret false
  | name :: rest =>
      h <- ask;;
      match logo_file h name with
      | None => load_first_logo rest
      | Some opened =>
          img <- lift opened;;
          modify_self (set_logo_image (Some img));;
          log INFO ("Loaded Olympics logo image from "
                    ++ plugin_dir h ++ "/" ++ name);;
          ret true
      end
  end.

Definition _load_logo_image : M unit :=
  try_except
    (found <- load_first_logo possible_names;;
     if found : bool then ret tt
     else
       log DEBUG "Olympics logo image not found, will use programmatic drawing";;
       modify_self (set_logo_image None))
    (fun e =>
       log WARNING ("Error loading logo image: " ++ exn_msg e
                    ++ ", will use programmatic drawing");;
       modify_self (set_logo_image None)).

Definition default_text_color : pyval := VList [VInt 255; VInt 255; VInt 255].

Definition __init__ (config : list (string * pyval)) : M unit :=
  h <- ask;;
  color <- lift (_parse_color h (config_get config "text_color" default_text_color));;
  modify_self (fun _ =>
    mkplugin color (config_get config "logo_size" VNone)
      0 false None "opening" None None None);;
  _load_logo_image;;
  log INFO "Olympics countdown plugin initialized".

(** *** The countdown *)

Definition _get_next_olympics : M (option event * bool) :=
  today <- date_today;;
  olympics_events <- lift (olympics_events_of OLYMPICS_DATES);;
  ret (next_olympics_in olympics_events today).

Definition _calculate_days_until : M (Z * bool * option event * string) :=
  ' (olympics_info, is_active) <- _get_next_olympics;;
  match olympics_info with
  | None => ret (0, false, None, "opening")
  | Some _ =>
      today <- date_today;;
      ret (days_until_result olympics_info is_active today)
  end.

Definition opt_date_eqb (a b : option date) : bool :=
  match a, b with
  | Some x, Some y => date_eqb x y
  | None, None => true
  | _, _ => false
  end.

Definition update_log_message (days : Z) (is_active : bool) (info : event)
  : string :=
  if is_active
  then "Olympics " ++ type info ++ " " ++ location info
       ++ " is active. Days until closing: " ++ str_of_int days
  else "Days until " ++ type info ++ " Olympics " ++ location info
       ++ " opening: " ++ str_of_int days.

(** The [try] block of [update]. *)
Definition update_body : M unit :=
  ' (days, is_active, olympics_info, ctype) <- _calculate_days_until;;
  modify_self (set_days_until days);;
  modify_self (set_is_olympics_active is_active);;
  modify_self (set_current_olympics olympics_info);;
  modify_self (set_countdown_type ctype);;
  today <- date_today;;
  s <- get_self;;
  if negb (opt_date_eqb (last_calculated_date s) (Some today)) then
    match olympics_info with
    | Some info => log INFO (update_log_message days is_active info)
    | None => log WARNING "No upcoming Olympics found"
    end;;
    modify_self (set_last_calculated_date (Some today))
  else ret tt.

Definition update : M unit :=
  try_except update_body
    (fun e => log ERROR ("Error updating countdown: " ++ exn_msg e)).

(** *** Text layout *)

Record layout := mklayout
  { font : pil_font;
    line_height : Z;
    total_text_height : Z;
    start_y : Z;
    use_small_font : bool }.

(** The loop variables [best_font], [best_line_height],
    [best_total_height], [best_use_small]. *)
Record best := mkbest
  { best_font : option pil_font;
    best_line_height : Z;
    best_total_height : Z;
    best_use_small : bool }.

Definition test_text : string := "0123456789ABCDEFGHIJKLMNOPQRSTUVWXYZ".

Definition font_options (h : host) : list (string * pil_font * bool) :=
  [ ("regular", regular_font h, false);
    ("small", small_font h, true);
    ("extra_small", extra_small_font h, true) ].

(** [avg_char_width] for a font: the measured width of [test_text] divided by
    its length, or the fallback when anything in the [try] raises. *)
Definition avg_char_width (f : pil_font) (use_small : bool) : M num :=
  try_except
    (w <- get_text_width test_text f;;
     q <- lift (int_truediv w (len test_text));;
     ret (NFloat q))
    (fun _ => ret (NInt (if use_small then 6 else 8))).

Definition font_line_height (f : pil_font) (use_small : bool) : Z :=
  match size f with
  | Some s => s + 2
  | None => if use_small then 8 else 10
  end.

(** [max(len(line) * avg_char_width for line in lines)]. *)
Definition max_line_width (lines : list string) (avg : num) : outcome num :=
  obind (omap (fun line => num_mul (NInt (len line)) avg) lines) py_max.

(** One iteration of the loop over [font_options]. *)
Definition try_font (lines : list string) (available_text_width : Z)
  (b : best) (opt : string * pil_font * bool) : M best :=
  let '(_, f, use_small) := opt in
  avg <- avg_char_width f use_small;;
  let lh := font_line_height f use_small in
  mw <- lift (max_line_width lines avg);;
  if num_gt mw (NInt available_text_width) then ret b
  else
    let total_height := Z.of_nat (List.length lines) * lh in
    match best_font b with
    | None => ret (mkbest (Some f) lh total_height use_small)
    | Some _ =>
        if best_line_height b <? lh
        then ret (mkbest (Some f) lh total_height use_small)
        else ret b
    end.

Fixpoint try_fonts (lines : list string) (available_text_width : Z)
  (b : best) (opts : list (string * pil_font * bool)) : M best :=
  match opts with
  | [] => ret b
  | opt :: rest =>
      b' <- try_font lines available_text_width b opt;;
      try_fonts lines available_text_width b' rest
  end.

(** The loop over [font_options] and the fallback [if best_font is None]:
    the values of [best_font], [best_line_height], [best_total_height] and
    [best_use_small] after them. *)
Definition select_font (width : Z) (lines : list string)
  : M (pil_font * Z * Z * bool) :=
  h <- ask;;
  let left_half_width := width / 2 in
  let right_half_width := width - left_half_width in
  let available_text_width := right_half_width - 4 in
  let num_lines := Z.of_nat (List.length lines) in
  b <- try_fonts lines available_text_width (mkbest None 8 0 false)
         (font_options h);;
  match best_font b with
  | None => ret (extra_small_font h, 8, num_lines * 8, true)
  | Some f => ret (f, best_line_height b, best_total_height b, best_use_small b)
  end.

(** The end of [_calculate_text_layout]: the line height is reduced when the
    text is taller than the display, then the text is centred vertically. *)
Definition fit_to_height (height num_lines : Z)
  (sel : pil_font * Z * Z * bool) : outcome layout :=
  let '(best_font, best_line_height, best_total_height, best_use_small) := sel in
  let available_text_height := height - 4 in
  obind
    (if available_text_height <? best_total_height then
       obind (int_truediv available_text_height best_total_height)
         (fun scale_factor =>
       obind (obind (num_mul (NInt best_line_height) (NFloat scale_factor))
                num_int)
         (fun scaled => Ok (scaled, scaled * num_lines)))
     else Ok (best_line_height, best_total_height))
    (fun '(lh, total) =>
       Ok (mklayout best_font lh total ((height - total) / 2) best_use_small)).

Definition _calculate_text_layout (width height : Z) (lines : list string)
  : M layout :=
  sel <- select_font width lines;;
  lift (fit_to_height height (Z.of_nat (List.length lines)) sel).

(** *** The logo *)

Definition ring_colors : list (Z * Z * Z) :=
  [ (0, 129, 200); (0, 0, 0); (255, 20, 24); (255, 195, 0); (0, 158, 96) ].

(** The literal [1.5]. *)
Definition one_and_a_half : float := S754_finite false 3 (-1).

(** One ring: [x = x0 + i * ring_radius * 1.5], then the ellipse on the
    box around [(x, y)]. *)
Definition draw_ring (x0 y ring_radius : Z) (i : Z) (color : Z * Z * Z)
  : M unit :=
  off <- lift (num_mul (NInt (i * ring_radius)) (NFloat one_and_a_half));;
  x <- lift (num_add (NInt x0) off);;
  xl <- lift (num_sub x (NInt ring_radius));;
  xr <- lift (num_add x (NInt ring_radius));;
  host_call (Ellipse [xl; NInt (y - ring_radius); xr; NInt (y + ring_radius)]
               color (Z.max 1 (ring_radius / 8))).

Fixpoint draw_rings (x0 y ring_radius : Z) (i : Z) (colors : list (Z * Z * Z))
  : M unit :=
  match colors with
  | [] => ret tt
  | color :: rest =>
      draw_ring x0 y ring_radius i color;;
      draw_rings x0 y ring_radius (i + 1) rest
  end.

Definition _draw_olympics_rings_programmatic (width height : Z) : M image :=
  host_call (ImageNew "RGBA" width height);;
  let ring_radius := Z.min width height / 6 in
  let center_x := width / 2 in
  let center_y := height / 2 in
  let top_y := center_y - ring_radius in
  draw_rings (center_x - ring_radius) top_y ring_radius 0 (firstn 3 ring_colors);;
  let bottom_y := center_y + ring_radius in
  draw_rings center_x bottom_y ring_radius 0 (skipn 3 ring_colors);;
  ret (mkimage width height "RGBA").

(** [(new_width, new_height)] as [_get_logo_image] computes them for an
    image of size [(img_w, img_h)]. *)
Definition scaled_size (width height img_w img_h : Z) : outcome (Z * Z) :=
  obind (int_truediv width img_w) (fun width_ratio =>
  obind (int_truediv height img_h) (fun height_ratio =>
  let scale_ratio := py_min2 (NFloat width_ratio) (NFloat height_ratio) in
  obind (obind (num_mul (NInt img_w) scale_ratio) num_int) (fun new_width =>
  obind (obind (num_mul (NInt img_h) scale_ratio) num_int) (fun new_height =>
  Ok (new_width, new_height))))).

(** [img.resize((w, h), ...)]: the image at the new size, in the same mode. *)
Definition resize (img : image) (w h : Z) : M image :=
  host_call (Resize img w h);;
  ret (mkimage w h (mode img)).

Definition _get_logo_image (width height : Z) : M image :=
  s <- get_self;;
  match logo_image s with
  | Some logo =>
      ' (new_width, new_height) <-
        lift (scaled_size width height (img_width logo) (img_height logo));;
      resized <- try_except_in [AttributeError]
                   (resize logo new_width new_height)
                   (fun _ => resize logo new_width new_height);;
      if negb (String.eqb (mode resized) "RGBA") && String.eqb (mode logo) "RGBA"
      then
        host_call (Convert resized "RGBA");;
        ret (mkimage (img_width resized) (img_height resized) "RGBA")
      else ret resized
  | None => _draw_olympics_rings_programmatic width height
  end.

(** *** display *)

(** [__init__] assigns [self.days_until], so [hasattr(self, 'days_until')]
    holds of every constructed plugin. *)
Definition hasattr_days_until (s : plugin) : bool := true.

(** [location.split('-')[0]]. *)
Fixpoint before_hyphen (s : string) : string :=
  match s with
  | EmptyString => EmptyString
  | String c r => if Ascii.eqb c "-"%char then EmptyString
                  else String c (before_hyphen r)
  end.

(** The shortening of [location] in the opening branch (its result is not
    used by the message or the lines). *)
Definition shorten_location (loc : string) : string :=
  let loc := if 12 <? len loc then before_hyphen loc else loc in
  if 12 <? len loc then String.substring 0 10 loc ++ ".." else loc.

(** [message] and [lines] as [display] derives them from the attributes. *)
Definition message_and_lines (s : plugin) : string * list string :=
  match current_olympics s with
  | None => ("NO OLYMPICS FOUND", ["NO OLYMPICS"; "FOUND"])
  | Some ev =>
      if is_olympics_active s then
        if days_until s =? 0
        then ("OLYMPICS CLOSING", ["OLYMPICS"; "CLOSING"; "TODAY"])
        else (str_of_int (days_until s) ++ " DAYS UNTIL CLOSING",
              [str_of_int (days_until s); "DAYS UNTIL"; "CLOSING"])
      else
        let olympics_type := upper (type ev) in
        if days_until s =? 0
        then ("OLYMPICS OPENING TODAY", ["OLYMPICS"; "OPENING"; "TODAY"])
        else
          let location := shorten_location (location ev) in
          (str_of_int (days_until s) ++ " DAYS UNTIL " ++ olympics_type
           ++ " OLYMPICS",
           [str_of_int (days_until s); "DAYS UNTIL"; olympics_type; "OLYMPICS"])
  end.

Definition message_of (s : plugin) : string := fst (message_and_lines s).
Definition lines_of (s : plugin) : list string := snd (message_and_lines s).

Definition opt_string_eqb (a b : option string) : bool :=
  match a, b with
  | Some x, Some y => String.eqb x y
  | None, None => true
  | _, _ => false
  end.

(** The [draw_text] call for line [i]. *)
Definition draw_line (lay : layout) (right_half_x right_half_width : Z)
  (i : Z) (line : string) : M unit :=
  h <- ask;;
  s <- get_self;;
  let text_y := start_y lay + i * line_height lay in
  let right_half_center_x := right_half_x + right_half_width / 2 in
  if font_eqb (font lay) (extra_small_font h)
  then host_call (DrawText line right_half_center_x text_y (text_color s)
                    (Some (font lay)) None (Some true))
  else host_call (DrawText line right_half_center_x text_y (text_color s)
                    None (Some (use_small_font lay)) (Some true)).

Fixpoint draw_lines (lay : layout) (right_half_x right_half_width : Z)
  (i : Z) (lines : list string) : M unit :=
  match lines with
  | [] => ret tt
  | line :: rest =>
      draw_line lay right_half_x right_half_width i line;;
      draw_lines lay right_half_x right_half_width (i + 1) rest
  end.

(** The drawing part of [display], from [clear()] to the end of the [try]
    block. *)
Definition redraw (message : string) (lines : list string) : M unit :=
  h <- ask;;
  let width := dm_width h in
  let height := dm_height h in
  host_call Clear;;
  let left_half_width := width / 2 in
  let right_half_width := width - left_half_width in
  let right_half_x := left_half_width in
  let logo_margin := 2 in
  let logo_width := left_half_width - 2 * logo_margin in
  let logo_height := height - 2 * logo_margin in
  let logo_x := logo_margin in
  let logo_y := logo_margin in
  logo_img <- _get_logo_image logo_width logo_height;;
  host_call (Paste logo_img logo_x logo_y (String.eqb (mode logo_img) "RGBA"));;
  lay <- _calculate_text_layout width height lines;;
  draw_lines lay right_half_x right_half_width 0 lines;;
  host_call UpdateDisplay;;
  modify_self (set_last_displayed_message (Some message));;
  log DEBUG ("Displayed: " ++ message).

(** The [try] block of [display]. *)
Definition display_body (force_clear : bool) : M unit :=
  s <- get_self;;
  (if negb (hasattr_days_until s) then update else ret tt);;
  s <- get_self;;
  let '(message, lines) := message_and_lines s in
  if negb force_clear
     && opt_string_eqb (last_displayed_message s) (Some message)
  then ret tt
  else redraw message lines.

Definition error_color : pyval := VTuple [VInt 255; VInt 0; VInt 0].

(** The calls of the fallback error screen. *)
Definition error_screen : list call :=
  [ Clear;
    DrawText "Countdown Error" 5 15 error_color None None None;
    UpdateDisplay ].

Fixpoint host_calls (cs : list call) : M unit :=
  match cs with
  | [] => ret tt
  | c :: rest => host_call c;; host_calls rest
  end.

(** The [except Exception as e] block of [display]. *)
Definition display_handler (e : exn) : M unit :=
  log ERROR ("Error displaying countdown: " ++ exn_msg e);;
  try_except (host_calls error_screen) (fun _ => ret tt).

Definition display (force_clear : bool) : M unit :=
  try_except (display_body force_clear) display_handler.

(** *** validate_config *)

Definition in_color_range (c : Z) : bool := (0 <=? c) && (c <=? 255).

(** [isinstance(v, (int, float))]; [bool] is a subclass of [int]. *)
Definition is_int_or_float (v : pyval) : bool :=
  match v with
  | VInt _ | VFloat _ | VBool _ | VNaN | VInf _ => true
  | _ => false
  end.

Definition is_None (v : pyval) : bool :=
  match v with
  | VNone => true
  | _ => false
  end.

(** [v <= 0] for an int or a float: false for [NaN], as every comparison
    with [NaN] is. *)
Definition le_zero (v : pyval) : bool :=
  match v with
  | VInt z => z <=? 0
  | VBool b => negb b
  | VFloat q => Qle_bool q 0
  | VInf negative => negative
  | _ => false
  end.

Definition validate_config : M bool :=
  h <- ask;;
  s <- get_self;;
  if negb (parent_validate_config h) then ret false
  else
    match text_color s with
    | VTuple [c1; c2; c3] =>
        r <- try_except_in [ValueError; TypeError]
               (color_ints <- lift (omap (py_int h) [c1; c2; c3]);;
                if negb (forallb in_color_range color_ints) then
                  log ERROR "Invalid text_color: values must be 0-255";;
                  ret false
                else ret true)
               (fun _ =>
                  log ERROR "Invalid text_color: values must be numeric";;
                  ret false);;
        if negb r then ret false
        else if negb (is_None (logo_size s)) then
          if negb (is_int_or_float (logo_size s)) || le_zero (logo_size s)
          then
            log ERROR "logo_size must be a positive number";;
            ret false
          else ret true
        else ret true
    | _ =>
        log ERROR "Invalid text_color: must be RGB tuple";;
        ret false
    end.

(* ===================================================================== *)
(** ** Notions used by the statements *)
(* ===================================================================== *)

(** *** The countdown *)

(** The list [olympics_events] that the grouping loop builds from
    [OLYMPICS_DATES] (see [olympics_events_bundled]). *)
Definition bundled_events : list event :=
  [ mkevent (mkdate 2026 2 6) (mkdate 2026 2 22) "winter" "Milan-Cortina";
    mkevent (mkdate 2028 7 14) (mkdate 2028 7 30) "summer" "Los Angeles";
    mkevent (mkdate 2030 2 8) (mkdate 2030 2 24) "winter" "TBD";
    mkevent (mkdate 2032 7 23) (mkdate 2032 8 8) "summer" "Brisbane" ].

(** [today] is strictly after the closing date of the last event. *)
Definition past_all_events (d : date) : bool :=
  match last_event bundled_events with
  | Some ev => date_ltb (closing ev) d
  | None => true
  end.

(** *** Calls and traces *)

(** [c] leaves the plugin's attributes as they are and only adds calls to
    the trace. *)
Definition only_calls {A} (c : M A) : Prop :=
  forall h w,
    self (snd (c h w)) = self w
    /\ exists cs, trace (snd (c h w)) = (trace w ++ cs)%list.

(** The calls of [cs] that are issued when they are made in order from the
    trace [tr] and the sequence stops at the first one that raises. *)
Fixpoint attempted (h : host) (tr : list call) (cs : list call) : list call :=
  match cs with
  | [] => []
  | c :: rest =>
      c :: match fault h tr c with
           | None => attempted h (tr ++ [c]) rest
           | Some _ => []
           end
  end.

(** No call of [cs] raises when they are made in order from [tr]. *)
Fixpoint all_succeed (h : host) (tr : list call) (cs : list call) : bool :=
  match cs with
  | [] => true
  | c :: rest =>
      match fault h tr c with
      | None => all_succeed h (tr ++ [c]) rest
      | Some _ => false
      end
  end.

(** The [draw_text] calls that [draw_lines] makes for [lines], from line
    number [i], when none raises. *)
Fixpoint text_calls (h : host) (s : plugin) (lay : layout)
  (right_half_x right_half_width : Z) (i : Z) (lines : list string)
  : list call :=
  match lines with
  | [] => []
  | line :: rest =>
      let text_y := start_y lay + i * line_height lay in
      let x := right_half_x + right_half_width / 2 in
      (if font_eqb (font lay) (extra_small_font h)
       then DrawText line x text_y (text_color s) (Some (font lay)) None
              (Some true)
       else DrawText line x text_y (text_color s) None
              (Some (use_small_font lay)) (Some true))
      :: text_calls h s lay right_half_x right_half_width (i + 1) rest
  end.

(** [display] skips the redraw: no forced clear, and the message is the one
    stored by the previous redraw. *)
Definition redraw_skipped (force_clear : bool) (s : plugin) : bool :=
  negb force_clear
  && opt_string_eqb (last_displayed_message s) (Some (message_of s)).

Definition is_draw_text (c : call) : bool :=
  match c with
  | DrawText _ _ _ _ _ _ _ => true
  | _ => false
  end.

(** *** What validate_config is to accept

    The value of a finite number: an int, a finite float, or a bool (an int
    in Python). *)
Definition number_value (v : pyval) : option Q :=
  match v with
  | VInt z => Some (inject_Z z)
  | VFloat q => Some q
  | VBool b => Some (inject_Z (if b then 1 else 0))
  | _ => None
  end.

(** A number in [0, 255]. *)
Definition is_color_component (v : pyval) : bool :=
  match number_value v with
  | Some q => Qle_bool (inject_Z 0) q && Qle_bool q (inject_Z 255)
  | None => false
  end.

(** A 3-element tuple of numbers, each in [0, 255]. *)
Definition is_rgb_tuple (v : pyval) : bool :=
  match v with
  | VTuple [r; g; b] =>
      is_color_component r && is_color_component g && is_color_component b
  | _ => false
  end.

(** A number greater than zero; [NaN] is not a number. *)
Definition is_positive_number (v : pyval) : bool :=
  match v with
  | VInf negative => negb negative
  | _ =>
      match number_value v with
      | Some q => 0 <? Qnum q
      | None => false
      end
  end.

Definition is_NaN (v : pyval) : bool :=
  match v with
  | VNaN => true
  | _ => false
  end.

Definition is_infinite (v : pyval) : bool :=
  match v with
  | VInf _ => true
  | _ => false
  end.

(** No item of [v], when [v] is a list or a tuple, is an infinite float. *)
Definition no_infinite_item (v : pyval) : bool :=
  match v with
  | VList l | VTuple l => negb (existsb is_infinite l)
  | _ => true
  end.

(** [logo_size] is absent ([None]) or a positive number. *)
Definition logo_size_ok (v : pyval) : bool :=
  match v with
  | VNone => true
  | _ => is_positive_number v
  end.

(** *** What the font loop measures

    The value of [avg_char_width] for font [f] when the calls made so far
    are [tr]. *)
Definition measured (h : host) (tr : list call) (f : pil_font)
  (use_small : bool) : num :=
  match obind (text_width h tr test_text f)
          (fun w => int_truediv w (len test_text)) with
  | Ok q => NFloat q
  | Raise _ => NInt (if use_small then 6 else 8)
  end.

(** The width test of the loop for font [f]: [Ok true] when the estimated
    width of the longest line does not exceed the available width. *)
Definition fits_width (h : host) (tr : list call) (lines : list string)
  (available_text_width : Z) (f : pil_font) (use_small : bool)
  : outcome bool :=
  obind (max_line_width lines (measured h tr f use_small))
    (fun mw => Ok (negb (num_gt mw (NInt available_text_width)))).

(** The total text height of [lines] in font [f] does not exceed the
    available height. *)
Definition fits_height (height : Z) (lines : list string) (f : pil_font)
  (use_small : bool) : bool :=
  Z.of_nat (List.length lines) * font_line_height f use_small <=? height - 4.

(** The update of the loop variables by a font that passed the width test:
    it is taken when no font was taken yet or when it is taller. *)
Definition taken_if_taller (num_lines : Z) (b : best) (f : pil_font)
  (use_small : bool) : best :=
  let lh := font_line_height f use_small in
  match best_font b with
  | None => mkbest (Some f) lh (num_lines * lh) use_small
  | Some _ =>
      if best_line_height b <? lh
      then mkbest (Some f) lh (num_lines * lh) use_small
      else b
  end.

(** The three candidates with the outcome of their width test. *)
Definition candidates (h : host) (b1 b2 b3 : bool)
  : list (bool * pil_font * bool) :=
  [ (b1, regular_font h, false);
    (b2, small_font h, true);
    (b3, extra_small_font h, true) ].

(** *** Values of floats

    [2 ^ e] as a rational, and the rational value of a finite float. *)
Definition pow2 (e : Z) : Q := (2 ^ e)%Q.

Definition fval (f : float) : Q :=
  match f with
  | S754_finite s m e => (inject_Z (cond_Zopp s (Zpos m)) * pow2 e)%Q
  | _ => 0%Q
  end.

(** A positive normal float whose exponent lies in [lo, hi]. *)
Definition normal_in (lo hi : Z) (f : float) : Prop :=
  exists (m : positive) (e : Z),
    f = S754_finite false m e /\ 2 ^ 52 <= Zpos m < 2 ^ 53 /\ lo <= e <= hi.

(* ===================================================================== *)
(** ** Sample environments *)
(* ===================================================================== *)

(** A host whose clock reads [d] at every call and whose calls never raise:
    a 64x32 panel with three fonts, each character 5 pixels wide. *)
Definition panel_regular : pil_font := mkfont "regular" (Some 8).
Definition panel_small : pil_font := mkfont "small" (Some 6).
Definition panel_extra_small : pil_font := mkfont "extra_small" (Some 5).

Definition panel (d : date) : host :=
  mkhost 64 32 panel_regular panel_small panel_extra_small
    (fun _ => Ok d)
    (fun _ text _ => Ok (5 * len text))
    (fun _ _ => None)
    "/plugins/olympics-countdown"
    (fun _ => None)
    (fun _ => None)
    true.

(** The object before [__init__] has run, and the world [__init__] leaves
    when the host is [h] and the configuration [config]. *)
Definition unset : world :=
  mkworld (mkplugin VNone VNone 0 false None "" None None None) [].

Definition constructed (h : host) (config : list (string * pyval)) : world :=
  snd (__init__ config h unset).

(** A host whose clock raises at every call. *)
Definition stopped_clock : host :=
  mkhost 64 32 panel_regular panel_small panel_extra_small
    (fun _ => Raise (Exn HostError "clock unavailable"))
    (fun _ text _ => Ok (5 * len text))
    (fun _ _ => None)
    "/plugins/olympics-countdown"
    (fun _ => None)
    (fun _ => None)
    true.

(** A host like [panel d] on which [clear()] raises at every call. *)
Definition dead_panel (d : date) : host :=
  mkhost 64 32 panel_regular panel_small panel_extra_small
    (fun _ => Ok d)
    (fun _ text _ => Ok (5 * len text))
    (fun _ c => match c with
                | Clear => Some (Exn HostError "matrix not initialised")
                | _ => None
                end)
    "/plugins/olympics-countdown"
    (fun _ => None)
    (fun _ => None)
    true.

(** A host like [panel d] with a bundled 1000x1 logo file, whose imaging
    library, like PIL, refuses to resize to an empty size. *)
Definition thin_logo_panel (d : date) : host :=
  mkhost 64 32 panel_regular panel_small panel_extra_small
    (fun _ => Ok d)
    (fun _ text _ => Ok (5 * len text))
    (fun _ c => match c with
                | Resize _ w h =>
                    if (w <=? 0) || (h <=? 0)
                    then Some (Exn ValueError "height and width must be > 0")
                    else None
                | _ => None
                end)
    "/plugins/olympics-countdown"
    (fun name => if String.eqb name "olympics-logo.png"
                 then Some (Ok (mkimage 1000 1 "RGBA")) else None)
    (fun _ => None)
    true.

(** A host like [panel d] with a bundled 300x200 RGBA logo file. *)
Definition logo_panel (d : date) : host :=
  mkhost 64 32 panel_regular panel_small panel_extra_small
    (fun _ => Ok d)
    (fun _ text _ => Ok (5 * len text))
    (fun _ _ => None)
    "/plugins/olympics-countdown"
    (fun name => if String.eqb name "olympics-logo.png"
                 then Some (Ok (mkimage 300 200 "RGBA")) else None)
    (fun _ => None)
    true.

(** A 128x32 panel: like [panel d], twice as wide. *)
Definition wide_panel (d : date) : host :=
  mkhost 128 32 panel_regular panel_small panel_extra_small
    (fun _ => Ok d)
    (fun _ text _ => Ok (5 * len text))
    (fun _ _ => None)
    "/plugins/olympics-countdown"
    (fun _ => None)
    (fun _ => None)
    true.

Definition countdown_lines : list string :=
  ["95"; "DAYS UNTIL"; "WINTER"; "OLYMPICS"].

(* ===================================================================== *)
(** ** get_info and further notions used by the statements *)
(* ===================================================================== *)

(** *** get_info

    The info dict maps names to plain values or to the dict of a Games; it
    is held in insertion order, as a Python dict is. *)
Inductive info_value :=
| IVal (v : pyval)
| IEvent (ev : event).

(** [d[k] = v]: the value of an existing key is replaced in place, a new
    key is added at the end. *)
Fixpoint dict_set (d : list (string * info_value)) (k : string)
  (v : info_value) : list (string * info_value) :=
  match d with
  | [] => [(k, v)]
  | (k', v') :: rest =>
      if String.eqb k' k then (k', v) :: rest
      else (k', v') :: dict_set rest k v
  end.

(** [d.update(other)]. *)
Definition dict_update (d other : list (string * info_value))
  : list (string * info_value) :=
  fold_left (fun d kv => dict_set d (fst kv) (snd kv)) other d.

(** [d.get(k)]. *)
Fixpoint dict_get (d : list (string * info_value)) (k : string)
  : option info_value :=
  match d with
  | [] => None
  | (k', v) :: rest => if String.eqb k' k then Some v else dict_get rest k
  end.

Definition event_or_none (o : option event) : info_value :=
  match o with
  | Some ev => IEvent ev
  | None => IVal VNone
  end.

(** [get_info], given the dict that [super().get_info()] returns.  The
    attributes read through [getattr] are set by [__init__], so the defaults
    of [getattr] are never used. *)
Definition get_info (parent_info : list (string * info_value))
  : M (list (string * info_value)) :=
  s <- get_self;;
  ret (dict_update parent_info
         [ ("days_until", IVal (VInt (days_until s)));
           ("is_olympics_active", IVal (VBool (is_olympics_active s)));
           ("current_olympics", event_or_none (current_olympics s));
           ("countdown_type", IVal (VStr (countdown_type s)));
           ("text_color", IVal (text_color s));
           ("logo_size", IVal (logo_size s)) ]).

(** The keys that [get_info] writes. *)
Definition info_keys : list string :=
  [ "days_until"; "is_olympics_active"; "current_olympics"; "countdown_type";
    "text_color"; "logo_size" ].

(** *** The schedule *)

(** An event of a schedule whose two dates exist and are in order. *)
Definition well_formed_event (ev : event) : bool :=
  valid_date (opening ev) && valid_date (closing ev)
  && date_leb (opening ev) (closing ev).

(** The event is over on [d]: its closing date is strictly before [d]. *)
Definition finished_on (d : date) (ev : event) : bool :=
  date_ltb (closing ev) d.

(** The date of a schedule entry exists. *)
Definition entry_valid (e : entry) : bool :=
  let '(y, m, d, _, _) := e in valid_date (mkdate y m d).

(** The event that the grouping loop builds from the entries [o] and [c]. *)
Definition event_of_pair (o c : entry) : event :=
  let '(oy, om, od, otype, oloc) := o in
  let '(cy, cm, cd, _, _) := c in
  mkevent (mkdate oy om od) (mkdate cy cm cd) otype oloc.

(** *** update *)

(** The countdown tuple for a clock that reads [d1] in [_get_next_olympics]
    and [d2] in [_calculate_days_until]. *)
Definition countdown_at (d1 d2 : date) : Z * bool * option event * string :=
  days_until_result (fst (next_olympics_in bundled_events d1))
    (snd (next_olympics_in bundled_events d1)) d2.

(** The four assignments of [update] from the countdown tuple [r]. *)
Definition assign_countdown (r : Z * bool * option event * string)
  (s : plugin) : plugin :=
  let '(days, is_active, info, ctype) := r in
  set_countdown_type ctype
    (set_current_olympics info
       (set_is_olympics_active is_active (set_days_until days s))).

(** The line [update] logs on a new day. *)
Definition update_log (r : Z * bool * option event * string) : call :=
  let '(days, is_active, info, _) := r in
  match info with
  | Some ev => Log INFO (update_log_message days is_active ev)
  | None => Log WARNING "No upcoming Olympics found"
  end.

(** The world after a completed [try] block of [update] that computed [r]
    and then read the date [d3]. *)
Definition after_update (r : Z * bool * option event * string) (d3 : date)
  (w : world) : world :=
  let s1 := assign_countdown r (self w) in
  let tr3 := (trace w ++ [DateToday; DateToday; DateToday])%list in
  if opt_date_eqb (last_calculated_date (self w)) (Some d3)
  then mkworld s1 tr3
  else mkworld (set_last_calculated_date (Some d3) s1)
         (tr3 ++ [update_log r])%list.

Definition is_clock_or_log (c : call) : bool :=
  match c with
  | DateToday | Log _ _ => true
  | _ => false
  end.

(** *** Calls of a given kind *)

(** Every call that [c] issues satisfies [P]. *)
Definition calls_in {A} (P : call -> bool) (c : M A) : Prop :=
  forall h w,
    exists cs, trace (snd (c h w)) = (trace w ++ cs)%list /\ forallb P cs = true.

Definition not_clock_read (c : call) : bool :=
  match c with
  | DateToday => false
  | _ => true
  end.

(** A call other than a clock read and a paste. *)
Definition plain_call (c : call) : bool :=
  match c with
  | DateToday | Paste _ _ _ _ => false
  | _ => true
  end.

(** A paste is made at (2, 2) and the pasted image stays within the left
    half of the display, 2 pixels away from its edges. *)
Definition paste_within (h : host) (c : call) : bool :=
  match c with
  | Paste img x y _ =>
      (x =? 2) && (y =? 2)
      && (0 <=? img_width img) && (2 + img_width img <=? dm_width h / 2 - 2)
      && (0 <=? img_height img) && (2 + img_height img <=? dm_height h - 2)
  | _ => true
  end.

(** *** Text of the message *)

(** The last character of a string. *)
Fixpoint last_char (s : string) : option ascii :=
  match s with
  | EmptyString => None
  | String c EmptyString => Some c
  | String _ r => last_char r
  end.

(** A character of the decimal notation of an int: a digit or the sign. *)
Definition is_int_char (c : ascii) : bool :=
  let n := nat_of_ascii c in
  (Nat.leb 48 n && Nat.leb n 57) || Nat.eqb n 45.

Fixpoint string_forall (P : ascii -> bool) (s : string) : bool :=
  match s with
  | EmptyString => true
  | String c r => P c && string_forall P r
  end.

(** The part of a string before its first space. *)
Fixpoint until_space (s : string) : string :=
  match s with
  | EmptyString => EmptyString
  | String c r => if Ascii.eqb c " "%char then EmptyString
                  else String c (until_space r)
  end.

(** A state as [update] leaves it [days] days before the opening of [ev]. *)
Definition counting_down_to (ev : event) (days : Z) : plugin :=
  mkplugin (VTuple [VInt 255; VInt 255; VInt 255]) VNone days false (Some ev)
    "opening" None None None.

(** *** The bundled logo file *)

(** The first name of [names] for which a file exists in the plugin
    directory, with what opening it gives. *)
Fixpoint first_existing (h : host) (names : list string)
  : option (string * outcome image) :=
  match names with
  | [] => None
  | name :: rest =>
      match logo_file h name with
      | Some opened => Some (name, opened)
      | None => first_existing h rest
      end
  end.

(** The logo that [first_existing] stands for: the image of the first
    existing file when it opens, none otherwise. *)
Definition bundled_logo (h : host) : option image :=
  match first_existing h possible_names with
  | Some (_, Ok img) => Some img
  | _ => None
  end.

(** The level of the line that [_load_logo_image] logs. *)
Definition load_log_level (h : host) : log_level :=
  match first_existing h possible_names with
  | Some (_, Ok _) => INFO
  | Some (_, Raise _) => WARNING
  | None => DEBUG
  end.

(** *** Where the text is drawn *)

(** A [draw_text] call of a redraw is centred on the middle of the right
    half, and its line lies between the rows 2 and [height - 2]. *)
Definition text_inside (h : host) (lay : layout) (c : call) : bool :=
  match c with
  | DrawText _ x y _ _ _ centered =>
      (x =? dm_width h / 2 + (dm_width h - dm_width h / 2) / 2)
      && (2 <=? y) && (y + line_height lay <=? dm_height h - 2)
      && match centered with Some true => true | _ => false end
  | _ => false
  end.

(* ===================================================================== *)
(** ** Properties *)
(* ===================================================================== *)

Local Open Scope list_scope.

(** *** Dates: the ordinal agrees with the comparison *)

Section DateOrder.

Lemma is_leap_cases (y : Z) :
  (_is_leap y = true /\ y mod 4 = 0 /\ (y mod 100 <> 0 \/ y mod 400 = 0))
  \/ (_is_leap y = false /\ (y mod 4 <> 0 \/ (y mod 100 = 0 /\ y mod 400 <> 0))).
Proof.
  unfold _is_leap.
  destruct (Z.eqb_spec (y mod 4) 0), (Z.eqb_spec (y mod 100) 0),
    (Z.eqb_spec (y mod 400) 0); cbn; intuition lia.
Qed.

Lemma days_before_year_succ (y : Z) :
  _days_before_year (y + 1)
  = _days_before_year y + 365 + (if _is_leap y then 1 else 0).
Proof.
  unfold _days_before_year.
  destruct (is_leap_cases y) as [(-> & H4 & H) | (-> & H)];
    replace (y + 1 - 1) with (y - 1 + 1) by lia;
    Z.to_euclidean_division_equations; lia.
Qed.

Lemma days_before_year_mono (y y' : Z) :
  y <= y' -> _days_before_year y <= _days_before_year y'.
Proof.
  unfold _days_before_year. intros H.
  assert ((y - 1) / 4 <= (y' - 1) / 4) by (apply Z.div_le_mono; lia).
  assert ((y - 1) / 400 <= (y' - 1) / 400) by (apply Z.div_le_mono; lia).
  assert ((y' - 1) / 100 - (y - 1) / 100 <= y' - y)
    by (Z.to_euclidean_division_equations; lia).
  lia.
Qed.

Lemma month_cases (m : Z) :
  1 <= m <= 12 ->
  m = 1 \/ m = 2 \/ m = 3 \/ m = 4 \/ m = 5 \/ m = 6 \/ m = 7 \/ m = 8
  \/ m = 9 \/ m = 10 \/ m = 11 \/ m = 12.
Proof. lia. Qed.

Ltac each_month H :=
  apply month_cases in H;
  repeat (destruct H as [H | H]); subst.

(** Evaluates the table lookups at a known month. *)
Ltac lookup_tables :=
  repeat match goal with
         | |- context [nth (Z.to_nat ?m) ?l ?d] =>
             let v := eval vm_compute in (nth (Z.to_nat m) l d) in
             change (nth (Z.to_nat m) l d) with v
         | H : context [nth (Z.to_nat ?m) ?l ?d] |- _ =>
             let v := eval vm_compute in (nth (Z.to_nat m) l d) in
             change (nth (Z.to_nat m) l d) with v in H
         end;
  cbn [Z.eqb Z.ltb Z.compare Pos.compare Pos.compare_cont Pos.eqb andb] in *.

(** Within a year, the day number of a valid date is between 1 and the
    length of the year. *)
Lemma day_of_year_bounds (y m d : Z) :
  1 <= m <= 12 -> 1 <= d <= _days_in_month y m ->
  1 <= _days_before_month y m + d <= 365 + (if _is_leap y then 1 else 0).
Proof.
  intros Hm Hd. unfold _days_before_month, _days_in_month in *.
  each_month Hm; lookup_tables; destruct (_is_leap y); lia.
Qed.

(** Within a year, an earlier month ends before a later month begins. *)
Lemma month_before (y m d m' : Z) :
  1 <= m <= 12 -> 1 <= m' <= 12 -> m < m' ->
  d <= _days_in_month y m ->
  _days_before_month y m + d <= _days_before_month y m'.
Proof.
  intros Hm Hm' Hlt Hd. unfold _days_before_month, _days_in_month in *.
  each_month Hm; each_month Hm'; try lia;
    lookup_tables; destruct (_is_leap y); lia.
Qed.

Lemma valid_date_fields (d : date) :
  valid_date d = true ->
  1 <= year d <= 9999 /\ 1 <= month d <= 12
  /\ 1 <= day d <= _days_in_month (year d) (month d).
Proof.
  unfold valid_date, MINYEAR, MAXYEAR. intros H.
  repeat (apply andb_prop in H; destruct H as [H ?]).
  repeat match goal with
         | H : (_ <=? _) = true |- _ => apply Z.leb_le in H
         end.
  lia.
Qed.

Lemma toordinal_lt (a b : date) :
  valid_date a = true -> valid_date b = true ->
  date_cmp a b = Lt -> toordinal a < toordinal b.
Proof.
  intros Ha Hb. apply valid_date_fields in Ha, Hb.
  destruct Ha as (Hya & Hma & Hda), Hb as (Hyb & Hmb & Hdb).
  unfold date_cmp, toordinal, _ymd2ord.
  pose proof (day_of_year_bounds _ _ _ Hma Hda) as Ba.
  pose proof (day_of_year_bounds _ _ _ Hmb Hdb) as Bb.
  destruct (Z.compare_spec (year a) (year b)) as [Ey | Ly | Gy];
    try discriminate.
  - rewrite Ey in *.
    destruct (Z.compare_spec (month a) (month b)) as [Em | Lm | Gm];
      try discriminate.
    + rewrite Em. intros Hd. change (day a < day b) in Hd. lia.
    + intros _.
      pose proof (month_before (year b) _ (day a) _ Hma Hmb Lm (proj2 Hda)).
      lia.
  - intros _.
    pose proof (days_before_year_succ (year a)) as Hs.
    pose proof (days_before_year_mono (year a + 1) (year b)). lia.
Qed.

Lemma date_cmp_antisym (a b : date) : date_cmp b a = CompOpp (date_cmp a b).
Proof.
  unfold date_cmp.
  rewrite (Z.compare_antisym (year a)), (Z.compare_antisym (month a)),
    (Z.compare_antisym (day a)).
  destruct (year a ?= year b), (month a ?= month b), (day a ?= day b);
    reflexivity.
Qed.

Lemma date_cmp_eq (a b : date) : date_cmp a b = Eq -> a = b.
Proof.
  unfold date_cmp. destruct a, b; cbn.
  destruct (Z.compare_spec year0 year1); try discriminate.
  destruct (Z.compare_spec month0 month1); try discriminate.
  destruct (Z.compare_spec day0 day1); try discriminate.
  congruence.
Qed.

(** [a ? b] on valid dates is the comparison of their ordinals. *)
Lemma date_cmp_toordinal (a b : date) :
  valid_date a = true -> valid_date b = true ->
  date_cmp a b = (toordinal a ?= toordinal b).
Proof.
  intros Ha Hb. destruct (date_cmp a b) eqn:E; symmetry.
  - apply date_cmp_eq in E. subst. apply Z.compare_refl.
  - apply Z.compare_lt_iff. now apply toordinal_lt.
  - apply Z.compare_gt_iff. apply toordinal_lt; trivial.
    rewrite date_cmp_antisym, E. reflexivity.
Qed.

Lemma date_ltb_toordinal (a b : date) :
  valid_date a = true -> valid_date b = true ->
  date_ltb a b = (toordinal a <? toordinal b).
Proof.
  intros Ha Hb. unfold date_ltb, Z.ltb.
  now rewrite date_cmp_toordinal.
Qed.

Lemma date_leb_toordinal (a b : date) :
  valid_date a = true -> valid_date b = true ->
  date_leb a b = (toordinal a <=? toordinal b).
Proof.
  intros Ha Hb. unfold date_leb, Z.leb.
  now rewrite date_cmp_toordinal.
Qed.

End DateOrder.

(** *** The selection over the bundled schedule *)

Lemma olympics_events_bundled :
  olympics_events_of OLYMPICS_DATES = Ok bundled_events.
Proof. reflexivity. Qed.

Lemma bundled_events_valid (ev : event) :
  In ev bundled_events ->
  valid_date (opening ev) = true /\ valid_date (closing ev) = true.
Proof.
  cbn. intros H.
  repeat (destruct H as [<- | H]; [split; reflexivity|]). contradiction.
Qed.

(** Rewrites the date comparisons of the goal against the bundled dates into
    comparisons of ordinals, for a valid date [d]. *)
Ltac by_ordinals Hd :=
  repeat match goal with
         | H : In _ bundled_events |- _ =>
             cbn in H; repeat (destruct H as [<- | H]); try contradiction
         end;
  cbn [opening closing] in *;
  repeat match goal with
         | H : context [date_ltb ?a ?b] |- _ =>
             rewrite (date_ltb_toordinal a b) in H by (exact Hd || reflexivity)
         | H : context [date_leb ?a ?b] |- _ =>
             rewrite (date_leb_toordinal a b) in H by (exact Hd || reflexivity)
         | |- context [date_ltb ?a ?b] =>
             rewrite (date_ltb_toordinal a b) by (exact Hd || reflexivity)
         | |- context [date_leb ?a ?b] =>
             rewrite (date_leb_toordinal a b) by (exact Hd || reflexivity)
         end;
  unfold days_between in *;
  repeat match goal with
         | |- context [toordinal (mkdate ?y ?m ?dd)] =>
             let v := eval vm_compute in (toordinal (mkdate y m dd)) in
             change (toordinal (mkdate y m dd)) with v
         | H : context [toordinal (mkdate ?y ?m ?dd)] |- _ =>
             let v := eval vm_compute in (toordinal (mkdate y m dd)) in
             change (toordinal (mkdate y m dd)) with v in H
         end.

Ltac split_tests :=
  repeat match goal with
         | |- context [?a <? ?b] => destruct (Z.ltb_spec a b)
         | |- context [?a <=? ?b] => destruct (Z.leb_spec a b)
         | H : context [?a <? ?b] |- _ => destruct (Z.ltb_spec a b)
         | H : context [?a <=? ?b] |- _ => destruct (Z.leb_spec a b)
         end.

(** Before every opening the loop stops at the first event. *)
Lemma first_relevant_before_all (d : date) (ev0 : event) (rest : list event) :
  date_ltb d (opening ev0) = true ->
  first_relevant d (ev0 :: rest) = Some (ev0, false).
Proof. cbn. now intros ->. Qed.

(** Inside an event's interval the loop stops at that event. *)
Lemma first_relevant_within (d : date) (ev : event) :
  valid_date d = true ->
  In ev bundled_events ->
  date_leb (opening ev) d = true -> date_leb d (closing ev) = true ->
  first_relevant d bundled_events = Some (ev, true).
Proof.
  intros Hd Hin Ho Hc. unfold bundled_events, first_relevant.
  by_ordinals Hd; split_tests; cbn; try reflexivity; try discriminate; lia.
Qed.

(** The loop falls through exactly when [d] is past the last closing. *)
Lemma first_relevant_none (d : date) :
  valid_date d = true ->
  (first_relevant d bundled_events = None <-> past_all_events d = true).
Proof.
  intros Hd. unfold past_all_events, bundled_events, first_relevant, last_event.
  by_ordinals Hd; split_tests; cbn; split; intros; try reflexivity;
    try discriminate; lia.
Qed.

(** What the loop returns when it returns: an event of the list, whose
    opening is ahead, or whose interval holds [d]. *)
Lemma first_relevant_some (d : date) (evs : list event) (ev : event)
  (active : bool) :
  first_relevant d evs = Some (ev, active) ->
  In ev evs
  /\ (if active
      then date_leb (opening ev) d = true /\ date_leb d (closing ev) = true
      else date_ltb d (opening ev) = true).
Proof.
  induction evs as [|e evs IH]; cbn; [discriminate|].
  destruct (date_ltb d (opening e)) eqn:E1.
  - intros [= <- <-]. auto.
  - destruct (date_leb (opening e) d && date_leb d (closing e)) eqn:E2.
    + intros [= <- <-]. apply andb_prop in E2. auto.
    + intros H. destruct (IH H). auto.
Qed.

(** With at least one event, the selection names an event. *)
Lemma next_olympics_in_some (evs : list event) (d : date) :
  evs <> [] -> exists ev active, next_olympics_in evs d = (Some ev, active).
Proof.
  intros Hne. unfold next_olympics_in.
  destruct (first_relevant d evs) as [[ev a]|]; [eauto|].
  assert (exists ev, last_event evs = Some ev) as [ev ->]; [|eauto].
  clear d. induction evs as [|e [|e' evs] IH]; [congruence|cbn; eauto|].
  destruct IH as [ev H]; [discriminate|]. exists ev. exact H.
Qed.

(** *** Running the countdown under a steady clock *)

Lemma get_next_olympics_run (h : host) (w : world) (d : date) :
  today h (trace w) = Ok d ->
  _get_next_olympics h w
  = (Ok (next_olympics_in bundled_events d), record_call DateToday w).
Proof.
  intros Hc. unfold _get_next_olympics, bind, date_today, lift, ret.
  rewrite Hc. reflexivity.
Qed.

Lemma calculate_days_until_run (h : host) (w : world) (d : date) :
  (forall tr, today h tr = Ok d) ->
  _calculate_days_until h w
  = (Ok (days_until_result (fst (next_olympics_in bundled_events d))
           (snd (next_olympics_in bundled_events d)) d),
     mkworld (self w) (trace w ++ [DateToday; DateToday])).
Proof.
  intros Hc. unfold _calculate_days_until, bind.
  rewrite (get_next_olympics_run h w d) by apply Hc.
  destruct (next_olympics_in_some bundled_events d) as (ev & a & ->);
    [discriminate|].
  cbn [fst snd]. unfold date_today, record_call, ret. cbn [trace self].
  rewrite Hc, <- app_assoc. reflexivity.
Qed.

(** *** Claims on the countdown *)

(** C1.  When the clock reads a date [d] strictly before every opening date
    of the bundled schedule, [_calculate_days_until] returns the first
    event, not active, with countdown type "opening", and [days_until] is
    that event's opening date minus [d], a positive number. *)
Theorem C1_before_every_opening (h : host) (w : world) (d : date) :
  valid_date d = true ->
  (forall tr, today h tr = Ok d) ->
  (forall ev, In ev bundled_events -> date_ltb d (opening ev) = true) ->
  exists ev0,
    hd_error bundled_events = Some ev0
    /\ fst (_calculate_days_until h w)
       = Ok (days_between (opening ev0) d, false, Some ev0, "opening")
    /\ 0 < days_between (opening ev0) d.
Proof.
  intros Hd Hc Hbefore.
  destruct bundled_events as [|ev0 rest] eqn:Eevs; [discriminate|].
  exists ev0. split; [reflexivity|].
  assert (Hin : In ev0 bundled_events) by (rewrite Eevs; left; reflexivity).
  assert (H0 : date_ltb d (opening ev0) = true)
    by (apply Hbefore; left; reflexivity).
  rewrite (calculate_days_until_run h w d Hc). cbn [fst].
  rewrite Eevs. unfold next_olympics_in.
  rewrite (first_relevant_before_all d ev0 rest H0). cbn. split; [reflexivity|].
  destruct (bundled_events_valid ev0 Hin) as [Vo _].
  rewrite date_ltb_toordinal in H0 by assumption.
  apply Z.ltb_lt in H0. unfold days_between. lia.
Qed.

Lemma C1_before_every_opening_witness :
  exists ev0,
    hd_error bundled_events = Some ev0
    /\ fst (_calculate_days_until (panel (mkdate 2025 11 3)) unset)
       = Ok (days_between (opening ev0) (mkdate 2025 11 3), false, Some ev0,
             "opening")
    /\ 0 < days_between (opening ev0) (mkdate 2025 11 3).
Proof.
  apply (C1_before_every_opening (panel (mkdate 2025 11 3)) unset
           (mkdate 2025 11 3)).
  - reflexivity.
  - intros tr. reflexivity.
  - intros ev Hin. cbn in Hin.
    repeat (destruct Hin as [<- | Hin]; [reflexivity|]). contradiction.
Defined.

(** C2.  When the clock reads a date [d] inside the closed interval
    [opening, closing] of an event of the bundled schedule,
    [_calculate_days_until] returns that event, active, with countdown type
    "closing", and [days_until] is its closing date minus [d], which is not
    negative. *)
Theorem C2_within_an_event (h : host) (w : world) (d : date) (ev : event) :
  valid_date d = true ->
  (forall tr, today h tr = Ok d) ->
  In ev bundled_events ->
  date_leb (opening ev) d = true -> date_leb d (closing ev) = true ->
  fst (_calculate_days_until h w)
  = Ok (days_between (closing ev) d, true, Some ev, "closing")
  /\ 0 <= days_between (closing ev) d.
Proof.
  intros Hd Hc Hin Ho Hcl.
  rewrite (calculate_days_until_run h w d Hc). cbn [fst].
  unfold next_olympics_in.
  rewrite (first_relevant_within d ev Hd Hin Ho Hcl). cbn. split; [reflexivity|].
  destruct (bundled_events_valid ev Hin) as [_ Vc].
  rewrite date_leb_toordinal in Hcl by assumption.
  apply Z.leb_le in Hcl. unfold days_between. lia.
Qed.

Lemma C2_within_an_event_witness :
  fst (_calculate_days_until (panel (mkdate 2028 7 20)) unset)
  = Ok (days_between (mkdate 2028 7 30) (mkdate 2028 7 20), true,
        Some (mkevent (mkdate 2028 7 14) (mkdate 2028 7 30) "summer"
                "Los Angeles"),
        "closing")
  /\ 0 <= days_between (mkdate 2028 7 30) (mkdate 2028 7 20).
Proof.
  apply (C2_within_an_event (panel (mkdate 2028 7 20)) unset
           (mkdate 2028 7 20)
           (mkevent (mkdate 2028 7 14) (mkdate 2028 7 30) "summer"
              "Los Angeles")).
  - reflexivity.
  - intros tr. reflexivity.
  - cbn. right. left. reflexivity.
  - reflexivity.
  - reflexivity.
Defined.

(** C3, as the code has it.  When the clock reads a valid date [d],
    [_calculate_days_until] names an event.  If [d] is strictly after the
    last closing date, it is the last event, not active, with countdown type
    "opening", and [days_until] is its opening date minus [d], a negative
    number.  Otherwise [days_until] is not negative, and it is zero exactly
    when the event is active and [d] is its closing date. *)
Theorem C3_sign_of_days_until (h : host) (w : world) (d : date) :
  valid_date d = true ->
  (forall tr, today h tr = Ok d) ->
  exists days active ev ctype,
    fst (_calculate_days_until h w) = Ok (days, active, Some ev, ctype)
    /\ (past_all_events d = true ->
        last_event bundled_events = Some ev /\ active = false
        /\ ctype = "opening" /\ days = days_between (opening ev) d
        /\ days < 0)
    /\ (past_all_events d = false ->
        0 <= days /\ (days = 0 <-> active = true /\ d = closing ev)).
Proof.
  intros Hd Hc.
  rewrite (calculate_days_until_run h w d Hc). cbn [fst].
  pose proof (first_relevant_none d Hd) as Hnone.
  unfold next_olympics_in.
  destruct (first_relevant d bundled_events) as [[ev active]|] eqn:E.
  - destruct (first_relevant_some _ _ _ _ E) as [Hin Hev].
    destruct (bundled_events_valid ev Hin) as [Vo Vc].
    assert (Hp : past_all_events d = false).
    { destruct (past_all_events d); [|reflexivity].
      destruct Hnone as [_ Hn]. discriminate (Hn eq_refl). }
    destruct active; cbn [days_until_result fst snd].
    + exists (days_between (closing ev) d), true, ev, "closing".
      split; [reflexivity|]. split; [rewrite Hp; discriminate|]. intros _.
      destruct Hev as [_ Hle].
      rewrite date_leb_toordinal in Hle by assumption.
      apply Z.leb_le in Hle. unfold days_between.
      split; [lia|]. split.
      * intros H0. split; [reflexivity|].
        apply date_cmp_eq. rewrite date_cmp_toordinal by assumption.
        apply Z.compare_eq_iff. lia.
      * intros [_ ->]. lia.
    + exists (days_between (opening ev) d), false, ev, "opening".
      split; [reflexivity|]. split; [rewrite Hp; discriminate|]. intros _.
      rewrite date_ltb_toordinal in Hev by assumption.
      apply Z.ltb_lt in Hev. unfold days_between.
      split; [lia|]. split; [lia|]. intros [? _]. discriminate.
  - assert (Hp : past_all_events d = true) by (apply Hnone; reflexivity).
    destruct (last_event bundled_events) as [ev|] eqn:El; [|discriminate].
    exists (days_between (opening ev) d), false, ev, "opening".
    cbn [days_until_result fst snd].
    split; [reflexivity|]. split; [|rewrite Hp; discriminate]. intros _.
    repeat (split; [reflexivity|]).
    injection El as <-. unfold past_all_events in Hp. cbn in Hp.
    revert Hp. by_ordinals Hd. intros Hp. apply Z.ltb_lt in Hp. lia.
Qed.

Lemma C3_sign_of_days_until_witness :
  exists days active ev ctype,
    fst (_calculate_days_until (panel (mkdate 2033 1 1)) unset)
    = Ok (days, active, Some ev, ctype)
    /\ (past_all_events (mkdate 2033 1 1) = true ->
        last_event bundled_events = Some ev /\ active = false
        /\ ctype = "opening"
        /\ days = days_between (opening ev) (mkdate 2033 1 1)
        /\ days < 0)
    /\ (past_all_events (mkdate 2033 1 1) = false ->
        0 <= days
        /\ (days = 0 <-> active = true /\ mkdate 2033 1 1 = closing ev)).
Proof.
  apply (C3_sign_of_days_until (panel (mkdate 2033 1 1)) unset
           (mkdate 2033 1 1)).
  - reflexivity.
  - intros tr. reflexivity.
Defined.

(** C3 as stated fails: on 2026-02-22, the closing day of the first Games,
    the clock is not past the schedule, yet [days_until] is zero, not
    strictly positive. *)
Lemma C3_counterexample :
  valid_date (mkdate 2026 2 22) = true
  /\ past_all_events (mkdate 2026 2 22) = false
  /\ fst (_calculate_days_until (panel (mkdate 2026 2 22)) unset)
     = Ok (0, true,
           Some (mkevent (mkdate 2026 2 6) (mkdate 2026 2 22) "winter"
                   "Milan-Cortina"),
           "closing")
  /\ ~ (forall d : date,
          valid_date d = true -> past_all_events d = false ->
          forall days active info ctype,
            fst (_calculate_days_until (panel d) unset)
            = Ok (days, active, info, ctype) ->
            0 < days).
Proof.
  repeat (split; [reflexivity|]).
  intros H.
  specialize (H (mkdate 2026 2 22) eq_refl eq_refl _ _ _ _ eq_refl).
  vm_compute in H. discriminate H.
Qed.

(** *** Frame: computations that only make calls *)

Lemma only_calls_ret {A} (a : A) : only_calls (ret a).
Proof. intros h w. cbn. split; [reflexivity|]. exists []. now rewrite app_nil_r. Qed.

Lemma only_calls_lift {A} (o : outcome A) : only_calls (lift o).
Proof. intros h w. cbn. split; [reflexivity|]. exists []. now rewrite app_nil_r. Qed.

Lemma only_calls_ask : only_calls ask.
Proof. intros h w. cbn. split; [reflexivity|]. exists []. now rewrite app_nil_r. Qed.

Lemma only_calls_get_self : only_calls get_self.
Proof. intros h w. cbn. split; [reflexivity|]. exists []. now rewrite app_nil_r. Qed.

Lemma only_calls_host_call (c : call) : only_calls (host_call c).
Proof. intros h w. cbn. split; [reflexivity|]. now exists [c]. Qed.

Lemma only_calls_date_today : only_calls date_today.
Proof. intros h w. cbn. split; [reflexivity|]. now exists [DateToday]. Qed.

Lemma only_calls_get_text_width (t : string) (f : pil_font) :
  only_calls (get_text_width t f).
Proof. intros h w. cbn. split; [reflexivity|]. now exists [GetTextWidth t f]. Qed.

Lemma only_calls_log (l : log_level) (m : string) : only_calls (log l m).
Proof. intros h w. cbn. split; [reflexivity|]. now exists [Log l m]. Qed.

Lemma only_calls_bind {A B} (c : M A) (k : A -> M B) :
  only_calls c -> (forall a, only_calls (k a)) -> only_calls (bind c k).
Proof.
  intros Hc Hk h w. unfold bind.
  destruct (Hc h w) as [Hs [cs Ht]].
  destruct (c h w) as [[a | e] w1]; cbn [snd] in *.
  - destruct (Hk a h w1) as [Hs' [cs' Ht']].
    split; [congruence|]. exists (cs ++ cs'). rewrite Ht', Ht. apply eq_sym, app_assoc.
  - split; [assumption|]. now exists cs.
Qed.

Lemma only_calls_try_except {A} (c : M A) (handler : exn -> M A) :
  only_calls c -> (forall e, only_calls (handler e)) ->
  only_calls (try_except c handler).
Proof.
  intros Hc Hk h w. unfold try_except.
  destruct (Hc h w) as [Hs [cs Ht]].
  destruct (c h w) as [[a | e] w1]; cbn [snd] in *.
  - split; [assumption|]. now exists cs.
  - destruct (Hk e h w1) as [Hs' [cs' Ht']].
    split; [congruence|]. exists (cs ++ cs'). rewrite Ht', Ht. apply eq_sym, app_assoc.
Qed.

Lemma only_calls_try_except_in {A} (cls : list exn_class) (c : M A)
  (handler : exn -> M A) :
  only_calls c -> (forall e, only_calls (handler e)) ->
  only_calls (try_except_in cls c handler).
Proof.
  intros Hc Hk h w. unfold try_except_in.
  destruct (Hc h w) as [Hs [cs Ht]].
  destruct (c h w) as [[a | e] w1]; cbn [snd] in *.
  - split; [assumption|]. now exists cs.
  - destruct (existsb _ cls).
    + destruct (Hk e h w1) as [Hs' [cs' Ht']].
      split; [congruence|]. exists (cs ++ cs'). rewrite Ht', Ht. apply eq_sym, app_assoc.
    + split; [assumption|]. now exists cs.
Qed.

Create HintDb frame discriminated.
#[local] Hint Resolve only_calls_ret only_calls_lift only_calls_ask
  only_calls_get_self only_calls_host_call only_calls_date_today
  only_calls_get_text_width only_calls_log : frame.

(** Decomposes a goal [only_calls c] along the structure of [c]. *)
Ltac frame_step :=
  match goal with
  | |- only_calls (bind _ _) => apply only_calls_bind; [|intros ?]
  | |- only_calls (try_except _ _) => apply only_calls_try_except; [|intros ?]
  | |- only_calls (try_except_in _ _ _) =>
      apply only_calls_try_except_in; [|intros ?]
  | |- only_calls (match ?x with _ => _ end) => destruct x
  | |- only_calls (if ?x then _ else _) => destruct x
  | |- only_calls _ => solve [auto with frame]
  end.
Ltac frame := repeat frame_step.

Lemma only_calls_get_next_olympics : only_calls _get_next_olympics.
Proof. unfold _get_next_olympics. frame. Qed.

Lemma only_calls_calculate_days_until : only_calls _calculate_days_until.
Proof.
  unfold _calculate_days_until.
  apply only_calls_bind; [apply only_calls_get_next_olympics|].
  intros [info active]. frame.
Qed.

(** *** update *)

(** [update] never raises, and it ends where its [try] block ended, after
    the error record when the block raised. *)
Lemma update_run (h : host) (w : world) :
  fst (update h w) = Ok tt
  /\ snd (update h w)
     = match update_body h w with
       | (Ok _, w1) => w1
       | (Raise e, w1) =>
           record_call
             (Log ERROR ("Error updating countdown: " ++ exn_msg e)%string) w1
       end.
Proof.
  unfold update, try_except.
  destruct (update_body h w) as [[[] | e] w1]; cbn; auto.
Qed.

(** C9.  When [_calculate_days_until] raises inside [update], [update]
    returns normally and leaves [days_until], [is_olympics_active],
    [current_olympics], [countdown_type] and [last_calculated_date] (indeed
    every attribute) as they were. *)
Theorem C9_update_keeps_state_on_error (h : host) (w : world) (e : exn)
  (w1 : world) :
  _calculate_days_until h w = (Raise e, w1) ->
  fst (update h w) = Ok tt
  /\ self (snd (update h w)) = self w
  /\ days_until (self (snd (update h w))) = days_until (self w)
  /\ is_olympics_active (self (snd (update h w))) = is_olympics_active (self w)
  /\ current_olympics (self (snd (update h w))) = current_olympics (self w)
  /\ countdown_type (self (snd (update h w))) = countdown_type (self w)
  /\ last_calculated_date (self (snd (update h w)))
     = last_calculated_date (self w).
Proof.
  intros Hraise.
  destruct (update_run h w) as [Hok Hw]. split; [exact Hok|].
  assert (Hself : self (snd (update h w)) = self w).
  { rewrite Hw. unfold update_body, bind. rewrite Hraise. cbn.
    pose proof (only_calls_calculate_days_until h w) as [Hs _].
    rewrite Hraise in Hs. exact Hs. }
  rewrite Hself. repeat split; reflexivity.
Qed.

Lemma C9_update_keeps_state_on_error_witness :
  fst (update stopped_clock (constructed stopped_clock [])) = Ok tt
  /\ self (snd (update stopped_clock (constructed stopped_clock [])))
     = self (constructed stopped_clock [])
  /\ days_until (self (snd (update stopped_clock (constructed stopped_clock []))))
     = days_until (self (constructed stopped_clock []))
  /\ is_olympics_active
       (self (snd (update stopped_clock (constructed stopped_clock []))))
     = is_olympics_active (self (constructed stopped_clock []))
  /\ current_olympics
       (self (snd (update stopped_clock (constructed stopped_clock []))))
     = current_olympics (self (constructed stopped_clock []))
  /\ countdown_type
       (self (snd (update stopped_clock (constructed stopped_clock []))))
     = countdown_type (self (constructed stopped_clock []))
  /\ last_calculated_date
       (self (snd (update stopped_clock (constructed stopped_clock []))))
     = last_calculated_date (self (constructed stopped_clock [])).
Proof.
  apply (C9_update_keeps_state_on_error stopped_clock
           (constructed stopped_clock [])
           (Exn HostError "clock unavailable")
           (record_call DateToday (constructed stopped_clock []))).
  reflexivity.
Defined.

(** *** Sequences of host calls *)

Lemma host_call_run (c : call) (h : host) (w : world) :
  snd (host_call c h w) = record_call c w.
Proof. reflexivity. Qed.

Lemma host_calls_run (cs : list call) (h : host) (w : world) :
  snd (host_calls cs h w)
  = mkworld (self w) (trace w ++ attempted h (trace w) cs)
  /\ is_ok (fst (host_calls cs h w)) = all_succeed h (trace w) cs.
Proof.
  revert w. induction cs as [|c cs IH]; intros w.
  - cbn. rewrite app_nil_r. destruct w; auto.
  - cbn [host_calls attempted all_succeed]. unfold bind, host_call.
    destruct (fault h (trace w) c) as [e|]; cbn [fst snd].
    + split; reflexivity.
    + destruct (IH (record_call c w)) as [Hw Hok].
      rewrite Hw, Hok. cbn [record_call self trace].
      rewrite <- app_assoc. split; reflexivity.
Qed.

Lemma attempted_all_succeed (h : host) (tr : list call) (cs : list call) :
  all_succeed h tr cs = true -> attempted h tr cs = cs.
Proof.
  revert tr. induction cs as [|c cs IH]; intros tr; cbn; [reflexivity|].
  destruct (fault h tr c); [discriminate|]. intros H. now rewrite IH.
Qed.

Lemma draw_lines_as_calls (lay : layout) (rx rw : Z) (lines : list string)
  (i : Z) (h : host) (w : world) :
  draw_lines lay rx rw i lines h w
  = host_calls (text_calls h (self w) lay rx rw i lines) h w.
Proof.
  revert i w. induction lines as [|line lines IH]; intros i w; [reflexivity|].
  cbn [draw_lines text_calls host_calls].
  unfold draw_line. unfold bind, ask, get_self, host_call. cbv beta iota.
  destruct (font_eqb (font lay) (extra_small_font h));
    match goal with
    | |- context [fault h (trace w) ?c] => destruct (fault h (trace w) c)
    end; try reflexivity; rewrite IH; reflexivity.
Qed.

(** *** display *)

(** [display] never raises.  It ends where its [try] block ended; when the
    block raised, the error is logged and the calls of the error screen are
    made up to the first that raises. *)
Lemma display_run (force_clear : bool) (h : host) (w : world) :
  fst (display force_clear h w) = Ok tt
  /\ snd (display force_clear h w)
     = match display_body force_clear h w with
       | (Ok _, w1) => w1
       | (Raise e, w1) =>
           let logged := trace w1
             ++ [Log ERROR ("Error displaying countdown: " ++ exn_msg e)%string] in
           mkworld (self w1) (logged ++ attempted h logged error_screen)
       end.
Proof.
  unfold display, try_except.
  destruct (display_body force_clear h w) as [[[] | e] w1]; [auto|].
  unfold display_handler, bind, log, try_except. cbv beta iota.
  match goal with
  | |- context [host_calls error_screen h ?w2] =>
      destruct (host_calls_run error_screen h w2) as [Hw _];
      destruct (host_calls error_screen h w2) as [[[] | e'] w3]
  end; cbn [fst snd ret] in *; subst w3; auto.
Qed.

(** *** The parts of a redraw only make calls *)

Lemma only_calls_avg_char_width (f : pil_font) (b : bool) :
  only_calls (avg_char_width f b).
Proof. unfold avg_char_width. frame. Qed.

Lemma only_calls_try_font (lines : list string) (aw : Z) (b : best)
  (opt : string * pil_font * bool) :
  only_calls (try_font lines aw b opt).
Proof.
  unfold try_font. destruct opt as [[name f] use_small].
  apply only_calls_bind; [apply only_calls_avg_char_width|]. intros avg.
  frame.
Qed.

Lemma only_calls_try_fonts (lines : list string) (aw : Z)
  (opts : list (string * pil_font * bool)) (b : best) :
  only_calls (try_fonts lines aw b opts).
Proof.
  revert b. induction opts as [|opt opts IH]; intros b; cbn [try_fonts].
  - frame.
  - apply only_calls_bind; [apply only_calls_try_font|]. intros b'. apply IH.
Qed.

Lemma only_calls_select_font (width : Z) (lines : list string) :
  only_calls (select_font width lines).
Proof.
  unfold select_font. apply only_calls_bind; [frame|]. intros h.
  apply only_calls_bind; [apply only_calls_try_fonts|]. intros b. frame.
Qed.

Lemma only_calls_calculate_text_layout (width height : Z)
  (lines : list string) :
  only_calls (_calculate_text_layout width height lines).
Proof.
  unfold _calculate_text_layout.
  apply only_calls_bind; [apply only_calls_select_font|].
  intros sel. frame.
Qed.

Lemma only_calls_draw_rings (x0 y r : Z) (colors : list (Z * Z * Z)) (i : Z) :
  only_calls (draw_rings x0 y r i colors).
Proof.
  revert i. induction colors as [|c colors IH]; intros i; cbn [draw_rings].
  - frame.
  - apply only_calls_bind; [unfold draw_ring; frame|]. intros _. apply IH.
Qed.

Lemma only_calls_draw_olympics_rings_programmatic (width height : Z) :
  only_calls (_draw_olympics_rings_programmatic width height).
Proof.
  unfold _draw_olympics_rings_programmatic.
  apply only_calls_bind; [frame|]. intros _.
  apply only_calls_bind; [apply only_calls_draw_rings|]. intros _.
  apply only_calls_bind; [apply only_calls_draw_rings|]. intros _. frame.
Qed.

Lemma only_calls_resize (img : image) (w h : Z) : only_calls (resize img w h).
Proof. unfold resize. frame. Qed.

Lemma only_calls_get_logo_image (width height : Z) :
  only_calls (_get_logo_image width height).
Proof.
  unfold _get_logo_image. apply only_calls_bind; [frame|]. intros s.
  destruct (logo_image s) as [logo|];
    [|apply only_calls_draw_olympics_rings_programmatic].
  apply only_calls_bind; [frame|]. intros [nw nh].
  apply only_calls_bind.
  - apply only_calls_try_except_in; [|intros ?]; apply only_calls_resize.
  - intros resized. frame.
Qed.

(** *** A redraw *)

Lemma bind_unfold {A B} (c : M A) (k : A -> M B) (h : host) (w : world) :
  bind c k h w
  = match c h w with
    | (Ok a, w') => k a h w'
    | (Raise e, w') => (Raise e, w')
    end.
Proof. reflexivity. Qed.

(** A redraw that completes has made, in order: [clear()], the calls that
    build the logo, the [paste] of the logo at (2, 2), the calls that measure
    the fonts, one [draw_text] per line, [update_display()] and the debug
    record; and it has stored the message.  A redraw that raises has begun
    with [clear()] and has left the attributes as they were. *)
Lemma redraw_run (message : string) (lines : list string) (h : host)
  (w : world) :
  match redraw message lines h w with
  | (Ok _, w1) =>
      self w1 = set_last_displayed_message (Some message) (self w)
      /\ exists logo_cs img lay layout_cs,
          trace w1
          = trace w ++ [Clear] ++ logo_cs
            ++ [Paste img 2 2 (String.eqb (mode img) "RGBA")] ++ layout_cs
            ++ text_calls h (self w) lay (dm_width h / 2)
                 (dm_width h - dm_width h / 2) 0 lines
            ++ [UpdateDisplay; Log DEBUG ("Displayed: " ++ message)%string]
  | (Raise _, w1) =>
      self w1 = self w /\ exists cs, trace w1 = trace w ++ Clear :: cs
  end.
Proof.
  unfold redraw.
  rewrite bind_unfold. unfold ask at 1. cbv beta iota zeta.
  rewrite bind_unfold. unfold host_call at 1.
  destruct (fault h (trace w) Clear) as [e|]; cbv beta iota.
  { split; [reflexivity|]. now exists []. }
  rewrite bind_unfold.
  destruct (only_calls_get_logo_image (dm_width h / 2 - 2 * 2)
              (dm_height h - 2 * 2) h (record_call Clear w))
    as [Hs1 [logo_cs Ht1]].
  destruct (_get_logo_image _ _ h (record_call Clear w)) as [[img | e] w1];
    cbn [snd record_call self trace] in Hs1, Ht1; cbv beta iota.
  2:{ split; [exact Hs1|]. exists logo_cs. rewrite Ht1, <- app_assoc. reflexivity. }
  rewrite bind_unfold. unfold host_call at 1.
  set (paste := Paste img 2 2 (String.eqb (mode img) "RGBA")).
  destruct (fault h (trace w1) paste) as [e|]; cbv beta iota.
  { split; [exact Hs1|]. exists (logo_cs ++ [paste]). cbn [record_call trace].
    rewrite Ht1, <- !app_assoc. reflexivity. }
  rewrite bind_unfold.
  destruct (only_calls_calculate_text_layout (dm_width h) (dm_height h) lines
              h (record_call paste w1)) as [Hs2 [layout_cs Ht2]].
  destruct (_calculate_text_layout _ _ lines h (record_call paste w1))
    as [[lay | e] w2]; cbn [snd record_call self trace] in Hs2, Ht2;
    cbv beta iota.
  2:{ split; [congruence|]. exists (logo_cs ++ [paste] ++ layout_cs).
      rewrite Ht2, Ht1, <- !app_assoc. reflexivity. }
  rewrite bind_unfold, draw_lines_as_calls.
  set (texts := text_calls h (self w2) lay (dm_width h / 2)
                  (dm_width h - dm_width h / 2) 0 lines).
  destruct (host_calls_run texts h w2) as [Hw3 Hok3].
  destruct (host_calls texts h w2) as [[[] | e] w3]; cbn [fst snd is_ok] in *;
    cbv beta iota.
  2:{ subst w3. cbn [self trace]. split; [congruence|].
      exists (logo_cs ++ [paste] ++ layout_cs ++ attempted h (trace w2) texts).
      rewrite Ht2, Ht1, <- !app_assoc. reflexivity. }
  rewrite (attempted_all_succeed h (trace w2) texts) in Hw3 by auto.
  rewrite bind_unfold. unfold host_call at 1.
  destruct (fault h (trace w3) UpdateDisplay) as [e|]; cbv beta iota.
  { subst w3. cbn [record_call self trace]. split; [congruence|].
    exists (logo_cs ++ [paste] ++ layout_cs ++ texts ++ [UpdateDisplay]).
    rewrite Ht2, Ht1, <- !app_assoc. reflexivity. }
  rewrite bind_unfold. unfold modify_self at 1. cbv beta iota.
  unfold log. subst w3. cbn [record_call self trace].
  split; [congruence|].
  exists logo_cs, img, lay, layout_cs. fold paste.
  assert (Etexts : texts = text_calls h (self w) lay (dm_width h / 2)
                     (dm_width h - dm_width h / 2) 0 lines)
    by (unfold texts; congruence).
  rewrite <- Etexts, Ht2, Ht1, <- !app_assoc. reflexivity.
Qed.

Lemma attempted_prefix (h : host) (tr : list call) (cs : list call) :
  exists n, attempted h tr cs = firstn n cs.
Proof.
  revert tr. induction cs as [|c cs IH]; intros tr; [now exists 0%nat|].
  cbn [attempted]. destruct (fault h tr c).
  - now exists 1%nat.
  - destruct (IH (tr ++ [c])) as [n Hn]. exists (S n). cbn. now rewrite Hn.
Qed.

Lemma redraw_skipped_spec (force_clear : bool) (s : plugin) :
  redraw_skipped force_clear s = true
  <-> force_clear = false /\ last_displayed_message s = Some (message_of s).
Proof.
  unfold redraw_skipped.
  destruct force_clear; cbn; [split; [discriminate|intros [? _]; discriminate]|].
  destruct (last_displayed_message s) as [m|]; cbn.
  - destruct (String.eqb_spec m (message_of s)).
    + subst. split; auto.
    + split; [discriminate|]. intros [_ [= ->]]. contradiction.
  - split; [discriminate|]. intros [_ ?]. discriminate.
Qed.

Lemma display_body_run (force_clear : bool) (h : host) (w : world) :
  display_body force_clear h w
  = if redraw_skipped force_clear (self w) then (Ok tt, w)
    else redraw (message_of (self w)) (lines_of (self w)) h w.
Proof.
  unfold display_body, redraw_skipped, message_of, lines_of.
  rewrite bind_unfold. unfold get_self at 1. cbv beta iota.
  unfold hasattr_days_until. cbn [negb].
  rewrite bind_unfold. unfold ret at 1. cbv beta iota.
  rewrite bind_unfold. unfold get_self at 1. cbv beta iota.
  destruct (message_and_lines (self w)) as [message lines]. cbn [fst snd].
  destruct (negb force_clear && _); reflexivity.
Qed.

(** C5, as the code has it.  [display] skips the redraw exactly when
    [force_clear] is false and the message equals [last_displayed_message];
    it then returns with the world (attributes and calls issued) unchanged.
    Otherwise it starts a redraw with [clear()].  When no step of the redraw
    raises, the redraw is complete (logo, one [draw_text] per line,
    [update_display()]) and [last_displayed_message] is the new message.
    When a step raises, [display] still returns normally and
    [last_displayed_message] keeps its previous value. *)
Theorem C5_display_redraw_rule (force_clear : bool) (h : host) (w : world) :
  let s := self w in
  (redraw_skipped force_clear s = true
   <-> force_clear = false /\ last_displayed_message s = Some (message_of s))
  /\ if redraw_skipped force_clear s
     then display force_clear h w = (Ok tt, w)
     else
       match redraw (message_of s) (lines_of s) h w with
       | (Ok _, w1) =>
           display force_clear h w = (Ok tt, w1)
           /\ last_displayed_message (self w1) = Some (message_of s)
           /\ exists logo_cs img lay layout_cs,
               trace w1
               = trace w ++ [Clear] ++ logo_cs
                 ++ [Paste img 2 2 (String.eqb (mode img) "RGBA")]
                 ++ layout_cs
                 ++ text_calls h s lay (dm_width h / 2)
                      (dm_width h - dm_width h / 2) 0 (lines_of s)
                 ++ [UpdateDisplay;
                     Log DEBUG ("Displayed: " ++ message_of s)%string]
       | (Raise _, _) =>
           fst (display force_clear h w) = Ok tt
           /\ last_displayed_message (self (snd (display force_clear h w)))
              = last_displayed_message s
           /\ exists cs,
               trace (snd (display force_clear h w)) = trace w ++ Clear :: cs
       end.
Proof.
  intros s. split; [apply redraw_skipped_spec|].
  destruct (display_run force_clear h w) as [Hok Hw].
  rewrite display_body_run in Hw. fold s in Hw.
  destruct (redraw_skipped force_clear s).
  - rewrite (surjective_pairing (display force_clear h w)), Hok, Hw.
    reflexivity.
  - pose proof (redraw_run (message_of s) (lines_of s) h w) as Hr.
    destruct (redraw (message_of s) (lines_of s) h w) as [[[] | e] w1].
    + destruct Hr as [Hs Ht]. split; [|split].
      * rewrite (surjective_pairing (display force_clear h w)), Hok, Hw.
        reflexivity.
      * rewrite Hs. reflexivity.
      * exact Ht.
    + destruct Hr as [Hs [cs Ht]]. split; [exact Hok|]. rewrite Hw.
      cbn [self trace]. split; [now rewrite Hs|].
      eexists. rewrite Ht, <- !app_assoc. cbn [app]. reflexivity.
Qed.

(** C5 as stated fails: on a panel whose bundled logo is 1000x1, the logo
    box of 28x28 gives a new size of 28x0, [resize] raises, and [display],
    although [force_clear] is true, makes no redraw: it logs the error, draws
    the error screen and leaves [last_displayed_message] unset. *)
Lemma C5_counterexample :
  let h := thin_logo_panel (mkdate 2025 11 3) in
  let w := constructed h [] in
  message_of (self w) = "NO OLYMPICS FOUND"%string
  /\ last_displayed_message (self w) = None
  /\ fst (display true h w) = Ok tt
  /\ last_displayed_message (self (snd (display true h w))) = None
  /\ trace (snd (display true h w))
     = trace w
       ++ [Clear;
           Resize (mkimage 1000 1 "RGBA") 28 0;
           Log ERROR "Error displaying countdown: height and width must be > 0";
           Clear;
           DrawText "Countdown Error" 5 15 error_color None None None;
           UpdateDisplay].
Proof. vm_compute. repeat split. Qed.

(** A run of [display] on a panel whose [clear()] raises: the error is
    logged, the error screen fails at its first call, and [display] still
    returns normally. *)
Example display_on_dead_panel :
  let h := dead_panel (mkdate 2025 11 3) in
  let w := constructed h [] in
  fst (display true h w) = Ok tt
  /\ trace (snd (display true h w))
     = trace w
       ++ [Clear;
           Log ERROR "Error displaying countdown: matrix not initialised";
           Clear].
Proof. vm_compute. repeat split. Qed.

(** C6.  [update] and [display] return normally for every host and every
    world, whatever the host's calls raise.  When the [try] block of
    [update] raises, the error is logged.  When the [try] block of [display]
    raises, the error is logged and the attributes stay as the [try] block
    left them; then [clear()] is called; if it returns,
    [draw_text("Countdown Error", x=5, y=15, color=(255, 0, 0))] is called;
    if that returns, [update_display()] is called.  So the fallback message
    is drawn and shown when the display still works, and a failure of one
    of the three calls ends the sequence and is swallowed. *)
Theorem C6_entry_points_never_raise (force_clear : bool) (h : host)
  (w : world) :
  fst (update h w) = Ok tt
  /\ snd (update h w)
     = match update_body h w with
       | (Ok _, w1) => w1
       | (Raise e, w1) =>
           record_call
             (Log ERROR ("Error updating countdown: " ++ exn_msg e)%string) w1
       end
  /\ fst (display force_clear h w) = Ok tt
  /\ match display_body force_clear h w with
     | (Ok _, w1) => snd (display force_clear h w) = w1
     | (Raise e, w1) =>
         let logged := trace w1
           ++ [Log ERROR ("Error displaying countdown: " ++ exn_msg e)%string] in
         let message :=
           DrawText "Countdown Error" 5 15 (VTuple [VInt 255; VInt 0; VInt 0])
             None None None in
         self (snd (display force_clear h w)) = self w1
         /\ trace (snd (display force_clear h w))
            = logged
              ++ match fault h logged Clear with
                 | Some _ => [Clear]
                 | None =>
                     match fault h (logged ++ [Clear]) message with
                     | Some _ => [Clear; message]
                     | None => [Clear; message; UpdateDisplay]
                     end
                 end
     end.
Proof.
  destruct (update_run h w) as [Hu Hu'].
  destruct (display_run force_clear h w) as [Hd Hd'].
  repeat (split; [assumption|]).
  destruct (display_body force_clear h w) as [[[] | e] w1]; [exact Hd'|].
  cbv zeta in *. rewrite Hd'. cbn [self trace]. split; [reflexivity|].
  f_equal. unfold error_screen, error_color. cbn [attempted].
  destruct (fault h _ Clear); [reflexivity|].
  destruct (fault h _ (DrawText _ _ _ _ _ _ _)); [reflexivity|].
  destruct (fault h _ UpdateDisplay); reflexivity.
Qed.

(** The selection always names an event: [_calculate_days_until] never
    returns [None] as [olympics_info]. *)
Lemma calculate_days_until_never_none (h : host) (w w1 : world) (days : Z)
  (active : bool) (info : option event) (ctype : string) :
  _calculate_days_until h w = (Ok (days, active, info, ctype), w1) ->
  exists ev, info = Some ev.
Proof.
  unfold _calculate_days_until. rewrite bind_unfold.
  unfold _get_next_olympics. rewrite bind_unfold. unfold date_today at 1.
  destruct (today h (trace w)) as [d | e]; [|discriminate].
  rewrite bind_unfold. unfold lift. rewrite olympics_events_bundled.
  unfold ret at 1.
  destruct (next_olympics_in_some bundled_events d) as (ev & a & ->);
    [discriminate|].
  rewrite bind_unfold. unfold date_today.
  destruct (today h _) as [d' | e]; [|discriminate].
  unfold ret, days_until_result. destruct a; intros [= <- <- <- <-]; eauto.
Qed.

Lemma string_length_app (a b : string) :
  String.length (a ++ b)%string = (String.length a + String.length b)%nat.
Proof. induction a as [|c a IH]; cbn; [reflexivity|]. now rewrite IH. Qed.

(** After an [update] whose [try] block completes, [current_olympics] names
    an event, so [display] does not take the "NO OLYMPICS FOUND" branch. *)
Lemma update_sets_current_olympics (h : host) (w w1 : world) :
  update_body h w = (Ok tt, w1) ->
  (exists ev, current_olympics (self w1) = Some ev)
  /\ message_of (self w1) <> "NO OLYMPICS FOUND"%string.
Proof.
  unfold update_body. rewrite bind_unfold.
  destruct (_calculate_days_until h w) as [[[[[days active] info] ctype] | e] w0]
    eqn:Ecalc; [|discriminate].
  destruct (calculate_days_until_never_none _ _ _ _ _ _ _ Ecalc) as [ev ->].
  unfold modify_self, get_self, date_today, log, ret.
  repeat (rewrite bind_unfold; cbv beta iota). cbn [self trace record_call].
  destruct (today h (trace w0)) as [d | e]; [|discriminate].
  repeat (rewrite bind_unfold; cbv beta iota). cbn [self trace record_call].
  assert (Hmsg : forall s, current_olympics s = Some ev ->
            message_of s <> "NO OLYMPICS FOUND"%string).
  { intros s Hs. unfold message_of, message_and_lines. rewrite Hs.
    destruct (is_olympics_active s), (days_until s =? 0); cbn [fst];
      try discriminate.
    - intros H. apply (f_equal String.length) in H.
      rewrite string_length_app in H. cbn in H. lia.
    - intros H. apply (f_equal String.length) in H.
      rewrite !string_length_app in H. cbn in H. lia. }
  destruct (negb _).
  - repeat (rewrite bind_unfold; cbv beta iota).
    intros [= <-]. cbn [self].
    split; [eexists; reflexivity|apply Hmsg; reflexivity].
  - intros [= <-]. cbn [self].
    split; [eexists; reflexivity|apply Hmsg; reflexivity].
Qed.

(** C10, at the failing input.  A plugin that has just been constructed
    holds [current_olympics = None]; [display] does not call [update]
    (the attribute [days_until] exists), takes the "NO OLYMPICS FOUND"
    branch and draws its two lines, although on that day the schedule names
    the 2026 Winter Games. *)
Theorem C10_no_olympics_found_before_update :
  let h := panel (mkdate 2025 11 3) in
  let w0 := constructed h [] in
  let w1 := snd (display false h w0) in
  let white := VTuple [VInt 255; VInt 255; VInt 255] in
  current_olympics (self w0) = None
  /\ message_and_lines (self w0)
     = ("NO OLYMPICS FOUND"%string, ["NO OLYMPICS"%string; "FOUND"%string])
  /\ fst (display false h w0) = Ok tt
  /\ last_displayed_message (self w1) = Some "NO OLYMPICS FOUND"%string
  /\ filter is_draw_text (trace w1)
     = [ DrawText "NO OLYMPICS" 48 8 white (Some panel_extra_small) None
           (Some true);
         DrawText "FOUND" 48 16 white (Some panel_extra_small) None
           (Some true) ]
  /\ fst (_get_next_olympics h w0)
     = Ok (Some (mkevent (mkdate 2026 2 6) (mkdate 2026 2 22) "winter"
                   "Milan-Cortina"), false).
Proof. vm_compute. repeat split. Qed.

(** *** validate_config *)

Lemma Qle_bool_inject_Z (a b : Z) :
  Qle_bool (inject_Z a) (inject_Z b) = (a <=? b).
Proof. unfold Qle_bool, inject_Z. cbn. now rewrite !Z.mul_1_r. Qed.

Lemma Qle_bool_zero (q : Q) : Qle_bool q (inject_Z 0) = negb (0 <? Qnum q).
Proof.
  unfold Qle_bool, inject_Z. cbn. rewrite Z.mul_1_r.
  destruct (Z.leb_spec (Qnum q) 0), (Z.ltb_spec 0 (Qnum q)); cbn; lia.
Qed.

(** [int(c)] raises only on a value that is not a finite number:
    [OverflowError] on an infinite float, [ValueError] or [TypeError]
    otherwise. *)
Lemma py_int_raise (h : host) (v : pyval) (e : exn) :
  py_int h v = Raise e ->
  number_value v = None
  /\ caught [ValueError; TypeError] e = negb (is_infinite v).
Proof.
  destruct v; cbn; try discriminate; try (intros [= <-]; now split).
  destruct (int_of_str h s); [discriminate|]. intros [= <-]. now split.
Qed.

Lemma omap_py_int_raise (h : host) (l : list pyval) (e : exn) :
  omap (py_int h) l = Raise e ->
  forallb is_color_component l = false
  /\ (existsb is_infinite l = false ->
      caught [ValueError; TypeError] e = true).
Proof.
  induction l as [|v l IH]; cbn [omap]; [discriminate|].
  destruct (py_int h v) as [z | e'] eqn:Ev; cbn [obind].
  - destruct (omap (py_int h) l) as [zs | e'']; cbn [obind]; [discriminate|].
    intros [= <-]. destruct (IH eq_refl) as [Hf Hc]. split.
    + cbn. rewrite Hf. apply andb_false_r.
    + cbn [existsb]. intros H. apply orb_false_elim in H as [_ H]. auto.
  - intros [= <-]. destruct (py_int_raise h v e' Ev) as [Hn Hc]. split.
    + cbn. unfold is_color_component at 1. now rewrite Hn.
    + cbn [existsb]. intros H. apply orb_false_elim in H as [H _].
      rewrite Hc, H. reflexivity.
Qed.

Lemma omap_py_int_ints (h : host) (zs : list Z) :
  omap (py_int h) (map VInt zs) = Ok zs.
Proof. induction zs as [|z zs IH]; cbn; [reflexivity|]. now rewrite IH. Qed.

Lemma is_color_component_int (z : Z) :
  is_color_component (VInt z) = in_color_range z.
Proof.
  unfold is_color_component, in_color_range. cbn.
  now rewrite !Qle_bool_inject_Z.
Qed.

(** The values [_parse_color] returns: a tuple of ints, or a tuple with an
    element whose conversion raises [ValueError] or [TypeError], or a value
    that is not a tuple. *)
Lemma parse_color_cases (h : host) (raw v : pyval) :
  _parse_color h raw = Ok v ->
  (exists zs, v = VTuple (map VInt zs))
  \/ (exists l e, v = VTuple l /\ omap (py_int h) l = Raise e
                  /\ caught [ValueError; TypeError] e = true)
  \/ (forall l, v <> VTuple l).
Proof.
  unfold _parse_color.
  destruct (py_iter raw) as [l | e] eqn:Ei; cbn [obind].
  - destruct (omap (py_int h) l) as [zs | e] eqn:Em; cbn [obind].
    + intros [= <-]. left. eauto.
    + destruct (caught [ValueError; TypeError] e) eqn:Ec; [|discriminate].
      intros [= <-]. right. left. eauto.
  - destruct raw; cbn in Ei; try discriminate; injection Ei as <-; cbn;
      intros [= <-]; right; right; discriminate.
Qed.

Lemma chars_finite (s : string) : existsb is_infinite (chars s) = false.
Proof.
  unfold chars. induction (list_ascii_of_string s) as [|c l IH];
    [reflexivity|exact IH].
Qed.

Lemma keys_finite (kvs : list (string * pyval)) :
  existsb is_infinite (map (fun kv => VStr (fst kv)) kvs) = false.
Proof. induction kvs as [|kv kvs IH]; [reflexivity|exact IH]. Qed.

(** [_parse_color] returns on every value none of whose items is an
    infinite float: [int(c)] then raises only what the handler catches. *)
Lemma parse_color_returns (h : host) (raw : pyval) :
  no_infinite_item raw = true -> exists v, _parse_color h raw = Ok v.
Proof.
  intros Hfin. unfold _parse_color.
  assert (Hitems : forall l,
             py_iter raw = Ok l -> existsb is_infinite l = false).
  { intros l. destruct raw; cbn; try discriminate; intros [= <-];
      try apply chars_finite; try apply keys_finite;
      cbn [no_infinite_item] in Hfin;
      now destruct (existsb is_infinite _). }
  destruct (py_iter raw) as [l | e] eqn:Ei; cbn [obind].
  - destruct (omap (py_int h) l) as [zs | e] eqn:Em; cbn [obind]; [eauto|].
    destruct (omap_py_int_raise h l e Em) as [_ Hc].
    rewrite Hc by (apply Hitems; reflexivity). eauto.
  - destruct raw; cbn in Ei; try discriminate; injection Ei as <-; cbn; eauto.
Qed.

(** The test of [validate_config] on a [logo_size] that is not [None]: it
    accepts a positive number, and [NaN], for which [<= 0] is false. *)
Lemma logo_size_check (v : pyval) :
  v <> VNone ->
  negb (is_int_or_float v) || le_zero v
  = negb (is_positive_number v || is_NaN v).
Proof.
  destruct v; cbn; try reflexivity; try congruence; intros _.
  - destruct b; reflexivity.
  - destruct (Z.leb_spec z 0), (Z.ltb_spec 0 z); cbn; lia.
  - rewrite orb_false_r.
    change 0%Q with (inject_Z 0). now rewrite Qle_bool_zero.
  - destruct negative; reflexivity.
Qed.

(** X20.  The verdict of [validate_config].  For a plugin whose
    [text_color] was produced by [_parse_color] (as [__init__] does, from
    any configuration value), [validate_config] does not raise: it returns
    [True] exactly when the parent validation passes, [text_color] is a
    3-element tuple of numbers each in [0, 255], and [logo_size] is absent, a
    positive number, or [NaN] (the test is [logo_size <= 0], which is false
    for [NaN]); it returns [False] otherwise. *)
Theorem validate_config_verdict (h : host) (w : world) (raw : pyval) :
  _parse_color h raw = Ok (text_color (self w)) ->
  fst (validate_config h w)
  = Ok (parent_validate_config h
        && is_rgb_tuple (text_color (self w))
        && (logo_size_ok (logo_size (self w))
            || is_NaN (logo_size (self w)))).
Proof.
  intros Hparse. unfold validate_config.
  rewrite bind_unfold. unfold ask at 1. cbv beta iota.
  rewrite bind_unfold. unfold get_self at 1. cbv beta iota.
  destruct (parent_validate_config h); cbn [negb andb]; [|reflexivity].
  assert (Hlogo : forall w',
    fst ((if negb (is_None (logo_size (self w))) then
            if negb (is_int_or_float (logo_size (self w)))
               || le_zero (logo_size (self w))
            then log ERROR "logo_size must be a positive number";; ret false
            else ret true
          else ret true) h w')
    = Ok (logo_size_ok (logo_size (self w)) || is_NaN (logo_size (self w)))).
  { intros w'. destruct (logo_size (self w)) eqn:El; try reflexivity;
      cbn [is_None negb]; rewrite logo_size_check by discriminate;
      unfold logo_size_ok;
      match goal with
      | |- context [is_positive_number ?v || is_NaN ?v] =>
          destruct (is_positive_number v || is_NaN v)
      end; reflexivity. }
  destruct (parse_color_cases h raw _ Hparse)
    as [[zs Hv] | [(l & e & Hv & Hraise & Hc) | Hv]].
  - rewrite Hv. destruct zs as [|z1 [|z2 [|z3 [|z4 zs]]]]; try reflexivity.
    cbn [map is_rgb_tuple].
    rewrite bind_unfold. unfold try_except_in.
    rewrite bind_unfold. unfold lift at 1.
    change [VInt z1; VInt z2; VInt z3] with (map VInt [z1; z2; z3]).
    rewrite omap_py_int_ints. cbv beta iota.
    rewrite !is_color_component_int.
    cbn [forallb]. rewrite andb_true_r, andb_assoc.
    destruct (in_color_range z1 && in_color_range z2 && in_color_range z3);
      cbn [negb]; [|reflexivity].
    unfold ret at 1. cbv beta iota. cbn [negb andb]. apply Hlogo.
  - destruct (omap_py_int_raise h l e Hraise) as [Hf _].
    rewrite Hv. destruct l as [|c1 [|c2 [|c3 [|c4 l]]]]; try reflexivity.
    cbn [is_rgb_tuple]. cbn [forallb] in Hf. rewrite andb_true_r, andb_assoc in Hf.
    rewrite Hf. cbn [andb].
    rewrite bind_unfold. unfold try_except_in.
    rewrite bind_unfold. unfold lift at 1. rewrite Hraise.
    unfold caught in Hc. rewrite Hc. reflexivity.
  - destruct (text_color (self w)) eqn:Et; try reflexivity.
    exfalso. eapply Hv. reflexivity.
Qed.

Lemma validate_config_verdict_witness :
  fst (validate_config (panel (mkdate 2025 11 3))
         (constructed (panel (mkdate 2025 11 3))
            [("text_color", VList [VInt 255; VStr "red"; VInt 0]);
             ("logo_size", VInt 16)]))
  = Ok false.
Proof.
  apply (validate_config_verdict (panel (mkdate 2025 11 3))
           (constructed (panel (mkdate 2025 11 3))
              [("text_color", VList [VInt 255; VStr "red"; VInt 0]);
               ("logo_size", VInt 16)])
           (VList [VInt 255; VStr "red"; VInt 0])).
  reflexivity.
Defined.

(** C7.  The claim fails on the code for a [logo_size] that is [NaN], a
    value [json] reads from the token NaN: with the default colour and a
    passing parent validation, [logo_size] is provided and is not a positive
    number, yet [validate_config] returns [True] and logs nothing, because
    its test [logo_size <= 0] is false for [NaN].  The same test rejects a
    number that is not positive (0, -5, -Infinity) with the error
    "logo_size must be a positive number". *)
Theorem C7_nan_logo_size_accepted :
  let h := panel (mkdate 2025 11 3) in
  let w := constructed h [("logo_size", VNaN)] in
  let rejected (v : pyval) :=
    let w' := constructed h [("logo_size", v)] in
    validate_config h w'
    = (Ok false,
       record_call (Log ERROR "logo_size must be a positive number") w') in
  logo_size (self w) = VNaN
  /\ is_positive_number (logo_size (self w)) = false
  /\ parent_validate_config h = true
  /\ is_rgb_tuple (text_color (self w)) = true
  /\ validate_config h w = (Ok true, w)
  /\ rejected (VInt 0) /\ rejected (VInt (-5)) /\ rejected (VInf true).
Proof. vm_compute. repeat split. Qed.

(** *** Font selection *)

Lemma avg_char_width_run (f : pil_font) (use_small : bool) (h : host)
  (w : world) :
  avg_char_width f use_small h w
  = (Ok (measured h (trace w) f use_small),
     record_call (GetTextWidth test_text f) w).
Proof.
  unfold avg_char_width, try_except, measured.
  rewrite bind_unfold. unfold get_text_width at 1.
  destruct (text_width h (trace w) test_text f) as [tw | e]; cbn [obind];
    [|reflexivity].
  rewrite bind_unfold. unfold lift at 1.
  destruct (int_truediv tw (len test_text)); reflexivity.
Qed.

Lemma try_font_run (lines : list string) (aw : Z) (b : best) (name : string)
  (f : pil_font) (use_small : bool) (h : host) (w : world) :
  try_font lines aw b (name, f, use_small) h w
  = (match fits_width h (trace w) lines aw f use_small with
     | Ok fit =>
         Ok (if fit
             then taken_if_taller (Z.of_nat (List.length lines)) b f use_small
             else b)
     | Raise e => Raise e
     end,
     record_call (GetTextWidth test_text f) w).
Proof.
  unfold try_font, fits_width, taken_if_taller.
  rewrite bind_unfold, avg_char_width_run. cbv beta iota zeta.
  rewrite bind_unfold. unfold lift at 1.
  destruct (max_line_width lines (measured h (trace w) f use_small))
    as [mw | e]; cbn [obind]; [|reflexivity].
  destruct (num_gt mw (NInt aw)); cbn [negb]; [reflexivity|].
  destruct (best_font b); [|reflexivity].
  destruct (best_line_height b <? font_line_height f use_small); reflexivity.
Qed.

Lemma fit_to_height_font (height n : Z) (f : pil_font) (lh total : Z)
  (us : bool) (lay : layout) :
  fit_to_height height n (f, lh, total, us) = Ok lay ->
  font lay = f /\ use_small_font lay = us.
Proof.
  unfold fit_to_height.
  destruct (height - 4 <? total).
  - destruct (int_truediv (height - 4) total) as [sf | e]; cbn [obind];
      [|discriminate].
    destruct (obind (num_mul (NInt lh) (NFloat sf)) num_int) as [sc | e];
      cbn [obind]; [|discriminate].
    intros [= <-]. auto.
  - cbn [obind]. intros [= <-]. auto.
Qed.

(** The loop unrolled over the three fonts. *)
Lemma select_font_run (width : Z) (lines : list string) (h : host)
  (w : world) :
  let aw := width - width / 2 - 4 in
  let n := Z.of_nat (List.length lines) in
  let tr1 := trace w in
  let tr2 := tr1 ++ [GetTextWidth test_text (regular_font h)] in
  let tr3 := tr2 ++ [GetTextWidth test_text (small_font h)] in
  let step (b : best) (fit : bool) (f : pil_font) (us : bool) :=
    if fit then taken_if_taller n b f us else b in
  fst (select_font width lines h w)
  = obind (fits_width h tr1 lines aw (regular_font h) false) (fun b1 =>
    obind (fits_width h tr2 lines aw (small_font h) true) (fun b2 =>
    obind (fits_width h tr3 lines aw (extra_small_font h) true) (fun b3 =>
    let b := step (step (step (mkbest None 8 0 false) b1 (regular_font h) false)
                     b2 (small_font h) true) b3 (extra_small_font h) true in
    match best_font b with
    | Some f => Ok (f, best_line_height b, best_total_height b, best_use_small b)
    | None => Ok (extra_small_font h, 8, n * 8, true)
    end))).
Proof.
  intros aw n tr1 tr2 tr3 step.
  unfold select_font. rewrite bind_unfold. unfold ask at 1. cbv beta iota zeta.
  rewrite bind_unfold. unfold font_options. cbn [try_fonts].
  rewrite bind_unfold, try_font_run. fold aw tr1 n.
  destruct (fits_width h tr1 lines aw (regular_font h) false) as [b1 | e];
    [|reflexivity].
  cbv beta iota. rewrite bind_unfold, try_font_run.
  cbn [record_call trace]. fold tr1 tr2 n.
  destruct (fits_width h tr2 lines aw (small_font h) true) as [b2 | e];
    [|reflexivity].
  cbv beta iota. rewrite bind_unfold, try_font_run.
  cbn [record_call trace]. fold tr1 tr2 tr3 n.
  destruct (fits_width h tr3 lines aw (extra_small_font h) true) as [b3 | e];
    [|reflexivity].
  cbv beta iota. unfold ret at 1. cbv beta iota. cbn [obind].
  fold (step (mkbest None 8 0 false) b1 (regular_font h) false).
  fold (step (step (mkbest None 8 0 false) b1 (regular_font h) false) b2
          (small_font h) true).
  fold (step (step (step (mkbest None 8 0 false) b1 (regular_font h) false) b2
                (small_font h) true) b3 (extra_small_font h) true).
  destruct (best_font _); reflexivity.
Qed.

(** C4, as the code has it.  [_calculate_text_layout] tests the regular, the
    small and the extra-small font in that order against the available
    width only.  When each test returns, the font it selects is, among the
    fonts whose estimated longest line fits the available width, the one
    with the greatest line height (the first of them on a tie), whatever the
    total text height; when no font fits the width it is the extra-small
    font with line height 8.  When a test raises, so does the layout. *)
Theorem C4_font_selection (width height : Z) (lines : list string)
  (h : host) (w : world) :
  let aw := width - width / 2 - 4 in
  let n := Z.of_nat (List.length lines) in
  let tr1 := trace w in
  let tr2 := tr1 ++ [GetTextWidth test_text (regular_font h)] in
  let tr3 := tr2 ++ [GetTextWidth test_text (small_font h)] in
  match fits_width h tr1 lines aw (regular_font h) false,
        fits_width h tr2 lines aw (small_font h) true,
        fits_width h tr3 lines aw (extra_small_font h) true with
  | Ok b1, Ok b2, Ok b3 =>
      exists f lh us,
        fst (select_font width lines h w) = Ok (f, lh, n * lh, us)
        /\ fst (_calculate_text_layout width height lines h w)
           = fit_to_height height n (f, lh, n * lh, us)
        /\ (forall lay,
              fst (_calculate_text_layout width height lines h w) = Ok lay ->
              font lay = f /\ use_small_font lay = us)
        /\ if b1 || b2 || b3
           then exists k,
               nth_error (candidates h b1 b2 b3) k = Some (true, f, us)
               /\ lh = font_line_height f us
               /\ forall j f' us',
                   nth_error (candidates h b1 b2 b3) j = Some (true, f', us') ->
                   font_line_height f' us' <= lh
                   /\ ((j < k)%nat -> font_line_height f' us' < lh)
           else f = extra_small_font h /\ lh = 8 /\ us = true
  | Raise e, _, _ | Ok _, Raise e, _ | Ok _, Ok _, Raise e =>
      fst (select_font width lines h w) = Raise e
      /\ fst (_calculate_text_layout width height lines h w) = Raise e
  end.
Proof.
  intros aw n tr1 tr2 tr3.
  assert (Hlay : fst (_calculate_text_layout width height lines h w)
                 = obind (fst (select_font width lines h w))
                     (fit_to_height height n)).
  { unfold _calculate_text_layout. rewrite bind_unfold.
    destruct (select_font width lines h w) as [[sel | e] w']; reflexivity. }
  rewrite Hlay. clear Hlay.
  rewrite (select_font_run width lines h w). cbv zeta. fold aw n tr1 tr2 tr3.
  destruct (fits_width h tr1 lines aw (regular_font h) false) as [b1 | e];
    [|split; reflexivity].
  destruct (fits_width h tr2 lines aw (small_font h) true) as [b2 | e];
    [|split; reflexivity].
  destruct (fits_width h tr3 lines aw (extra_small_font h) true) as [b3 | e];
    [|split; reflexivity].
  cbn [obind].
  unfold candidates, taken_if_taller.
  set (l1 := font_line_height (regular_font h) false).
  set (l2 := font_line_height (small_font h) true).
  set (l3 := font_line_height (extra_small_font h) true).
  assert (Hfont : forall f lh us,
            forall lay, obind (Ok (f, lh, n * lh, us)) (fit_to_height height n)
                        = Ok lay -> font lay = f /\ use_small_font lay = us).
  { intros f lh us lay. cbn [obind]. apply fit_to_height_font. }
  destruct b1, b2, b3; cbn [best_font best_line_height orb];
    repeat match goal with
           | |- context [?a <? ?b] => destruct (Z.ltb_spec a b)
           end;
    cbn [best_font best_line_height best_total_height best_use_small fst ret];
    (eexists _, _, _;
     split; [reflexivity|]; split; [reflexivity|]; split; [apply Hfont|]);
    try (split; [reflexivity|split; reflexivity]).
  all: cbn [best_line_height] in *.
  all: (exists 0%nat; split; [reflexivity|])
       || (exists 1%nat; split; [reflexivity|])
       || (exists 2%nat; split; [reflexivity|]).
  all: split; [reflexivity|]; intros j f' us' Hj.
  all: destruct j as [|[|[|j]]]; cbn in Hj;
    try discriminate Hj; try (destruct j; discriminate Hj);
    injection Hj as <- <-; fold l1 l2 l3; lia.
Qed.

(** C4 as stated fails: on a 128x32 panel with the four countdown lines,
    every font fits the available width of 60; the regular font (line
    height 10) and the small font (line height 8) are taller than the
    available height of 28 and only the extra-small font (line height 7)
    fits it; yet the layout uses the regular font, with a reduced line
    height. *)
Lemma C4_counterexample :
  let h := wide_panel (mkdate 2025 11 3) in
  let w := constructed h [] in
  let tr2 := trace w ++ [GetTextWidth test_text panel_regular] in
  let tr3 := tr2 ++ [GetTextWidth test_text panel_small] in
  fits_width h (trace w) countdown_lines 60 panel_regular false = Ok true
  /\ fits_width h tr2 countdown_lines 60 panel_small true = Ok true
  /\ fits_width h tr3 countdown_lines 60 panel_extra_small true = Ok true
  /\ fits_height 32 countdown_lines panel_regular false = false
  /\ fits_height 32 countdown_lines panel_small true = false
  /\ fits_height 32 countdown_lines panel_extra_small true = true
  /\ fst (_calculate_text_layout 128 32 countdown_lines h w)
     = Ok (mklayout panel_regular 7 28 2 false).
Proof. vm_compute. repeat split. Qed.

(** *** Binary64 arithmetic: digits, shifts and rounding *)

(** digits *)
Lemma digits2_pos_spec (m : positive) :
  2 ^ (Zpos (digits2_pos m) - 1) <= Zpos m < 2 ^ Zpos (digits2_pos m).
Proof.
  induction m as [m IH | m IH |]; cbn [digits2_pos].
  - rewrite Pos2Z.inj_succ.
    replace (Z.succ (Zpos (digits2_pos m)) - 1) with (Z.succ (Zpos (digits2_pos m) - 1)) by lia.
    rewrite !Z.pow_succ_r by lia. lia.
  - rewrite Pos2Z.inj_succ.
    replace (Z.succ (Zpos (digits2_pos m)) - 1) with (Z.succ (Zpos (digits2_pos m) - 1)) by lia.
    rewrite !Z.pow_succ_r by lia. lia.
  - cbn. lia.
Qed.

Lemma digits_unique (m : positive) (d : Z) :
  2 ^ (d - 1) <= Zpos m < 2 ^ d -> 0 < d -> Zpos (digits2_pos m) = d.
Proof.
  intros H Hd. pose proof (digits2_pos_spec m) as S.
  set (d' := Zpos (digits2_pos m)) in *.
  assert (0 < d') by (unfold d'; lia).
  destruct (Z.lt_trichotomy d' d) as [L | [E | G]]; [|exact E|].
  - assert (2 ^ d' <= 2 ^ (d - 1)) by (apply Z.pow_le_mono_r; lia). lia.
  - assert (2 ^ d <= 2 ^ (d' - 1)) by (apply Z.pow_le_mono_r; lia). lia.
Qed.

(** shr *)
Lemma shr_1_m (mrs : shr_record) :
  0 <= shr_m mrs -> shr_m (shr_1 mrs) = shr_m mrs / 2.
Proof.
  destruct mrs as [m r s]. cbn [shr_m]. intros Hm. unfold shr_1.
  destruct m as [|p|p]; [reflexivity| |lia].
  destruct p as [p|p|]; cbn [shr_m].
  - rewrite Pos2Z.inj_xI. apply Z.div_unique with 1; lia.
  - rewrite Pos2Z.inj_xO. apply Z.div_unique with 0; lia.
  - reflexivity.
Qed.

Lemma pow2_xI (p : positive) : 2 ^ Zpos p~1 = 2 * (2 ^ Zpos p * 2 ^ Zpos p).
Proof.
  rewrite Pos2Z.inj_xI.
  replace (2 * Z.pos p + 1) with (Z.succ (Z.pos p + Z.pos p)) by lia.
  rewrite Z.pow_succ_r, Z.pow_add_r by lia. reflexivity.
Qed.

Lemma pow2_xO (p : positive) : 2 ^ Zpos p~0 = 2 ^ Zpos p * 2 ^ Zpos p.
Proof.
  change (Zpos p~0) with (2 * Zpos p).
  replace (2 * Z.pos p) with (Z.pos p + Z.pos p) at 1 by lia.
  apply Z.pow_add_r; lia.
Qed.

Lemma shr_iter_m (p : positive) (mrs : shr_record) :
  0 <= shr_m mrs ->
  shr_m (iter_pos shr_1 p mrs) = shr_m mrs / 2 ^ Zpos p.
Proof.
  revert mrs. induction p as [p IH | p IH |]; intros mrs Hm; cbn [iter_pos].
  - assert (H1 : 0 <= shr_m (shr_1 mrs))
      by (rewrite shr_1_m by assumption; apply Z.div_pos; lia).
    assert (H2 : 0 <= shr_m (iter_pos shr_1 p (shr_1 mrs)))
      by (rewrite IH by assumption; apply Z.div_pos; lia).
    rewrite IH, IH, shr_1_m by assumption.
    rewrite !Z.div_div by lia. now rewrite pow2_xI.
  - assert (H2 : 0 <= shr_m (iter_pos shr_1 p mrs))
      by (rewrite IH by assumption; apply Z.div_pos; lia).
    rewrite IH, IH by assumption. rewrite Z.div_div by lia.
    now rewrite pow2_xO.
  - rewrite shr_1_m by assumption. reflexivity.
Qed.

Lemma round_nearest_even_bounds (m : Z) (l : SpecFloat.location) :
  m <= round_nearest_even m l <= m + 1.
Proof.
  destruct l as [|[]]; cbn; try lia. destruct (Z.even m); lia.
Qed.

Lemma shr_record_of_loc_m (m : Z) (l : SpecFloat.location) :
  shr_m (shr_record_of_loc m l) = m.
Proof. destruct l as [|[]]; reflexivity. Qed.

(** shifting by [n >= 0] divides the mantissa by [2 ^ n] *)
Lemma shr_m_div (mrs : shr_record) (e n : Z) :
  0 <= shr_m mrs -> 0 <= n ->
  shr_m (fst (shr mrs e n)) = shr_m mrs / 2 ^ n /\ snd (shr mrs e n) = e + n.
Proof.
  intros Hm Hn. unfold shr. destruct n as [|p|p]; [| |lia].
  - cbn [fst snd]. rewrite Z.pow_0_r, Z.div_1_r. split; [reflexivity|lia].
  - cbn [fst snd]. split; [now apply shr_iter_m|reflexivity].
Qed.

Lemma fexp_normal (k : Z) : -1074 <= k - 53 -> fexp prec emax k = k - 53.
Proof. unfold fexp, emin, prec, emax. lia. Qed.

Lemma Zdigits2_pos (m : Z) (d : Z) :
  0 < d -> 2 ^ (d - 1) <= m < 2 ^ d -> Zdigits2 m = d.
Proof.
  intros Hd H. assert (0 < m) by (pose proof (Z.pow_pos_nonneg 2 (d - 1)); lia).
  destruct m as [|p|p]; try lia. cbn. now apply digits_unique.
Qed.

(** Rounding a mantissa of at least 53 bits, away from underflow and
    overflow: the result is a normal float, between the truncated mantissa
    and its successor. *)
Lemma round_aux_normal (mx : positive) (ex d : Z) (lx : SpecFloat.location) :
  d = Zpos (digits2_pos mx) ->
  53 <= d -> -1074 <= d + ex - 53 -> d + ex - 53 + 1 <= 971 ->
  exists (m : positive) (c : Z),
    binary_round_aux prec emax false (Zpos mx) ex lx
    = S754_finite false m (ex + (d - 53) + c)
    /\ 2 ^ 52 <= Zpos m < 2 ^ 53
    /\ 0 <= c <= 1
    /\ Zpos mx / 2 ^ (d - 53) <= Zpos m * 2 ^ c <= Zpos mx / 2 ^ (d - 53) + 1.
Proof.
  intros Ed Hd Hlo Hhi.
  pose proof (digits2_pos_spec mx) as Hdig. rewrite <- Ed in Hdig.
  remember (d - 53) as n eqn:En. assert (Hn : 0 <= n) by lia.
  remember (Zpos mx / 2 ^ n) as m0 eqn:Em0.
  assert (Hm0 : 2 ^ 52 <= m0 < 2 ^ 53).
  { assert (Hp : 0 < 2 ^ n) by (apply Z.pow_pos_nonneg; lia).
    replace (d - 1) with (52 + n) in Hdig by lia.
    replace d with (53 + n) in Hdig by lia.
    rewrite !Z.pow_add_r in Hdig by lia.
    change (2 ^ 52) with 4503599627370496 in *.
    change (2 ^ 53) with 9007199254740992 in *.
    subst m0. split.
    - apply Z.div_le_lower_bound; lia.
    - apply Z.div_lt_upper_bound; lia. }
  unfold binary_round_aux, shr_fexp.
  change (Zdigits2 (Zpos mx)) with (Zpos (digits2_pos mx)). rewrite <- Ed.
  rewrite (fexp_normal (d + ex)) by lia.
  replace (d + ex - 53 - ex) with n by lia.
  destruct (shr_m_div (shr_record_of_loc (Zpos mx) lx) ex n) as [Hm He];
    [rewrite shr_record_of_loc_m; lia|exact Hn|].
  rewrite shr_record_of_loc_m, <- Em0 in Hm.
  destruct (shr (shr_record_of_loc (Zpos mx) lx) ex n) as [mrs1 e1].
  cbn [fst snd] in Hm, He. subst e1.
  pose proof (round_nearest_even_bounds (shr_m mrs1) (loc_of_shr_record mrs1))
    as Hr.
  remember (round_nearest_even (shr_m mrs1) (loc_of_shr_record mrs1)) as m1.
  rewrite Hm in Hr.
  change (2 ^ 52) with 4503599627370496 in *.
  change (2 ^ 53) with 9007199254740992 in *.
  destruct (Z.eq_dec m1 9007199254740992) as [Etop | Ntop].
  - (* carry: one more shift *)
    assert (Hd1 : Zdigits2 m1 = 54) by (rewrite Etop; reflexivity).
    rewrite Hd1, (fexp_normal (54 + (ex + n))) by lia.
    replace (54 + (ex + n) - 53 - (ex + n)) with 1 by lia.
    cbn [shr iter_pos]. rewrite Etop.
    cbn [shr_record_of_loc shr_1 shr_m].
    assert (Hle : (ex + n + 1 <=? emax - prec) = true)
      by (apply Z.leb_le; unfold emax, prec; lia).
    rewrite Hle.
    eexists _, 1. split; [reflexivity|].
    rewrite Etop in Hr. lia.
  - assert (Hd1 : Zdigits2 m1 = 53).
    { apply Zdigits2_pos; [lia|].
      change (2 ^ (53 - 1)) with 4503599627370496.
      change (2 ^ 53) with 9007199254740992. lia. }
    rewrite Hd1, (fexp_normal (53 + (ex + n))) by lia.
    replace (53 + (ex + n) - 53 - (ex + n)) with 0 by lia.
    cbn [shr]. rewrite shr_record_of_loc_m.
    destruct m1 as [|p1|p1]; try lia.
    assert (Hle : (ex + n <=? emax - prec) = true)
      by (apply Z.leb_le; unfold emax, prec; lia).
    rewrite Hle. exists p1, 0. split; [f_equal; lia|].
    rewrite Z.pow_0_r, Z.mul_1_r. lia.
Qed.

(** *** Binary64 arithmetic: values *)

Lemma pow2_pos (e : Z) : (0 < pow2 e)%Q.
Proof. unfold pow2. apply Qpower_0_lt. reflexivity. Qed.

Lemma pow2_add (a b : Z) : (pow2 (a + b) == pow2 a * pow2 b)%Q.
Proof. unfold pow2. apply Qpower_plus. discriminate. Qed.

Lemma pow2_Z (n : Z) : 0 <= n -> (pow2 n == inject_Z (2 ^ n))%Q.
Proof. intros H. unfold pow2. now rewrite Zpower_Qpower. Qed.

Lemma pow2_le (a b : Z) : a <= b -> (pow2 a <= pow2 b)%Q.
Proof.
  intros H. replace b with (a + (b - a)) by lia.
  rewrite pow2_add, (pow2_Z (b - a)) by lia.
  assert (1 <= 2 ^ (b - a)) by (apply Z.lt_pred_le, Z.pow_pos_nonneg; lia).
  assert (H1 : (1 <= inject_Z (2 ^ (b - a)))%Q) by (rewrite <- (Zle_Qle 1); assumption).
  pose proof (pow2_pos a). nra.
Qed.

(** Rounding in the normal range, in terms of values. *)
Lemma round_aux_val (mx : positive) (ex d : Z) (lx : SpecFloat.location) :
  d = Zpos (digits2_pos mx) ->
  53 <= d -> -1074 <= d + ex - 53 -> d + ex - 53 + 1 <= 971 ->
  exists (m : positive) (e : Z),
    binary_round_aux prec emax false (Zpos mx) ex lx = S754_finite false m e
    /\ 2 ^ 52 <= Zpos m < 2 ^ 53
    /\ ex + (d - 53) <= e <= ex + (d - 53) + 1
    /\ (inject_Z (Zpos m) * pow2 e
        <= inject_Z (Zpos mx) * pow2 ex * (1 + pow2 (-52)))%Q.
Proof.
  intros Ed Hd Hlo Hhi.
  destruct (round_aux_normal mx ex d lx Ed Hd Hlo Hhi)
    as (m & c & Hr & Hm & Hc & Hb).
  exists m, (ex + (d - 53) + c). split; [exact Hr|]. split; [exact Hm|].
  split; [lia|].
  remember (d - 53) as n. assert (Hn : 0 <= n) by lia.
  remember (Zpos mx / 2 ^ n) as m0.
  assert (Hp : 0 < 2 ^ n) by (apply Z.pow_pos_nonneg; lia).
  assert (Hm0 : m0 * 2 ^ n <= Zpos mx).
  { subst m0. rewrite Z.mul_comm. apply Z.mul_div_le. exact Hp. }
  assert (Hm0' : 2 ^ 52 <= m0).
  { assert (Zpos m * 2 ^ c < 2 ^ 53 * 2).
    { assert (2 ^ c <= 2) by (destruct (Z.eq_dec c 0) as [-> | ?];
        [cbn; lia|replace c with 1 by lia; cbn; lia]). nia. }
    pose proof (digits2_pos_spec mx) as Hdig. rewrite <- Ed in Hdig.
    replace (d - 1) with (52 + n) in Hdig by lia.
    rewrite Z.pow_add_r in Hdig by lia.
    subst m0. apply Z.div_le_lower_bound; [exact Hp|].
    change (2 ^ 52) with 4503599627370496 in *. lia. }
  rewrite <- Z.add_assoc, (Z.add_comm ex), pow2_add, pow2_add.
  rewrite (pow2_Z c), (pow2_Z n) by lia.
  assert (H1 : (inject_Z (Zpos m) * inject_Z (2 ^ c) <= inject_Z m0 + 1)%Q).
  { rewrite <- inject_Z_mult. change 1%Q with (inject_Z 1).
    rewrite <- inject_Z_plus, <- Zle_Qle. lia. }
  assert (H2 : (inject_Z m0 * inject_Z (2 ^ n) <= inject_Z (Zpos mx))%Q).
  { rewrite <- inject_Z_mult, <- Zle_Qle. exact Hm0. }
  assert (H3 : (inject_Z (2 ^ 52) <= inject_Z m0)%Q)
    by (rewrite <- Zle_Qle; exact Hm0').
  assert (H4 : (1 <= inject_Z (2 ^ n))%Q)
    by (change 1%Q with (inject_Z 1); rewrite <- Zle_Qle; lia).
  pose proof (pow2_pos ex) as Pex.
  change (inject_Z (2 ^ 52)) with 4503599627370496%Q in H3.
  change (pow2 (-52)) with (1 # 4503599627370496)%Q.
  set (M := inject_Z (Zpos m)) in *. set (C := inject_Z (2 ^ c)) in *.
  set (M0 := inject_Z m0) in *. set (N := inject_Z (2 ^ n)) in *.
  set (X := inject_Z (Zpos mx)) in *. set (E := pow2 ex) in *.
  assert (H5 : (M * C <= M0 * (1 + (1 # 4503599627370496)))%Q) by nra.
  assert (H6 : (M0 * N * E <= X * E)%Q) by nra.
  assert (H7 : (M * C * (N * E) <= M0 * (1 + (1 # 4503599627370496)) * (N * E))%Q).
  { apply Qmult_le_compat_r; [exact H5|]. nra. }
  nra.
Qed.

Lemma digits_small (p : positive) (k : Z) :
  0 <= k -> Zpos p < 2 ^ k -> 1 <= Zpos (digits2_pos p) <= k.
Proof.
  intros Hk Hp. pose proof (digits2_pos_spec p) as [Hlo _].
  split; [lia|].
  destruct (Z_le_gt_dec (Zpos (digits2_pos p)) k) as [|G]; [assumption|].
  assert (2 ^ k <= 2 ^ (Zpos (digits2_pos p) - 1))
    by (apply Z.pow_le_mono_r; lia).
  lia.
Qed.

Lemma iter_xO (m p : positive) : Zpos (Pos.iter xO m p) = Zpos m * 2 ^ Zpos p.
Proof.
  induction p as [|p IH] using Pos.peano_ind.
  - cbn. lia.
  - rewrite Pos.iter_succ, Pos2Z.inj_xO, IH, Pos2Z.inj_succ, Z.pow_succ_r by lia.
    ring.
Qed.

(** [float(x)] for a positive int below [2^50]. *)
Lemma float_of_int_val (x : Z) :
  0 < x < 2 ^ 50 ->
  exists f, float_of_int x = Ok f
    /\ normal_in (-52) (-2) f
    /\ (fval f <= inject_Z x * (1 + pow2 (-52)))%Q.
Proof.
  intros Hx. destruct x as [|p|p]; try lia.
  destruct (digits_small p 50) as [Hd1 Hd2]; [lia|lia|].
  remember (Zpos (digits2_pos p)) as d eqn:Ed.
  unfold float_of_int, binary_normalize, binary_round, shl_align.
  rewrite <- Ed, Z.add_0_r, (fexp_normal d) by lia.
  remember (d - 53 - 0) as k eqn:Ek. destruct k as [|k|k]; try lia.
  remember (Pos.iter xO p k) as mz eqn:Emz.
  assert (Hmz : Zpos mz = Zpos p * 2 ^ (53 - d)).
  { subst mz. rewrite iter_xO. f_equal. f_equal. lia. }
  assert (Hdz : 53 = Zpos (digits2_pos mz)).
  { symmetry. apply digits_unique; [|lia]. rewrite Hmz.
    pose proof (digits2_pos_spec p) as Hdig. rewrite <- Ed in Hdig.
    assert (Hp : 0 < 2 ^ (53 - d)) by (apply Z.pow_pos_nonneg; lia).
    assert (E1 : 2 ^ (53 - 1) = 2 ^ (d - 1) * 2 ^ (53 - d)).
    { rewrite <- Z.pow_add_r by lia. f_equal. lia. }
    assert (E2 : 2 ^ 53 = 2 ^ d * 2 ^ (53 - d)).
    { rewrite <- Z.pow_add_r by lia. f_equal. lia. }
    rewrite E1, E2. nia. }
  destruct (round_aux_val mz (d - 53) 53 loc_Exact Hdz) as (m & e & Hr & Hm & He & Hv);
    [lia|lia|lia|].
  rewrite Hr. exists (S754_finite false m e). split; [reflexivity|].
  split; [exists m, e; repeat split; try lia; reflexivity|].
  cbn [fval cond_Zopp]. eapply Qle_trans; [exact Hv|].
  apply Qmult_le_compat_r.
  - rewrite Hmz, inject_Z_mult, <- (pow2_Z (53 - d)) by lia.
    rewrite <- Qmult_assoc, <- pow2_add.
    replace (53 - d + (d - 53)) with 0 by lia.
    change (pow2 0) with 1%Q. rewrite Qmult_1_r. apply Qle_refl.
  - pose proof (pow2_pos (-52)). lra.
Qed.

(** [a / b] for positive ints below [2^50]. *)
Lemma int_truediv_val (a b : Z) :
  0 < a < 2 ^ 50 -> 0 < b < 2 ^ 50 ->
  exists f, int_truediv a b = Ok f
    /\ normal_in (-102) (-2) f
    /\ (fval f * inject_Z b <= inject_Z a * (1 + pow2 (-52)))%Q.
Proof.
  intros Ha Hb. destruct a as [|pa|pa]; try lia. destruct b as [|pb|pb]; try lia.
  destruct (digits_small pa 50) as [Hda1 Hda2]; [lia|lia|].
  destruct (digits_small pb 50) as [Hdb1 Hdb2]; [lia|lia|].
  pose proof (digits2_pos_spec pa) as Sa. pose proof (digits2_pos_spec pb) as Sb.
  remember (Zpos (digits2_pos pa)) as d1 eqn:Ed1.
  remember (Zpos (digits2_pos pb)) as d2 eqn:Ed2.
  unfold int_truediv. change (Zpos pb =? 0) with false. cbv iota.
  unfold exact_of_int, SFdiv, SFdiv_core_binary.
  change (Zdigits2 (Zpos pa)) with (Zpos (digits2_pos pa)).
  change (Zdigits2 (Zpos pb)) with (Zpos (digits2_pos pb)).
  rewrite <- Ed1, <- Ed2, !Z.add_0_r, (fexp_normal (d1 - d2)) by lia.
  change (0 - 0) with 0.
  rewrite Z.min_l by lia.
  remember (53 + d2 - d1) as s eqn:Es.
  replace (0 - (d1 - d2 - 53)) with s by lia.
  assert (Hs : 0 < s) by lia.
  destruct s as [|ps|ps]; try lia.
  rewrite Z.shiftl_mul_pow2 by lia.
  remember (Zpos ps) as s eqn:Eps.
  pose proof (Z_div_mod (Zpos pa * 2 ^ s) (Zpos pb) eq_refl) as Hdiv.
  destruct (Z.div_eucl (Zpos pa * 2 ^ s) (Zpos pb)) as [q r].
  destruct Hdiv as [Hq Hr].
  assert (Hp : 0 < 2 ^ s) by (apply Z.pow_pos_nonneg; lia).
  (* the quotient has 53 or 54 bits *)
  assert (E1 : 2 ^ (d1 - 1) * 2 ^ s = 2 ^ 52 * 2 ^ d2).
  { rewrite <- !Z.pow_add_r by lia. f_equal. lia. }
  assert (E2 : 2 ^ d1 * 2 ^ s = 2 ^ 54 * 2 ^ (d2 - 1)).
  { rewrite <- !Z.pow_add_r by lia. f_equal. lia. }
  assert (Hq52 : 2 ^ 52 <= q).
  { assert (2 ^ 52 * 2 ^ d2 <= Zpos pa * 2 ^ s) by nia.
    change (2 ^ 52) with 4503599627370496 in *. nia. }
  assert (Hq54 : q < 2 ^ 54).
  { assert (Zpos pa * 2 ^ s < 2 ^ 54 * 2 ^ (d2 - 1)) by nia.
    change (2 ^ 54) with 18014398509481984 in *. nia. }
  destruct q as [|pq|pq]; try lia.
  assert (Hdq : 53 <= Zpos (digits2_pos pq) <= 54).
  { pose proof (digits2_pos_spec pq) as Sq.
    remember (Zpos (digits2_pos pq)) as dq. split.
    - destruct (Z_le_gt_dec 53 dq); [assumption|].
      assert (2 ^ dq <= 2 ^ 52) by (apply Z.pow_le_mono_r; lia). lia.
    - destruct (Z_le_gt_dec dq 54); [assumption|].
      assert (2 ^ 54 <= 2 ^ (dq - 1)) by (apply Z.pow_le_mono_r; lia). lia. }
  remember (Zpos (digits2_pos pq)) as dq eqn:Edq.
  destruct (round_aux_val pq (d1 - d2 - 53) dq (new_location (Zpos pb) r) Edq)
    as (m & e & Hres & Hm & He & Hv); [lia|lia|lia|].
  cbn [xorb]. rewrite Hres. exists (S754_finite false m e).
  split; [reflexivity|]. split; [exists m, e; repeat split; try lia; reflexivity|].
  cbn [fval cond_Zopp].
  (* q * 2^(-s) * b <= a *)
  assert (Hqa : (inject_Z (Zpos pq) * pow2 (d1 - d2 - 53) * inject_Z (Zpos pb)
                 <= inject_Z (Zpos pa))%Q).
  { assert (Hz : Zpos pq * Zpos pb <= Zpos pa * 2 ^ s) by nia.
    rewrite Zle_Qle, !inject_Z_mult, <- (pow2_Z s) in Hz by lia.
    pose proof (pow2_pos (d1 - d2 - 53)) as P1.
    assert (P2 : (pow2 s * pow2 (d1 - d2 - 53) == 1)%Q).
    { rewrite <- pow2_add. replace (s + (d1 - d2 - 53)) with 0 by lia. reflexivity. }
    set (Q1 := inject_Z (Zpos pq)) in *. set (B := inject_Z (Zpos pb)) in *.
    set (A := inject_Z (Zpos pa)) in *. set (S := pow2 s) in *.
    set (T := pow2 (d1 - d2 - 53)) in *.
    assert (H1 : (Q1 * B * T <= A * S * T)%Q)
      by (apply Qmult_le_compat_r; [exact Hz|lra]).
    assert (H2 : (A * S * T == A)%Q) by (rewrite <- Qmult_assoc, P2; ring).
    rewrite H2 in H1. lra. }
  pose proof (pow2_pos (-52)) as Pu.
  assert (Hb0 : (0 <= inject_Z (Zpos pb))%Q) by (rewrite <- (Zle_Qle 0); lia).
  set (V := (inject_Z (Zpos m) * pow2 e)%Q) in *.
  set (Q1 := (inject_Z (Zpos pq) * pow2 (d1 - d2 - 53))%Q) in *.
  set (B := inject_Z (Zpos pb)) in *. set (U := pow2 (-52)) in *.
  assert (H1 : (V * B <= Q1 * (1 + U) * B)%Q)
    by (apply Qmult_le_compat_r; assumption).
  nra.
Qed.

(** On positive normal floats, [<] on floats is [<] on values. *)
Lemma fltb_val (lo hi lo' hi' : Z) (f g : float) :
  normal_in lo hi f -> normal_in lo' hi' g ->
  if fltb f g then (fval f <= fval g)%Q else (fval g <= fval f)%Q.
Proof.
  intros (m1 & e1 & -> & Hm1 & _) (m2 & e2 & -> & Hm2 & _).
  unfold fltb, SFltb, SFcompare. cbn [fval cond_Zopp].
  assert (Hstep : forall ma ea mb eb,
            Zpos ma < 2 ^ 53 -> 2 ^ 52 <= Zpos mb -> ea < eb ->
            (inject_Z (Zpos ma) * pow2 ea <= inject_Z (Zpos mb) * pow2 eb)%Q).
  { intros ma ea mb eb Ha Hb Hlt.
    pose proof (pow2_le (ea + 1) eb ltac:(lia)) as Hp.
    rewrite pow2_add in Hp. change (pow2 1) with 2%Q in Hp.
    pose proof (pow2_pos ea) as Pa.
    rewrite Zlt_Qlt in Ha. rewrite Zle_Qle in Hb.
    change (inject_Z (2 ^ 53)) with 9007199254740992%Q in Ha.
    change (inject_Z (2 ^ 52)) with 4503599627370496%Q in Hb.
    set (A := inject_Z (Zpos ma)) in *. set (B := inject_Z (Zpos mb)) in *.
    set (Ea := pow2 ea) in *. set (Eb := pow2 eb) in *.
    assert (H1 : (A * Ea <= 9007199254740992 * Ea)%Q) by nra.
    assert (H2 : (4503599627370496 * Eb <= B * Eb)%Q) by nra.
    nra. }
  destruct (Z.compare_spec e1 e2) as [E | L | G].
  - subst e2. rewrite Pos.compare_cont_spec. cbn [Pos.switch_Eq].
    pose proof (pow2_pos e1) as P.
    destruct (Pos.compare_spec m1 m2) as [E | L | G].
    + subst. apply Qle_refl.
    + apply Qmult_le_compat_r; [|lra]. rewrite <- Zle_Qle. lia.
    + apply Qmult_le_compat_r; [|lra]. rewrite <- Zle_Qle. lia.
  - apply Hstep; lia.
  - apply Hstep; lia.
Qed.

(** The product of two positive normal floats, away from underflow and
    overflow. *)
Lemma fmul_val (f g : float) :
  normal_in (-500) 400 f -> normal_in (-500) 400 g ->
  exists (m : positive) (e : Z),
    fmul f g = S754_finite false m e
    /\ (fval (fmul f g) <= fval f * fval g * (1 + pow2 (-52)))%Q.
Proof.
  intros (m1 & e1 & -> & Hm1 & He1) (m2 & e2 & -> & Hm2 & He2).
  unfold fmul, SFmul. cbn [xorb fval cond_Zopp].
  assert (Hprod : 2 ^ 104 <= Zpos (m1 * m2) < 2 ^ 106).
  { rewrite Pos2Z.inj_mul.
    change (2 ^ 104) with (2 ^ 52 * 2 ^ 52). change (2 ^ 106) with (2 ^ 53 * 2 ^ 53).
    change (2 ^ 52) with 4503599627370496 in *.
    change (2 ^ 53) with 9007199254740992 in *. nia. }
  assert (Hd : 105 <= Zpos (digits2_pos (m1 * m2)) <= 106).
  { pose proof (digits2_pos_spec (m1 * m2)) as S.
    remember (Zpos (digits2_pos (m1 * m2))) as d. split.
    - destruct (Z_le_gt_dec 105 d); [assumption|].
      assert (2 ^ d <= 2 ^ 104) by (apply Z.pow_le_mono_r; lia). lia.
    - destruct (Z_le_gt_dec d 106); [assumption|].
      assert (2 ^ 106 <= 2 ^ (d - 1)) by (apply Z.pow_le_mono_r; lia). lia. }
  remember (Zpos (digits2_pos (m1 * m2))) as d eqn:Ed.
  destruct (round_aux_val (m1 * m2) (e1 + e2) d loc_Exact Ed)
    as (m & e & Hres & Hm & He & Hv); [lia|lia|lia|].
  rewrite Hres. exists m, e. split; [reflexivity|].
  cbn [fval cond_Zopp]. eapply Qle_trans; [exact Hv|].
  apply Qmult_le_compat_r; [|pose proof (pow2_pos (-52)); lra].
  rewrite Pos2Z.inj_mul, inject_Z_mult, pow2_add.
  apply Qle_lteq. right. ring.
Qed.

(** [int(f)] of a positive float is the floor of its value. *)
Lemma int_of_float_le (m : positive) (e : Z) (n : Z) :
  (fval (S754_finite false m e) < inject_Z (n + 1))%Q ->
  exists z, int_of_float (S754_finite false m e) = Ok z /\ 0 <= z <= n.
Proof.
  cbn [fval cond_Zopp int_of_float]. intros Hv.
  destruct (Z.leb_spec 0 e) as [He | He].
  - exists (Zpos m * 2 ^ e). split; [reflexivity|].
    rewrite (pow2_Z e), <- inject_Z_mult, <- Zlt_Qlt in Hv by lia.
    assert (0 < 2 ^ e) by (apply Z.pow_pos_nonneg; lia). nia.
  - exists (Zpos m / 2 ^ (- e)). split; [reflexivity|].
    assert (Hp : 0 < 2 ^ (- e)) by (apply Z.pow_pos_nonneg; lia).
    split; [apply Z.div_pos; lia|].
    apply Z.lt_succ_r, Z.div_lt_upper_bound; [exact Hp|].
    assert (Hq : (inject_Z (Zpos m) < inject_Z (n + 1) * pow2 (- e))%Q).
    { pose proof (pow2_pos (- e)) as P.
      assert (P2 : (pow2 e * pow2 (- e) == 1)%Q).
      { rewrite <- pow2_add. replace (e + - e) with 0 by lia. reflexivity. }
      set (M := inject_Z (Zpos m)) in *. set (E := pow2 e) in *.
      set (F := pow2 (- e)) in *. set (N := inject_Z (n + 1)) in *.
      assert (H1 : (M * E * F < N * F)%Q) by (apply Qmult_lt_compat_r; assumption).
      assert (H2 : (M * E * F == M)%Q) by (rewrite <- Qmult_assoc, P2; ring).
      rewrite H2 in H1. exact H1. }
    rewrite (pow2_Z (- e)), <- inject_Z_mult, <- Zlt_Qlt in Hq by lia.
    unfold Z.succ. lia.
Qed.

Lemma normal_in_weaken (lo hi lo' hi' : Z) (f : float) :
  lo' <= lo -> hi <= hi' -> normal_in lo hi f -> normal_in lo' hi' f.
Proof.
  intros H1 H2 (m & e & -> & Hm & He). exists m, e. repeat split; lia.
Qed.

Lemma normal_in_pos (lo hi : Z) (f : float) :
  normal_in lo hi f -> (0 < fval f)%Q.
Proof.
  intros (m & e & -> & Hm & He). cbn [fval cond_Zopp].
  pose proof (pow2_pos e) as P.
  assert (H : (0 < inject_Z (Zpos m))%Q) by (rewrite <- (Zlt_Qlt 0); lia).
  nra.
Qed.

(** One side of the scaled size: [int(side * scale)] stays within the bound
    whose ratio to [side] dominates [scale]. *)
Lemma scaled_side_fits (bound side : Z) (s r : float) :
  0 < bound < 2 ^ 50 -> 0 < side < 2 ^ 50 ->
  normal_in (-102) (-2) s ->
  (fval s <= fval r)%Q ->
  (fval r * inject_Z side <= inject_Z bound * (1 + pow2 (-52)))%Q ->
  exists z, obind (num_mul (NInt side) (NFloat s)) num_int = Ok z
            /\ 0 <= z <= bound.
Proof.
  intros Hb Hs Ns Hsr Hr.
  destruct (float_of_int_val side Hs) as (fx & Efx & Nfx & Vfx).
  cbn [num_mul]. rewrite Efx. cbn [obind num_int].
  destruct (fmul_val fx s) as (m & e & Em & Vm).
  { eapply normal_in_weaken; [| |exact Nfx]; lia. }
  { eapply normal_in_weaken; [| |exact Ns]; lia. }
  rewrite Em in *. apply int_of_float_le.
  pose proof (normal_in_pos _ _ _ Ns) as Ps.
  pose proof (normal_in_pos _ _ _ Nfx) as Pfx.
  assert (Hside : (0 < inject_Z side)%Q) by (rewrite <- (Zlt_Qlt 0); lia).
  assert (Hbound : (inject_Z bound < 1125899906842624)%Q).
  { change 1125899906842624%Q with (inject_Z (2 ^ 50)). rewrite <- Zlt_Qlt. lia. }
  assert (Hbound0 : (0 < inject_Z bound)%Q) by (rewrite <- (Zlt_Qlt 0); lia).
  rewrite inject_Z_plus. change (inject_Z 1) with 1%Q.
  change (pow2 (-52)) with (1 # 4503599627370496)%Q in *.
  set (V := fval (S754_finite false m e)) in *.
  set (FX := fval fx) in *. set (S := fval s) in *. set (R := fval r) in *.
  set (X := inject_Z side) in *. set (B := inject_Z bound) in *.
  set (u := (1 # 4503599627370496)%Q) in *.
  assert (H1 : (S * X <= B * (1 + u))%Q) by nra.
  assert (H2 : (FX * S <= X * (1 + u) * S)%Q)
    by (apply Qmult_le_compat_r; [exact Vfx|lra]).
  assert (H3 : (X * (1 + u) * S == S * X * (1 + u))%Q) by ring.
  assert (H4 : (S * X * (1 + u) <= B * (1 + u) * (1 + u))%Q)
    by (apply Qmult_le_compat_r; [exact H1|unfold u; lra]).
  assert (H5 : (FX * S <= B * (1 + u) * (1 + u))%Q) by lra.
  assert (H6 : (FX * S * (1 + u) <= B * (1 + u) * (1 + u) * (1 + u))%Q)
    by (apply Qmult_le_compat_r; [exact H5|unfold u; lra]).
  assert (H7 : (B * (1 + u) * (1 + u) * (1 + u) < B + 1)%Q) by (unfold u; nra).
  lra.
Qed.

(** The scaled size is defined and fits, for sides below [2^50]. *)
Lemma scaled_size_fits (width height img_w img_h : Z) :
  0 < width < 2 ^ 50 -> 0 < height < 2 ^ 50 ->
  0 < img_w < 2 ^ 50 -> 0 < img_h < 2 ^ 50 ->
  exists width_ratio height_ratio new_width new_height,
    int_truediv width img_w = Ok width_ratio
    /\ int_truediv height img_h = Ok height_ratio
    /\ (let scale_ratio := py_min2 (NFloat width_ratio) (NFloat height_ratio) in
        obind (num_mul (NInt img_w) scale_ratio) num_int = Ok new_width
        /\ obind (num_mul (NInt img_h) scale_ratio) num_int = Ok new_height)
    /\ scaled_size width height img_w img_h = Ok (new_width, new_height)
    /\ 0 <= new_width <= width /\ 0 <= new_height <= height.
Proof.
  intros Hw Hh Hiw Hih.
  destruct (int_truediv_val width img_w Hw Hiw) as (rw & Erw & Nrw & Vrw).
  destruct (int_truediv_val height img_h Hh Hih) as (rh & Erh & Nrh & Vrh).
  pose proof (fltb_val _ _ _ _ rh rw Nrh Nrw) as Hcmp.
  unfold scaled_size. rewrite Erw, Erh. cbn [obind].
  assert (Emin : py_min2 (NFloat rw) (NFloat rh)
                 = NFloat (if fltb rh rw then rh else rw)).
  { unfold py_min2, num_lt, num_gt. destruct (fltb rh rw); reflexivity. }
  exists rw, rh. rewrite Emin. cbv zeta.
  destruct (fltb rh rw).
  - destruct (scaled_side_fits width img_w rh rw Hw Hiw Nrh Hcmp Vrw)
      as (nw & Enw & Bnw).
    destruct (scaled_side_fits height img_h rh rh Hh Hih Nrh (Qle_refl _) Vrh)
      as (nh & Enh & Bnh).
    exists nw, nh. rewrite Enw, Enh. cbn [obind].
    repeat split; try reflexivity; lia.
  - destruct (scaled_side_fits width img_w rw rw Hw Hiw Nrw (Qle_refl _) Vrw)
      as (nw & Enw & Bnw).
    destruct (scaled_side_fits height img_h rw rh Hh Hih Nrw Hcmp Vrh)
      as (nh & Enh & Bnh).
    exists nw, nh. rewrite Enw, Enh. cbn [obind].
    repeat split; try reflexivity; lia.
Qed.

(** *** The bundled logo *)

(** [_get_logo_image] for a bundled logo, once the new size is known: one
    [resize], tried again when it raises [AttributeError]; the result is the
    logo at the new size, in its own mode. *)
Lemma get_logo_image_run (width height : Z) (logo : image) (nw nh : Z)
  (h : host) (w : world) :
  logo_image (self w) = Some logo ->
  scaled_size width height (img_width logo) (img_height logo) = Ok (nw, nh) ->
  _get_logo_image width height h w
  = let r := Resize logo nw nh in
    let img := mkimage nw nh (mode logo) in
    match fault h (trace w) r with
    | None => (Ok img, record_call r w)
    | Some e =>
        if caught [AttributeError] e then
          match fault h (trace w ++ [r]) r with
          | None => (Ok img, record_call r (record_call r w))
          | Some e' => (Raise e', record_call r (record_call r w))
          end
        else (Raise e, record_call r w)
    end.
Proof.
  intros Hlogo Hsize. unfold _get_logo_image.
  rewrite bind_unfold. unfold get_self at 1. cbv beta iota. rewrite Hlogo.
  rewrite bind_unfold. unfold lift at 1. rewrite Hsize. cbv beta iota zeta.
  rewrite bind_unfold. unfold try_except_in, resize, caught.
  rewrite !bind_unfold. unfold host_call, ret. cbn [record_call trace self].
  assert (Hmode : negb (String.eqb (mode (mkimage nw nh (mode logo))) "RGBA")
                  && String.eqb (mode logo) "RGBA" = false).
  { cbn [mode]. destruct (String.eqb (mode logo) "RGBA"); reflexivity. }
  destruct (fault h (trace w) (Resize logo nw nh)) as [e|].
  - destruct (existsb _ [AttributeError]); [|reflexivity].
    rewrite bind_unfold. cbn [record_call trace self].
    destruct (fault h _ (Resize logo nw nh)); [reflexivity|].
    rewrite Hmode. reflexivity.
  - rewrite Hmode. reflexivity.
Qed.

Lemma get_logo_image_resized (width height : Z) (logo : image)
  (nw nh : Z) (h : host) (w : world) :
  logo_image (self w) = Some logo ->
  scaled_size width height (img_width logo) (img_height logo) = Ok (nw, nh) ->
  (forall img w', _get_logo_image width height h w = (Ok img, w') ->
                  img = mkimage nw nh (mode logo))
  /\ (fault h (trace w) (Resize logo nw nh) = None ->
      fst (_get_logo_image width height h w) = Ok (mkimage nw nh (mode logo))).
Proof.
  intros Hlogo Hsize.
  rewrite (get_logo_image_run width height logo nw nh h w Hlogo Hsize).
  cbv zeta. destruct (fault h (trace w) (Resize logo nw nh)) as [e|].
  - split; [|discriminate].
    destruct (caught [AttributeError] e); [|discriminate].
    destruct (fault h _ (Resize logo nw nh)); [discriminate|].
    intros img w' [= <- _]. reflexivity.
  - split; [intros img w' [= <- _]|]; reflexivity.
Qed.

(** C8.  For maximum sides and image sides that are positive and below 2^50,
    with a bundled logo loaded: both ratios [width / img_width] and
    [height / img_height] are defined; the new sides are the image's sides
    each multiplied by the one ratio [min(width_ratio, height_ratio)] and
    truncated; they do not exceed the given maximum width and height; and
    the image [_get_logo_image] returns has exactly these sides (it does
    return when [resize] does not raise). *)
Theorem C8_logo_fits (width height : Z) (logo : image) (h : host)
  (w : world) :
  0 < width < 2 ^ 50 -> 0 < height < 2 ^ 50 ->
  0 < img_width logo < 2 ^ 50 -> 0 < img_height logo < 2 ^ 50 ->
  logo_image (self w) = Some logo ->
  exists width_ratio height_ratio new_width new_height,
    int_truediv width (img_width logo) = Ok width_ratio
    /\ int_truediv height (img_height logo) = Ok height_ratio
    /\ (let scale_ratio := py_min2 (NFloat width_ratio) (NFloat height_ratio) in
        obind (num_mul (NInt (img_width logo)) scale_ratio) num_int
        = Ok new_width
        /\ obind (num_mul (NInt (img_height logo)) scale_ratio) num_int
           = Ok new_height)
    /\ 0 <= new_width <= width /\ 0 <= new_height <= height
    /\ (forall img w',
          _get_logo_image width height h w = (Ok img, w') ->
          img_width img = new_width /\ img_height img = new_height)
    /\ (fault h (trace w) (Resize logo new_width new_height) = None ->
        fst (_get_logo_image width height h w)
        = Ok (mkimage new_width new_height (mode logo))).
Proof.
  intros Hw Hh Hiw Hih Hlogo.
  destruct (scaled_size_fits width height (img_width logo) (img_height logo)
              Hw Hh Hiw Hih)
    as (rw & rh & nw & nh & Erw & Erh & Hscale & Hsize & Bw & Bh).
  destruct (get_logo_image_resized width height logo nw nh h w Hlogo Hsize)
    as [Himg Hret].
  exists rw, rh, nw, nh. repeat (split; [assumption|]).
  split; [|exact Hret].
  intros img w' Hrun. rewrite (Himg img w' Hrun). split; reflexivity.
Qed.

Lemma C8_logo_fits_witness :
  exists width_ratio height_ratio new_width new_height,
    int_truediv 28 300 = Ok width_ratio
    /\ int_truediv 28 200 = Ok height_ratio
    /\ (let scale_ratio := py_min2 (NFloat width_ratio) (NFloat height_ratio) in
        obind (num_mul (NInt 300) scale_ratio) num_int = Ok new_width
        /\ obind (num_mul (NInt 200) scale_ratio) num_int = Ok new_height)
    /\ 0 <= new_width <= 28 /\ 0 <= new_height <= 28
    /\ (forall img w',
          _get_logo_image 28 28 (logo_panel (mkdate 2025 11 3))
            (constructed (logo_panel (mkdate 2025 11 3)) [])
          = (Ok img, w') ->
          img_width img = new_width /\ img_height img = new_height)
    /\ (fault (logo_panel (mkdate 2025 11 3))
          (trace (constructed (logo_panel (mkdate 2025 11 3)) []))
          (Resize (mkimage 300 200 "RGBA") new_width new_height) = None ->
        fst (_get_logo_image 28 28 (logo_panel (mkdate 2025 11 3))
               (constructed (logo_panel (mkdate 2025 11 3)) []))
        = Ok (mkimage new_width new_height "RGBA")).
Proof.
  apply (C8_logo_fits 28 28 (mkimage 300 200 "RGBA")
           (logo_panel (mkdate 2025 11 3))
           (constructed (logo_panel (mkdate 2025 11 3)) []));
    cbn [img_width img_height]; first [split; reflexivity | reflexivity].
Defined.

(** *** The width tests return

    For a non-empty list of lines, each shorter than 2^50 characters, the
    width test of the font loop returns for every font and every host: the
    selection then falls in the case where all three tests return. *)

Lemma float_of_int_returns (x : Z) :
  0 <= x < 2 ^ 50 -> exists f, float_of_int x = Ok f.
Proof.
  intros Hx. destruct (Z.eq_dec x 0) as [-> | Hnz].
  - eexists. reflexivity.
  - destruct (float_of_int_val x) as (f & Hf & _); [lia|]. eauto.
Qed.

Lemma line_widths_return (avg : num) (lines : list string) :
  (forall line, In line lines -> len line < 2 ^ 50) ->
  exists ws, omap (fun line => num_mul (NInt (len line)) avg) lines = Ok ws
             /\ List.length ws = List.length lines.
Proof.
  induction lines as [|line lines IH]; intros Hlen.
  - exists []. split; reflexivity.
  - destruct IH as (ws & Hws & Hl); [intros l Hl; apply Hlen; now right|].
    assert (Hline : exists x, num_mul (NInt (len line)) avg = Ok x).
    { destruct avg as [z | g]; cbn [num_mul]; [eauto|].
      destruct (float_of_int_returns (len line)) as [f ->]; [|cbn; eauto].
      split; [unfold len; lia|apply Hlen; now left]. }
    destruct Hline as [x Hx]. exists (x :: ws). cbn [omap].
    rewrite Hx, Hws. cbn. split; [reflexivity|]. now rewrite Hl.
Qed.

Lemma fits_width_returns (h : host) (tr : list call) (lines : list string)
  (aw : Z) (f : pil_font) (use_small : bool) :
  lines <> [] ->
  (forall line, In line lines -> len line < 2 ^ 50) ->
  exists fit, fits_width h tr lines aw f use_small = Ok fit.
Proof.
  intros Hne Hlen. unfold fits_width, max_line_width.
  destruct (line_widths_return (measured h tr f use_small) lines Hlen)
    as (ws & -> & Hl).
  cbn [obind]. destruct ws as [|x ws].
  - destruct lines; [contradiction|discriminate].
  - cbn. eauto.
Qed.

(* ===================================================================== *)
(** ** Further properties of the code *)
(* ===================================================================== *)

(** *** The selection on any schedule *)

Lemma date_leb_ltb (a b : date) : date_leb a b = negb (date_ltb b a).
Proof.
  unfold date_leb, date_ltb. rewrite (date_cmp_antisym a b).
  destruct (date_cmp a b); reflexivity.
Qed.

(** What the search loop does on a schedule of well-formed events: it skips
    the events that are over and stops at the first that is not. *)
Lemma first_relevant_spec (d : date) (evs : list event) :
  valid_date d = true ->
  forallb well_formed_event evs = true ->
  match first_relevant d evs with
  | Some (ev, active) =>
      exists before after,
        evs = before ++ ev :: after
        /\ forallb (finished_on d) before = true
        /\ finished_on d ev = false
        /\ active = date_leb (opening ev) d
  | None => forallb (finished_on d) evs = true
  end.
Proof.
  intros Hd. induction evs as [|e evs IH]; [reflexivity|].
  cbn [forallb first_relevant]. intros Hwf. apply andb_prop in Hwf as [He Hwf].
  unfold well_formed_event in He.
  apply andb_prop in He as [He Hoc]. apply andb_prop in He as [Vo Vc].
  specialize (IH Hwf).
  destruct (date_ltb d (opening e)) eqn:E1.
  - exists [], evs. repeat split.
    + unfold finished_on. destruct (date_ltb (closing e) d) eqn:E2; [|reflexivity].
      revert E1 E2 Hoc.
      rewrite !date_ltb_toordinal, date_leb_toordinal by assumption.
      rewrite !Z.ltb_lt, Z.leb_le. lia.
    + rewrite date_leb_ltb, E1. reflexivity.
  - assert (Ho : date_leb (opening e) d = true) by (rewrite date_leb_ltb, E1; reflexivity).
    rewrite Ho. cbn [andb].
    destruct (date_leb d (closing e)) eqn:E2.
    + exists [], evs. repeat split; [|symmetry; exact Ho].
      unfold finished_on. rewrite date_leb_ltb in E2.
      destruct (date_ltb (closing e) d); [discriminate|reflexivity].
    + assert (Hf : finished_on d e = true).
      { unfold finished_on. rewrite date_leb_ltb in E2.
        destruct (date_ltb (closing e) d); [reflexivity|discriminate]. }
      destruct (first_relevant d evs) as [[ev active]|].
      * destruct IH as (before & after & -> & Hb & Hn & Ha).
        exists (e :: before), after. repeat split; try assumption.
        cbn [forallb]. rewrite Hf, Hb. reflexivity.
      * cbn [forallb]. rewrite Hf, IH. reflexivity.
Qed.

(** X1.  On any schedule of events with existing dates and an opening not
    after the closing, and for any valid date [d], the selection of
    [_get_next_olympics] returns the first event of the schedule that is not
    over on [d] (every event before it closed strictly before [d]), active
    exactly when its opening date is on or before [d]; when every event is
    over it returns the last event, not active; it returns no event only
    for an empty schedule. *)
Theorem next_olympics_is_first_unfinished (d : date) (evs : list event) :
  valid_date d = true ->
  forallb well_formed_event evs = true ->
  match next_olympics_in evs d with
  | (Some ev, active) =>
      (exists before after,
          evs = before ++ ev :: after
          /\ forallb (finished_on d) before = true
          /\ finished_on d ev = false
          /\ active = date_leb (opening ev) d)
      \/ (forallb (finished_on d) evs = true
          /\ last_event evs = Some ev /\ active = false)
  | (None, active) => evs = [] /\ active = false
  end.
Proof.
  intros Hd Hwf. pose proof (first_relevant_spec d evs Hd Hwf) as H.
  unfold next_olympics_in.
  destruct (first_relevant d evs) as [[ev active]|].
  - left. exact H.
  - destruct (last_event evs) as [ev|] eqn:El.
    + right. auto.
    + split; [|reflexivity].
      destruct evs as [|e evs]; [reflexivity|].
      destruct (next_olympics_in_some (e :: evs) d) as (ev & a & Hn);
        [discriminate|].
      clear - El. exfalso. revert e El.
      induction evs as [|e' evs IH]; intros e El; [discriminate|].
      apply (IH e'). exact El.
Qed.

Lemma next_olympics_is_first_unfinished_witness :
  match next_olympics_in bundled_events (mkdate 2027 1 1) with
  | (Some ev, active) =>
      (exists before after,
          bundled_events = before ++ ev :: after
          /\ forallb (finished_on (mkdate 2027 1 1)) before = true
          /\ finished_on (mkdate 2027 1 1) ev = false
          /\ active = date_leb (opening ev) (mkdate 2027 1 1))
      \/ (forallb (finished_on (mkdate 2027 1 1)) bundled_events = true
          /\ last_event bundled_events = Some ev /\ active = false)
  | (None, active) => bundled_events = [] /\ active = false
  end.
Proof.
  apply (next_olympics_is_first_unfinished (mkdate 2027 1 1) bundled_events);
    reflexivity.
Defined.

(** *** The grouping loop on any table *)

(** X2.  On any table whose entries all carry an existing date, the
    grouping loop of [_get_next_olympics] returns [len // 2] events; event
    number [i] is built from the entries [2 i] and [2 i + 1], with the type
    and the location of the first of the two; a trailing odd entry is
    dropped. *)
Theorem olympics_events_of_pairs (dates : list entry) :
  forallb entry_valid dates = true ->
  exists evs,
    olympics_events_of dates = Ok evs
    /\ List.length evs = Nat.div2 (List.length dates)
    /\ forall i ev,
         nth_error evs i = Some ev ->
         exists o c,
           nth_error dates (2 * i) = Some o
           /\ nth_error dates (2 * i + 1) = Some c
           /\ ev = event_of_pair o c.
Proof.
  assert (H : forall n (dates : list entry),
             (List.length dates <= n)%nat ->
             forallb entry_valid dates = true ->
             exists evs,
               olympics_events_of dates = Ok evs
               /\ List.length evs = Nat.div2 (List.length dates)
               /\ forall i ev,
                    nth_error evs i = Some ev ->
                    exists o c,
                      nth_error dates (2 * i) = Some o
                      /\ nth_error dates (2 * i + 1) = Some c
                      /\ ev = event_of_pair o c).
  { induction n as [|n IH]; intros ds Hl Hv.
    - destruct ds; [|cbn in Hl; lia].
      exists []. repeat split. intros [|i] ev; discriminate.
    - destruct ds as [|o [|c rest]].
      + exists []. repeat split. intros [|i] ev; discriminate.
      + exists []. destruct o as [[[[oy om] od] ot] ol].
        repeat split. intros [|i] ev; discriminate.
      + cbn [forallb] in Hv.
        apply andb_prop in Hv as [Vo Hv]. apply andb_prop in Hv as [Vc Hv].
        destruct (IH rest) as (evs & E & Hlen & Hnth);
          [cbn in Hl; lia|exact Hv|].
        destruct o as [[[[oy om] od] ot] ol], c as [[[[cy cm] cd] ct] cl].
        cbn [entry_valid] in Vo, Vc.
        exists (mkevent (mkdate oy om od) (mkdate cy cm cd) ot ol :: evs).
        split; [|split].
        * cbn [olympics_events_of]. unfold new_date. rewrite Vo, Vc, E.
          reflexivity.
        * cbn [List.length Nat.div2]. rewrite Hlen. reflexivity.
        * intros [|i] ev.
          -- intros [= <-]. eexists _, _. repeat split.
          -- cbn [nth_error]. intros Hi.
             destruct (Hnth i ev Hi) as (o & c & Ho & Hc & ->).
             exists o, c. repeat split.
             ++ replace (2 * S i)%nat with (S (S (2 * i))) by lia. exact Ho.
             ++ replace (2 * S i + 1)%nat with (S (S (2 * i + 1))) by lia.
                exact Hc. }
  intros Hv. apply (H (List.length dates)); [lia|exact Hv].
Qed.

Lemma olympics_events_of_pairs_witness :
  exists evs,
    olympics_events_of OLYMPICS_DATES = Ok evs
    /\ List.length evs = Nat.div2 (List.length OLYMPICS_DATES)
    /\ forall i ev,
         nth_error evs i = Some ev ->
         exists o c,
           nth_error OLYMPICS_DATES (2 * i) = Some o
           /\ nth_error OLYMPICS_DATES (2 * i + 1) = Some c
           /\ ev = event_of_pair o c.
Proof.
  apply (olympics_events_of_pairs OLYMPICS_DATES). reflexivity.
Defined.

(** *** update, step by step *)

Lemma update_body_run (h : host) (w : world) :
  update_body h w
  = match today h (trace w) with
    | Raise e => (Raise e, record_call DateToday w)
    | Ok d1 =>
        match today h (trace w ++ [DateToday]) with
        | Raise e => (Raise e, mkworld (self w) (trace w ++ [DateToday; DateToday]))
        | Ok d2 =>
            let r := countdown_at d1 d2 in
            match today h (trace w ++ [DateToday; DateToday]) with
            | Raise e =>
                (Raise e,
                 mkworld (assign_countdown r (self w))
                   (trace w ++ [DateToday; DateToday; DateToday]))
            | Ok d3 => (Ok tt, after_update r d3 w)
            end
        end
    end.
Proof.
  unfold update_body. rewrite bind_unfold.
  unfold _calculate_days_until. rewrite bind_unfold.
  unfold _get_next_olympics at 1. rewrite bind_unfold.
  unfold date_today at 1. cbv beta iota.
  destruct (today h (trace w)) as [d1|e]; [|reflexivity].
  rewrite bind_unfold. unfold lift at 1. rewrite olympics_events_bundled.
  unfold ret at 1. cbv beta iota.
  unfold countdown_at.
  destruct (next_olympics_in_some bundled_events d1) as (ev & a & ->);
    [discriminate|].
  cbn [fst snd]. rewrite bind_unfold. unfold date_today at 1.
  unfold record_call. cbn [self trace]. rewrite <- app_assoc. cbn [app].
  destruct (today h (trace w ++ [DateToday])) as [d2|e]; [|reflexivity].
  unfold ret at 1. cbv beta iota.
  destruct (days_until_result (Some ev) a d2) as [[[days act] info] ct] eqn:Er.
  do 4 (rewrite bind_unfold; unfold modify_self at 1; cbv beta iota;
        cbn [self trace]).
  rewrite bind_unfold. unfold date_today at 1.
  unfold record_call. cbn [self trace]. rewrite <- app_assoc. cbn [app].
  destruct (today h (trace w ++ [DateToday; DateToday])) as [d3|e];
    [|reflexivity].
  rewrite bind_unfold. unfold get_self at 1. cbv beta iota.
  cbn [self trace last_calculated_date set_countdown_type
       set_current_olympics set_is_olympics_active set_days_until].
  unfold after_update, assign_countdown, update_log.
  assert (Ei : exists ev', info = Some ev').
  { unfold days_until_result in Er. destruct a; injection Er as <- <- <- <-; eauto. }
  destruct Ei as [ev' ->].
  destruct (opt_date_eqb (last_calculated_date (self w)) (Some d3)); cbn [negb].
  - reflexivity.
  - rewrite bind_unfold. unfold log at 1. cbv beta iota.
    unfold modify_self, record_call. cbn [self trace].
    rewrite <- app_assoc. reflexivity.
Qed.

Lemma last_event_in (evs : list event) (ev : event) :
  last_event evs = Some ev -> In ev evs.
Proof.
  induction evs as [|e [|e' evs] IH]; [discriminate| |].
  - intros [= ->]. left. reflexivity.
  - intros H. right. apply IH. exact H.
Qed.

Lemma next_olympics_in_event (evs : list event) (d : date) (ev : event)
  (active : bool) :
  next_olympics_in evs d = (Some ev, active) -> In ev evs.
Proof.
  unfold next_olympics_in.
  destruct (first_relevant d evs) as [[e a]|] eqn:E.
  - intros [= <- <-]. apply (first_relevant_some _ _ _ _ E).
  - destruct (last_event evs) as [e|] eqn:El; [|discriminate].
    intros [= <- <-]. apply last_event_in. exact El.
Qed.

(** The countdown tuple names an event of the schedule, and its type and
    number of days follow from the event, the flag and the second date. *)
Lemma countdown_at_shape (d1 d2 : date) :
  exists ev active,
    In ev bundled_events
    /\ next_olympics_in bundled_events d1 = (Some ev, active)
    /\ countdown_at d1 d2
       = (days_between (if active then closing ev else opening ev) d2,
          active, Some ev, if active then "closing" else "opening")%string.
Proof.
  unfold countdown_at.
  destruct (next_olympics_in_some bundled_events d1) as (ev & a & E);
    [discriminate|].
  exists ev, a. split; [exact (next_olympics_in_event _ _ _ _ E)|].
  split; [exact E|]. rewrite E. cbn [fst snd days_until_result].
  destruct a; reflexivity.
Qed.

Lemma opt_date_eqb_eq (a b : option date) :
  opt_date_eqb a b = true -> a = b.
Proof.
  destruct a as [x|], b as [y|]; cbn; try discriminate; [|reflexivity].
  unfold date_eqb. destruct (date_cmp x y) eqn:E; try discriminate.
  intros _. f_equal. apply date_cmp_eq. exact E.
Qed.

Lemma opt_date_eqb_refl (a : option date) : opt_date_eqb a a = true.
Proof.
  destruct a as [[y m d]|]; [|reflexivity].
  cbn. unfold date_eqb, date_cmp. cbn [year month day].
  rewrite !Z.compare_refl. reflexivity.
Qed.

Lemma after_update_self (r : Z * bool * option event * string) (d3 : date)
  (w : world) :
  self (after_update r d3 w)
  = set_last_calculated_date (Some d3) (assign_countdown r (self w)).
Proof.
  unfold after_update.
  destruct (opt_date_eqb (last_calculated_date (self w)) (Some d3)) eqn:E;
    [|reflexivity].
  apply opt_date_eqb_eq in E. cbn [self].
  destruct r as [[[days act] info] ct]. unfold assign_countdown.
  destruct (self w). cbn in *. rewrite E. reflexivity.
Qed.

(** *** update: what a completed run leaves *)

(** X3.  When the [try] block of [update] completes, whatever dates the
    three clock reads return: [current_olympics] is an event of the bundled
    schedule, [countdown_type] is "closing" when [is_olympics_active] is set
    and "opening" otherwise, [days_until] is the event's closing date
    (active) or opening date (not active) minus the date of the second clock
    read, and [last_calculated_date] is the date of the third clock read. *)
Theorem update_completed_state (h : host) (w : world) :
  fst (update_body h w) = Ok tt ->
  let s1 := self (snd (update h w)) in
  exists ev d2 d3,
    today h (trace w ++ [DateToday]) = Ok d2
    /\ today h (trace w ++ [DateToday; DateToday]) = Ok d3
    /\ current_olympics s1 = Some ev
    /\ In ev bundled_events
    /\ countdown_type s1
       = (if is_olympics_active s1 then "closing" else "opening")%string
    /\ days_until s1
       = days_between
           (if is_olympics_active s1 then closing ev else opening ev) d2
    /\ last_calculated_date s1 = Some d3.
Proof.
  intros Hok. destruct (update_run h w) as [_ ->]. revert Hok.
  rewrite update_body_run.
  destruct (today h (trace w)) as [d1|e]; [|discriminate].
  destruct (today h (trace w ++ [DateToday])) as [d2|e]; [|discriminate].
  destruct (today h (trace w ++ [DateToday; DateToday])) as [d3|e];
    [|discriminate].
  intros _. cbv beta iota zeta. rewrite after_update_self.
  destruct (countdown_at_shape d1 d2) as (ev & a & Hin & _ & ->).
  exists ev, d2, d3.
  cbn [set_last_calculated_date assign_countdown set_countdown_type
       set_current_olympics set_is_olympics_active set_days_until
       current_olympics countdown_type is_olympics_active days_until
       last_calculated_date].
  repeat split; try reflexivity. exact Hin.
Qed.

Lemma update_completed_state_witness :
  let s1 := self (snd (update (panel (mkdate 2025 11 3)) unset)) in
  exists ev d2 d3,
    today (panel (mkdate 2025 11 3)) (trace unset ++ [DateToday]) = Ok d2
    /\ today (panel (mkdate 2025 11 3))
         (trace unset ++ [DateToday; DateToday]) = Ok d3
    /\ current_olympics s1 = Some ev
    /\ In ev bundled_events
    /\ countdown_type s1
       = (if is_olympics_active s1 then "closing" else "opening")%string
    /\ days_until s1
       = days_between
           (if is_olympics_active s1 then closing ev else opening ev) d2
    /\ last_calculated_date s1 = Some d3.
Proof.
  apply (update_completed_state (panel (mkdate 2025 11 3)) unset).
  reflexivity.
Defined.

(** *** update under a steady clock *)

Lemma update_steady (h : host) (w : world) (d : date) :
  (forall tr, today h tr = Ok d) ->
  update h w = (Ok tt, after_update (countdown_at d d) d w).
Proof.
  intros Hc. destruct (update_run h w) as [H1 H2].
  rewrite (surjective_pairing (update h w)), H1, H2, update_body_run.
  rewrite !Hc. reflexivity.
Qed.

(** X4.  Under a clock that reads the same date [d] at every call, [update]
    logs only when the day changes: the first call issues three clock reads,
    followed by one log line exactly when [last_calculated_date] was not
    [d], and leaves [last_calculated_date = d]; a second call changes no
    attribute and issues three clock reads and no log line. *)
Theorem update_logs_once_a_day (h : host) (w : world) (d : date) :
  (forall tr, today h tr = Ok d) ->
  let w1 := snd (update h w) in
  let w2 := snd (update h w1) in
  last_calculated_date (self w1) = Some d
  /\ trace w1
     = trace w ++ [DateToday; DateToday; DateToday]
       ++ (if opt_date_eqb (last_calculated_date (self w)) (Some d)
           then [] else [update_log (countdown_at d d)])
  /\ self w2 = self w1
  /\ trace w2 = trace w1 ++ [DateToday; DateToday; DateToday].
Proof.
  intros Hc. cbv zeta. rewrite !(update_steady _ _ d Hc). cbn [snd].
  assert (Hd : last_calculated_date (self (after_update (countdown_at d d) d w))
               = Some d).
  { rewrite after_update_self.
    destruct (countdown_at d d) as [[[days act] info] ct]. reflexivity. }
  split; [exact Hd|]. split.
  - unfold after_update.
    destruct (opt_date_eqb (last_calculated_date (self w)) (Some d)); cbn [trace].
    + rewrite app_nil_r. reflexivity.
    + rewrite <- app_assoc. reflexivity.
  - set (w1 := after_update (countdown_at d d) d w) in *.
    assert (E : after_update (countdown_at d d) d w1
                = mkworld (assign_countdown (countdown_at d d) (self w1))
                    (trace w1 ++ [DateToday; DateToday; DateToday])).
    { unfold after_update at 1. rewrite Hd, opt_date_eqb_refl. reflexivity. }
    rewrite E. cbn [self trace]. split; [|reflexivity].
    subst w1. rewrite after_update_self.
    destruct (countdown_at d d) as [[[days act] info] ct].
    unfold assign_countdown. destruct (self w). reflexivity.
Qed.

Lemma update_logs_once_a_day_witness :
  let h := panel (mkdate 2025 11 3) in
  let w1 := snd (update h unset) in
  let w2 := snd (update h w1) in
  last_calculated_date (self w1) = Some (mkdate 2025 11 3)
  /\ trace w1
     = trace unset ++ [DateToday; DateToday; DateToday]
       ++ (if opt_date_eqb (last_calculated_date (self unset))
                (Some (mkdate 2025 11 3))
           then []
           else [update_log (countdown_at (mkdate 2025 11 3) (mkdate 2025 11 3))])
  /\ self w2 = self w1
  /\ trace w2 = trace w1 ++ [DateToday; DateToday; DateToday].
Proof.
  apply (update_logs_once_a_day (panel (mkdate 2025 11 3)) unset
           (mkdate 2025 11 3)).
  intros tr. reflexivity.
Defined.

(** X5.  [update] never touches the configuration or the display: whatever
    the host does, [text_color], [logo_size], [logo_image] and
    [last_displayed_message] keep their values, and every call it issues is
    a clock read or a log line. *)
Theorem update_footprint (h : host) (w : world) :
  let w1 := snd (update h w) in
  text_color (self w1) = text_color (self w)
  /\ logo_size (self w1) = logo_size (self w)
  /\ logo_image (self w1) = logo_image (self w)
  /\ last_displayed_message (self w1) = last_displayed_message (self w)
  /\ exists cs, trace w1 = trace w ++ cs /\ forallb is_clock_or_log cs = true.
Proof.
  cbv zeta. destruct (update_run h w) as [_ ->]. rewrite update_body_run.
  destruct (today h (trace w)) as [d1|e].
  2:{ cbn. repeat split. eexists. rewrite <- app_assoc. split; reflexivity. }
  destruct (today h (trace w ++ [DateToday])) as [d2|e].
  2:{ cbn. repeat split. eexists. rewrite <- app_assoc. split; reflexivity. }
  cbv zeta. destruct (countdown_at d1 d2) as [[[days act] info] ct].
  destruct (today h (trace w ++ [DateToday; DateToday])) as [d3|e].
  2:{ cbn. repeat split. eexists. rewrite <- app_assoc. split; reflexivity. }
  unfold after_update.
  destruct (opt_date_eqb (last_calculated_date (self w)) (Some d3));
    cbn [self trace assign_countdown]; repeat split.
  - eexists. split; reflexivity.
  - eexists. rewrite <- app_assoc. split; [reflexivity|].
    unfold update_log. destruct info; reflexivity.
Qed.

(** *** The message after an update *)

Lemma last_char_app (a b : string) :
  b <> EmptyString -> last_char (a ++ b)%string = last_char b.
Proof.
  intros Hb. induction a as [|c a IH]; [reflexivity|].
  cbn [String.append last_char]. rewrite IH.
  destruct (a ++ b)%string eqn:E; [|reflexivity].
  destruct a; [cbn in E; contradiction|discriminate].
Qed.

Lemma append_nonempty (a b : string) :
  b <> EmptyString -> (a ++ b)%string <> EmptyString.
Proof. destruct a; [auto|discriminate]. Qed.

(** Under a steady clock, a countdown that is not active is not at zero. *)
Lemma countdown_not_active_nonzero (d : date) :
  valid_date d = true ->
  forall days info ctype,
    countdown_at d d = (days, false, info, ctype) -> days <> 0.
Proof.
  intros Hd days info ctype. unfold countdown_at, next_olympics_in.
  pose proof (first_relevant_none d Hd) as Hnone.
  destruct (first_relevant d bundled_events) as [[ev active]|] eqn:E.
  - destruct (first_relevant_some _ _ _ _ E) as [Hin Hev].
    destruct (bundled_events_valid ev Hin) as [Vo Vc].
    cbn [fst snd days_until_result]. destruct active; [discriminate|].
    intros [= <- _ _]. rewrite date_ltb_toordinal in Hev by assumption.
    apply Z.ltb_lt in Hev. unfold days_between. lia.
  - assert (Hp : past_all_events d = true) by (apply Hnone; reflexivity).
    destruct (last_event bundled_events) as [ev|] eqn:El; [|discriminate].
    cbn [fst snd days_until_result]. intros [= <- _ _].
    injection El as <-. unfold past_all_events in Hp. cbn in Hp.
    revert Hp. by_ordinals Hd. intros Hp. apply Z.ltb_lt in Hp. lia.
Qed.

(** X6.  Under a clock that reads the same valid date at every call, the
    state [update] leaves never has [days_until = 0] while
    [is_olympics_active] is false (on an opening day the Games count as
    active and the countdown runs to the closing date), so the message
    [display] derives from it is never "OLYMPICS OPENING TODAY". *)
Theorem opening_today_never_shown (h : host) (w : world) (d : date) :
  valid_date d = true ->
  (forall tr, today h tr = Ok d) ->
  let s1 := self (snd (update h w)) in
  (days_until s1 = 0 -> is_olympics_active s1 = true)
  /\ message_of s1 <> "OLYMPICS OPENING TODAY"%string.
Proof.
  intros Hd Hc. cbv zeta. rewrite (update_steady h w d Hc). cbn [snd].
  rewrite after_update_self.
  pose proof (countdown_not_active_nonzero d Hd) as Hnz.
  destruct (countdown_at_shape d d) as (ev & a & _ & _ & E).
  rewrite E in *. clear E.
  cbn [set_last_calculated_date assign_countdown set_countdown_type
       set_current_olympics set_is_olympics_active set_days_until
       is_olympics_active days_until].
  assert (H0 : days_between (if a then closing ev else opening ev) d = 0 ->
               a = true).
  { intros H. destruct a; [reflexivity|]. exfalso.
    exact (Hnz _ _ _ eq_refl H). }
  split; [exact H0|].
  unfold message_of, message_and_lines.
  cbn [set_last_calculated_date set_countdown_type set_current_olympics
       set_is_olympics_active set_days_until
       current_olympics is_olympics_active days_until].
  destruct a.
  - destruct (days_between (closing ev) d =? 0); cbn [fst].
    + discriminate.
    + intros H. apply (f_equal last_char) in H.
      rewrite last_char_app in H by discriminate. discriminate H.
  - destruct (Z.eqb_spec (days_between (opening ev) d) 0) as [Hz|_]; cbn [fst].
    + discriminate (H0 Hz).
    + intros H. apply (f_equal last_char) in H.
      rewrite !last_char_app in H
        by (repeat apply append_nonempty; discriminate).
      discriminate H.
Qed.

Lemma opening_today_never_shown_witness :
  let s1 := self (snd (update (panel (mkdate 2026 2 6)) unset)) in
  (days_until s1 = 0 -> is_olympics_active s1 = true)
  /\ message_of s1 <> "OLYMPICS OPENING TODAY"%string.
Proof.
  apply (opening_today_never_shown (panel (mkdate 2026 2 6)) unset
           (mkdate 2026 2 6)).
  - reflexivity.
  - intros tr. reflexivity.
Defined.

(** *** Which calls a computation issues *)

Section CallsIn.

Variable P : call -> bool.

Lemma calls_in_ret {A} (a : A) : calls_in P (ret a).
Proof. intros h w. exists []. cbn. rewrite app_nil_r. auto. Qed.

Lemma calls_in_lift {A} (o : outcome A) : calls_in P (lift o).
Proof. intros h w. exists []. cbn. rewrite app_nil_r. auto. Qed.

Lemma calls_in_ask : calls_in P ask.
Proof. intros h w. exists []. cbn. rewrite app_nil_r. auto. Qed.

Lemma calls_in_get_self : calls_in P get_self.
Proof. intros h w. exists []. cbn. rewrite app_nil_r. auto. Qed.

Lemma calls_in_modify_self (f : plugin -> plugin) : calls_in P (modify_self f).
Proof. intros h w. exists []. cbn. rewrite app_nil_r. auto. Qed.

Lemma calls_in_host_call (c : call) : P c = true -> calls_in P (host_call c).
Proof. intros Hc h w. exists [c]. cbn. rewrite Hc. auto. Qed.

Lemma calls_in_get_text_width (t : string) (f : pil_font) :
  P (GetTextWidth t f) = true -> calls_in P (get_text_width t f).
Proof. intros Hc h w. exists [GetTextWidth t f]. cbn. rewrite Hc. auto. Qed.

Lemma calls_in_log (l : log_level) (m : string) :
  P (Log l m) = true -> calls_in P (log l m).
Proof. intros Hc h w. exists [Log l m]. cbn. rewrite Hc. auto. Qed.

Lemma calls_in_bind {A B} (c : M A) (k : A -> M B) :
  calls_in P c -> (forall a, calls_in P (k a)) -> calls_in P (bind c k).
Proof.
  intros Hc Hk h w. unfold bind.
  destruct (Hc h w) as (cs & Ht & Hp).
  destruct (c h w) as [[a|e] w1]; cbn [snd] in Ht.
  - destruct (Hk a h w1) as (cs' & Ht' & Hp').
    exists (cs ++ cs'). rewrite Ht', Ht, app_assoc, forallb_app, Hp, Hp'. auto.
  - exists cs. auto.
Qed.

Lemma calls_in_try_except {A} (c : M A) (handler : exn -> M A) :
  calls_in P c -> (forall e, calls_in P (handler e)) ->
  calls_in P (try_except c handler).
Proof.
  intros Hc Hk h w. unfold try_except.
  destruct (Hc h w) as (cs & Ht & Hp).
  destruct (c h w) as [[a|e] w1]; cbn [snd] in Ht.
  - exists cs. auto.
  - destruct (Hk e h w1) as (cs' & Ht' & Hp').
    exists (cs ++ cs'). rewrite Ht', Ht, app_assoc, forallb_app, Hp, Hp'. auto.
Qed.

Lemma calls_in_try_except_in {A} (cls : list exn_class) (c : M A)
  (handler : exn -> M A) :
  calls_in P c -> (forall e, calls_in P (handler e)) ->
  calls_in P (try_except_in cls c handler).
Proof.
  intros Hc Hk h w. unfold try_except_in.
  destruct (Hc h w) as (cs & Ht & Hp).
  destruct (c h w) as [[a|e] w1]; cbn [snd] in Ht.
  - exists cs. auto.
  - destruct (existsb (exn_class_eqb (exn_cls e)) cls).
    + destruct (Hk e h w1) as (cs' & Ht' & Hp').
      exists (cs ++ cs'). rewrite Ht', Ht, app_assoc, forallb_app, Hp, Hp'. auto.
    + exists cs. auto.
Qed.

End CallsIn.

Ltac calls_side :=
  solve [ reflexivity
        | match goal with
          | H : forall c, plain_call c = true -> ?P c = true |- ?P _ = true =>
              apply H; reflexivity
          end ].

Ltac calls_step :=
  match goal with
  | |- calls_in _ (bind _ _) => apply calls_in_bind; [|intros ?]
  | |- calls_in _ (try_except _ _) => apply calls_in_try_except; [|intros ?]
  | |- calls_in _ (try_except_in _ _ _) =>
      apply calls_in_try_except_in; [|intros ?]
  | |- calls_in _ (ret _) => apply calls_in_ret
  | |- calls_in _ (lift _) => apply calls_in_lift
  | |- calls_in _ ask => apply calls_in_ask
  | |- calls_in _ get_self => apply calls_in_get_self
  | |- calls_in _ (modify_self _) => apply calls_in_modify_self
  | |- calls_in _ (host_call _) => apply calls_in_host_call; calls_side
  | |- calls_in _ (get_text_width _ _) =>
      apply calls_in_get_text_width; calls_side
  | |- calls_in _ (log _ _) => apply calls_in_log; calls_side
  | |- calls_in _ (match ?x with _ => _ end) => destruct x
  | |- calls_in _ (if ?x then _ else _) => destruct x
  end.
Ltac calls := repeat calls_step.

(** The parts of a redraw other than the paste issue plain calls only. *)
Section PlainCalls.

Variable P : call -> bool.
Hypothesis HP : forall c, plain_call c = true -> P c = true.

Lemma draw_rings_calls (x0 y r : Z) (colors : list (Z * Z * Z)) (i : Z) :
  calls_in P (draw_rings x0 y r i colors).
Proof.
  revert i. induction colors as [|c colors IH]; intros i; cbn [draw_rings].
  - calls.
  - calls; [unfold draw_ring; calls|apply IH].
Qed.

Lemma get_logo_image_calls (width height : Z) :
  calls_in P (_get_logo_image width height).
Proof.
  unfold _get_logo_image. calls; try (unfold resize; calls).
  unfold _draw_olympics_rings_programmatic.
  calls; apply draw_rings_calls.
Qed.

Lemma try_fonts_calls (lines : list string) (aw : Z)
  (opts : list (string * pil_font * bool)) (b : best) :
  calls_in P (try_fonts lines aw b opts).
Proof.
  revert b. induction opts as [|o opts IH]; intros b; cbn [try_fonts].
  - calls.
  - calls; [|apply IH]. unfold try_font. destruct o as [[n f] us]. calls.
    unfold avg_char_width. calls.
Qed.

Lemma calculate_text_layout_calls (width height : Z) (lines : list string) :
  calls_in P (_calculate_text_layout width height lines).
Proof.
  unfold _calculate_text_layout. calls. unfold select_font. calls.
  apply try_fonts_calls.
Qed.

Lemma draw_lines_calls (lay : layout) (rx rw : Z) (lines : list string)
  (i : Z) :
  calls_in P (draw_lines lay rx rw i lines).
Proof.
  revert i. induction lines as [|l lines IH]; intros i; cbn [draw_lines].
  - calls.
  - calls; [|apply IH]. unfold draw_line. calls.
Qed.

End PlainCalls.

Lemma plain_not_clock_read (c : call) :
  plain_call c = true -> not_clock_read c = true.
Proof. destruct c; auto. Qed.

Lemma plain_paste_within (h : host) (c : call) :
  plain_call c = true -> paste_within h c = true.
Proof. destruct c; auto; discriminate. Qed.

Lemma redraw_no_clock_read (message : string) (lines : list string) :
  calls_in not_clock_read (redraw message lines).
Proof.
  unfold redraw. calls.
  - apply get_logo_image_calls, plain_not_clock_read.
  - apply calculate_text_layout_calls, plain_not_clock_read.
  - apply draw_lines_calls, plain_not_clock_read.
Qed.

(** *** display: what it changes, and what a second call does *)

Lemma message_and_lines_set_last (m : option string) (s : plugin) :
  message_and_lines (set_last_displayed_message m s) = message_and_lines s.
Proof. reflexivity. Qed.

Lemma attempted_forallb (P : call -> bool) (h : host) (tr : list call)
  (cs : list call) :
  forallb P cs = true -> forallb P (attempted h tr cs) = true.
Proof.
  revert tr. induction cs as [|c cs IH]; intros tr; [reflexivity|].
  cbn [forallb attempted]. intros H. apply andb_prop in H as [-> H].
  destruct (fault h tr c); [reflexivity|]. apply IH. exact H.
Qed.

(** X7.  [display] never recomputes the countdown: whatever the host does,
    it leaves every attribute as it was, except that a completed redraw
    stores the message it drew in [last_displayed_message]; and no call it
    issues is a clock read. *)
Theorem display_footprint (force_clear : bool) (h : host) (w : world) :
  let w1 := snd (display force_clear h w) in
  (self w1 = self w
   \/ self w1
      = set_last_displayed_message (Some (message_of (self w))) (self w))
  /\ exists cs, trace w1 = trace w ++ cs /\ forallb not_clock_read cs = true.
Proof.
  cbv zeta. destruct (display_run force_clear h w) as [_ ->].
  rewrite display_body_run.
  destruct (redraw_skipped force_clear (self w)).
  - split; [left; reflexivity|]. exists []. rewrite app_nil_r. auto.
  - pose proof (redraw_run (message_of (self w)) (lines_of (self w)) h w) as Hr.
    destruct (redraw_no_clock_read (message_of (self w)) (lines_of (self w)) h w)
      as (cs & Ht & Hp).
    destruct (redraw (message_of (self w)) (lines_of (self w)) h w)
      as [[[]|e] w1]; cbn [snd] in Ht.
    + destruct Hr as [Hs _]. split; [right; exact Hs|]. exists cs. auto.
    + destruct Hr as [Hs _]. cbv zeta. cbn [self trace].
      split; [left; exact Hs|].
      eexists. rewrite Ht, <- !app_assoc. split; [reflexivity|].
      rewrite !forallb_app, Hp. cbn [forallb not_clock_read andb].
      apply attempted_forallb. reflexivity.
Qed.

(** X8.  Once the [try] block of a [display] call has completed, an
    immediately following [display(force_clear=False)] issues no call and
    changes nothing: the stored message is the one the attributes give. *)
Theorem display_then_display_skips (force_clear : bool) (h : host)
  (w : world) :
  fst (display_body force_clear h w) = Ok tt ->
  let w1 := snd (display force_clear h w) in
  display false h w1 = (Ok tt, w1).
Proof.
  intros Hok. cbv zeta.
  assert (Hskip : redraw_skipped false
                    (self (snd (display force_clear h w))) = true).
  { destruct (display_run force_clear h w) as [_ ->]. revert Hok.
    rewrite display_body_run.
    destruct (redraw_skipped force_clear (self w)) eqn:Es.
    - intros _. apply redraw_skipped_spec in Es as [_ Hl].
      apply redraw_skipped_spec. auto.
    - pose proof (redraw_run (message_of (self w)) (lines_of (self w)) h w)
        as Hr.
      destruct (redraw (message_of (self w)) (lines_of (self w)) h w)
        as [[[]|e] w1]; [|discriminate].
      intros _. destruct Hr as [Hs _]. apply redraw_skipped_spec.
      split; [reflexivity|]. rewrite Hs. unfold message_of.
      rewrite message_and_lines_set_last. reflexivity. }
  destruct (display_run false h (snd (display force_clear h w))) as [H1 H2].
  rewrite (surjective_pairing (display false h _)), H1, H2.
  rewrite display_body_run, Hskip. reflexivity.
Qed.

Lemma display_then_display_skips_witness :
  let h := panel (mkdate 2025 11 3) in
  let w := constructed h [] in
  let w1 := snd (display true h w) in
  display false h w1 = (Ok tt, w1).
Proof.
  apply (display_then_display_skips true (panel (mkdate 2025 11 3))
           (constructed (panel (mkdate 2025 11 3)) [])).
  vm_compute. reflexivity.
Defined.

(** *** The message and the lines *)

Lemma string_of_uint_chars (d : Decimal.uint) :
  string_forall is_int_char (NilEmpty.string_of_uint d) = true.
Proof. induction d; cbn [NilEmpty.string_of_uint string_forall]; auto. Qed.

Lemma str_of_int_chars (k : Z) : string_forall is_int_char (str_of_int k) = true.
Proof.
  unfold str_of_int, NilZero.string_of_int, NilZero.string_of_uint.
  destruct (Z.to_int k) as [d|d]; destruct d; cbn [string_forall];
    try reflexivity; apply (string_of_uint_chars d).
Qed.

Lemma until_space_app (a b : string) :
  string_forall is_int_char a = true ->
  until_space (a ++ String " " b) = a.
Proof.
  induction a as [|c a IH]; cbn [string_forall String.append until_space].
  - intros _. reflexivity.
  - intros H. apply andb_prop in H as [Hc Ha].
    destruct (Ascii.eqb_spec c " "%char) as [->|_]; [discriminate Hc|].
    rewrite IH by exact Ha. reflexivity.
Qed.

Lemma append_cancel_l (a x y : string) :
  (a ++ x)%string = (a ++ y)%string -> x = y.
Proof.
  induction a as [|c a IH]; cbn [String.append]; [auto|].
  intros [= H]. apply IH. exact H.
Qed.

Lemma append_cancel_r (a b c : string) :
  (a ++ c)%string = (b ++ c)%string -> a = b.
Proof.
  revert b. induction a as [|x a IH]; intros [|y b]; cbn [String.append].
  - reflexivity.
  - intros H. apply (f_equal String.length) in H.
    cbn [String.length] in H. rewrite string_length_app in H. lia.
  - intros H. apply (f_equal String.length) in H.
    cbn [String.length] in H. rewrite string_length_app in H. lia.
  - intros [= -> H]. f_equal. apply IH. exact H.
Qed.

(** The five forms of the message, with the lines that go with each. *)
Lemma message_and_lines_forms (s : plugin) :
  (message_of s = "NO OLYMPICS FOUND"%string
   /\ lines_of s = ["NO OLYMPICS"; "FOUND"]%string)
  \/ (message_of s = "OLYMPICS CLOSING"%string
      /\ lines_of s = ["OLYMPICS"; "CLOSING"; "TODAY"]%string)
  \/ (message_of s = "OLYMPICS OPENING TODAY"%string
      /\ lines_of s = ["OLYMPICS"; "OPENING"; "TODAY"]%string)
  \/ (exists n,
        string_forall is_int_char n = true
        /\ message_of s = (n ++ String " " "DAYS UNTIL CLOSING")%string
        /\ lines_of s = [n; "DAYS UNTIL"; "CLOSING"]%string)
  \/ (exists n t,
        string_forall is_int_char n = true
        /\ message_of s
           = (n ++ String " " ("DAYS UNTIL " ++ t ++ " OLYMPICS"))%string
        /\ lines_of s = [n; "DAYS UNTIL"; t; "OLYMPICS"]%string).
Proof.
  unfold message_of, lines_of, message_and_lines.
  destruct (current_olympics s) as [ev|]; [|auto].
  destruct (is_olympics_active s), (days_until s =? 0); cbn [fst snd]; auto.
  - right. right. right. left. exists (str_of_int (days_until s)).
    split; [apply str_of_int_chars|]. split; reflexivity.
  - right. right. right. right.
    exists (str_of_int (days_until s)), (upper (type ev)).
    split; [apply str_of_int_chars|]. split; reflexivity.
Qed.

Lemma not_int_text (n w : string) :
  string_forall is_int_char n = true ->
  string_forall is_int_char w = false -> w <> n.
Proof. intros Hn Hw ->. congruence. Qed.

(** X9.  The message is a sound key for skipping a redraw: two states for
    which [display] computes the same message give the same lines of text,
    whatever the number of days and the type of the Games. *)
Theorem message_determines_lines (s1 s2 : plugin) :
  message_of s1 = message_of s2 -> lines_of s1 = lines_of s2.
Proof.
  intros E.
  destruct (message_and_lines_forms s1)
    as [[M1 ->]|[[M1 ->]|[[M1 ->]|[(n1 & H1 & M1 & ->)|(n1 & t1 & H1 & M1 & ->)]]]];
  destruct (message_and_lines_forms s2)
    as [[M2 ->]|[[M2 ->]|[[M2 ->]|[(n2 & H2 & M2 & ->)|(n2 & t2 & H2 & M2 & ->)]]]];
  rewrite M1, M2 in E; clear M1 M2;
  try reflexivity; try discriminate E;
  pose proof (f_equal until_space E) as K;
  rewrite ?until_space_app in K by assumption;
  cbn [until_space Ascii.eqb Bool.eqb] in K;
  try (exfalso; first [ revert K; apply not_int_text; [assumption|reflexivity]
                      | symmetry in K; revert K; apply not_int_text;
                        [assumption|reflexivity] ]).
  - subst n2. reflexivity.
  - exfalso. subst n2. apply append_cancel_l in E. injection E as E.
    apply (f_equal String.length) in E. cbn [String.append] in E.
    repeat (cbn [String.length] in E; try rewrite string_length_app in E). lia.
  - exfalso. subst n2. apply append_cancel_l in E. injection E as E.
    apply (f_equal String.length) in E. cbn [String.append] in E.
    repeat (cbn [String.length] in E; try rewrite string_length_app in E). lia.
  - subst n2. apply append_cancel_l in E. injection E as E.
    apply append_cancel_r in E. subst t2. reflexivity.
Qed.

Lemma message_determines_lines_witness :
  lines_of
    (counting_down_to
       (mkevent (mkdate 2026 2 6) (mkdate 2026 2 22) "winter" "Milan-Cortina")
       95)
  = lines_of
      (counting_down_to
         (mkevent (mkdate 2030 2 8) (mkdate 2030 2 24) "winter" "TBD") 95).
Proof.
  apply message_determines_lines. reflexivity.
Defined.

(** *** The text block fits the height *)

(** The reduced line height [int(lh * (avail / (n * lh)))]: with it, [n]
    lines take at most [avail] pixels. *)
Lemma scaled_line_height_fits (avail n lh : Z) :
  0 < n -> 0 < lh -> 0 < avail -> avail < n * lh -> n * lh < 2 ^ 50 ->
  exists f z,
    int_truediv avail (n * lh) = Ok f
    /\ obind (num_mul (NInt lh) (NFloat f)) num_int = Ok z
    /\ 0 <= z < lh /\ z * n <= avail.
Proof.
  intros Hn Hlh Ha Hlt Hb.
  assert (Hlh50 : 0 < lh < 2 ^ 50) by nia.
  destruct (int_truediv_val avail (n * lh)) as (f & Ef & Nf & Vf); [lia|lia|].
  destruct (float_of_int_val lh Hlh50) as (fx & Efx & Nfx & Vfx).
  exists f. cbn [num_mul]. rewrite Efx. cbn [obind num_int].
  destruct (fmul_val fx f) as (m & e & Em & Vm).
  { eapply normal_in_weaken; [| |exact Nfx]; lia. }
  { eapply normal_in_weaken; [| |exact Nf]; lia. }
  rewrite Em in *.
  remember (avail / n) as k eqn:Ek.
  assert (Hk : k * n <= avail < k * n + n).
  { subst k. pose proof (Z.div_mod avail n ltac:(lia)).
    pose proof (Z.mod_pos_bound avail n Hn). nia. }
  destruct (int_of_float_le m e k) as (z & Ez & Bz).
  2:{ exists z. split; [exact Ef|]. split; [exact Ez|]. nia. }
  pose proof (normal_in_pos _ _ _ Nf) as Pf.
  pose proof (normal_in_pos _ _ _ Nfx) as Pfx.
  assert (HA : (inject_Z avail < 1125899906842624)%Q).
  { change 1125899906842624%Q with (inject_Z (2 ^ 50)). rewrite <- Zlt_Qlt. lia. }
  assert (HA0 : (0 < inject_Z avail)%Q) by (rewrite <- (Zlt_Qlt 0); lia).
  assert (HN0 : (0 < inject_Z n)%Q) by (rewrite <- (Zlt_Qlt 0); lia).
  assert (HL0 : (0 < inject_Z lh)%Q) by (rewrite <- (Zlt_Qlt 0); lia).
  assert (HK : (inject_Z avail + 1 <= inject_Z n * inject_Z (k + 1))%Q).
  { rewrite <- inject_Z_mult. change 1%Q with (inject_Z 1).
    rewrite <- inject_Z_plus, <- Zle_Qle. lia. }
  rewrite inject_Z_mult in Vf.
  change (pow2 (-52)) with (1 # 4503599627370496)%Q in *.
  set (V := fval (S754_finite false m e)) in *.
  set (FX := fval fx) in *. set (F := fval f) in *.
  set (A := inject_Z avail) in *. set (N := inject_Z n) in *.
  set (L := inject_Z lh) in *. set (K1 := inject_Z (k + 1)) in *.
  set (u := (1 # 4503599627370496)%Q) in *.
  assert (H1 : (FX * F <= L * (1 + u) * F)%Q)
    by (apply Qmult_le_compat_r; [exact Vfx|lra]).
  assert (H2 : (V <= L * F * (1 + u) * (1 + u))%Q).
  { assert (H : (FX * F * (1 + u) <= L * (1 + u) * F * (1 + u))%Q)
      by (apply Qmult_le_compat_r; [exact H1|unfold u; lra]).
    assert (E : (L * (1 + u) * F * (1 + u) == L * F * (1 + u) * (1 + u))%Q) by ring.
    lra. }
  assert (H3 : (V * N <= L * F * (1 + u) * (1 + u) * N)%Q)
    by (apply Qmult_le_compat_r; [exact H2|lra]).
  assert (H4 : (L * F * (1 + u) * (1 + u) * N
                == F * (N * L) * ((1 + u) * (1 + u)))%Q) by ring.
  assert (H5 : (F * (N * L) * ((1 + u) * (1 + u))
                <= A * (1 + u) * ((1 + u) * (1 + u)))%Q)
    by (apply Qmult_le_compat_r; [exact Vf|unfold u; lra]).
  assert (H6 : (A * (1 + u) * ((1 + u) * (1 + u)) < A + 1)%Q) by (unfold u; nra).
  assert (H7 : (V * N < N * K1)%Q) by lra.
  nra.
Qed.

Lemma half_margin (x : Z) : 4 <= x -> 2 <= x / 2 /\ x / 2 <= x - 2.
Proof.
  intros H. pose proof (Z.div_mod x 2 ltac:(lia)).
  pose proof (Z.mod_pos_bound x 2 ltac:(lia)). lia.
Qed.

(** The end of [_calculate_text_layout] on a selection of [n] lines of
    height [lh]. *)
Lemma fit_to_height_fits (height n lh : Z) (f : pil_font) (us : bool) :
  0 < n -> 0 < lh -> n * lh < 2 ^ 50 -> 4 < height ->
  exists lay,
    fit_to_height height n (f, lh, n * lh, us) = Ok lay
    /\ 0 <= line_height lay <= lh
    /\ (n * lh <= height - 4 -> line_height lay = lh)
    /\ total_text_height lay = line_height lay * n
    /\ total_text_height lay <= height - 4
    /\ 2 <= start_y lay
    /\ start_y lay + total_text_height lay <= height - 2.
Proof.
  intros Hn Hlh Hb Hh. unfold fit_to_height.
  destruct (Z.ltb_spec (height - 4) (n * lh)) as [Hlt|Hle].
  - destruct (scaled_line_height_fits (height - 4) n lh)
      as (sf & z & Esf & Ez & Bz & Hz); try lia.
    rewrite Esf. cbn [obind]. rewrite Ez. cbn [obind].
    eexists. split; [reflexivity|].
    cbn [line_height total_text_height start_y].
    destruct (half_margin (height - z * n)) as [H1 H2]; [lia|].
    repeat split; lia.
  - cbn [obind]. eexists. split; [reflexivity|].
    cbn [line_height total_text_height start_y].
    destruct (half_margin (height - n * lh)) as [H1 H2]; [lia|].
    repeat split; lia.
Qed.

(** What the font loop and its fallback leave: a font of the display
    manager with its line height, or the extra-small font with line height
    8; the total height is the number of lines times the line height. *)
Lemma select_font_result (width : Z) (lines : list string) (h : host)
  (w : world) :
  lines <> [] ->
  (forall line, In line lines -> len line < 2 ^ 50) ->
  exists f lh us,
    fst (select_font width lines h w)
    = Ok (f, lh, Z.of_nat (List.length lines) * lh, us)
    /\ (lh = 8
        \/ exists name, In (name, f, us) (font_options h)
                        /\ lh = font_line_height f us).
Proof.
  intros Hne Hlen. rewrite select_font_run. cbv zeta.
  destruct (fits_width_returns h (trace w) lines (width - width / 2 - 4)
              (regular_font h) false Hne Hlen) as [b1 ->].
  destruct (fits_width_returns h
              (trace w ++ [GetTextWidth test_text (regular_font h)]) lines
              (width - width / 2 - 4) (small_font h) true Hne Hlen) as [b2 ->].
  destruct (fits_width_returns h
              ((trace w ++ [GetTextWidth test_text (regular_font h)])
               ++ [GetTextWidth test_text (small_font h)]) lines
              (width - width / 2 - 4) (extra_small_font h) true Hne Hlen)
    as [b3 ->].
  cbn [obind]. unfold font_options.
  destruct b1, b2, b3; unfold taken_if_taller;
    cbn [best_font best_line_height best_total_height best_use_small];
    repeat match goal with
           | |- context [if ?a <? ?b then _ else _] => destruct (a <? b)
           end;
    cbn [best_font best_line_height best_total_height best_use_small];
    eexists _, _, _; (split; [reflexivity|]);
    first [ left; reflexivity
          | right; eexists; split; [left; reflexivity|reflexivity]
          | right; eexists; split; [right; left; reflexivity|reflexivity]
          | right; eexists; split; [right; right; left; reflexivity|reflexivity] ].
Qed.

Lemma calculate_text_layout_fst (width height : Z) (lines : list string)
  (h : host) (w : world) :
  fst (_calculate_text_layout width height lines h w)
  = obind (fst (select_font width lines h w))
      (fit_to_height height (Z.of_nat (List.length lines))).
Proof.
  unfold _calculate_text_layout. rewrite bind_unfold.
  destruct (select_font width lines h w) as [[sel|e] w1]; reflexivity.
Qed.

(** X10.  For a display higher than 4 pixels, fonts with a positive line
    height (below [2^40]) and a non-empty list of fewer than 1024 lines
    (each shorter than [2^50] characters), [_calculate_text_layout] returns,
    whatever [get_text_width] returns or raises, a layout whose text block
    fits the display vertically: the line height
    is not negative, the total height is the line height times the number
    of lines and is at most [height - 4], and the block starts at least 2
    pixels from the top and ends at least 2 pixels from the bottom. *)
Theorem text_block_fits_height (width height : Z) (lines : list string)
  (h : host) (w : world) :
  lines <> [] ->
  (List.length lines < 1024)%nat ->
  (forall line, In line lines -> len line < 2 ^ 50) ->
  (forall name f us,
      In (name, f, us) (font_options h) ->
      0 < font_line_height f us < 2 ^ 40) ->
  4 < height ->
  exists lay,
    fst (_calculate_text_layout width height lines h w) = Ok lay
    /\ 0 <= line_height lay
    /\ total_text_height lay = line_height lay * Z.of_nat (List.length lines)
    /\ total_text_height lay <= height - 4
    /\ 2 <= start_y lay
    /\ start_y lay + total_text_height lay <= height - 2.
Proof.
  intros Hne Hn Hlen Hfonts Hh.
  destruct (select_font_result width lines h w Hne Hlen)
    as (f & lh & us & Esel & Hlh).
  assert (Blh : 0 < lh < 2 ^ 40).
  { destruct Hlh as [->|(name & Hin & ->)]; [lia|]. exact (Hfonts _ _ _ Hin). }
  assert (Hn0 : 0 < Z.of_nat (List.length lines) < 1024).
  { destruct lines; [contradiction|]. cbn [List.length] in *. lia. }
  destruct (fit_to_height_fits height (Z.of_nat (List.length lines)) lh f us)
    as (lay & Elay & B1 & _ & B2 & B3 & B4 & B5); try lia.
  { change (2 ^ 50) with (1024 * 2 ^ 40). nia. }
  exists lay. rewrite calculate_text_layout_fst, Esel. cbn [obind].
  repeat split; try assumption; lia.
Qed.

Lemma text_block_fits_height_witness :
  let h := wide_panel (mkdate 2025 11 3) in
  exists lay,
    fst (_calculate_text_layout 128 32 countdown_lines h (constructed h []))
    = Ok lay
    /\ 0 <= line_height lay
    /\ total_text_height lay
       = line_height lay * Z.of_nat (List.length countdown_lines)
    /\ total_text_height lay <= 32 - 4
    /\ 2 <= start_y lay
    /\ start_y lay + total_text_height lay <= 32 - 2.
Proof.
  apply (text_block_fits_height 128 32 countdown_lines
           (wide_panel (mkdate 2025 11 3))).
  - discriminate.
  - cbn. lia.
  - intros line Hin. cbn in Hin.
    repeat (destruct Hin as [<- | Hin]; [vm_compute; reflexivity|]).
    contradiction.
  - intros name f us Hin. cbn in Hin.
    repeat (destruct Hin as [[= <- <- <-] | Hin]; [vm_compute; split; reflexivity|]).
    contradiction.
  - lia.
Defined.

(** *** The programmatic rings *)

Lemma draw_ring_run (x0 y r i : Z) (color : Z * Z * Z) (h : host) (w : world) :
  (forall tr c, fault h tr c = None) ->
  0 <= x0 < 2 ^ 50 -> 0 <= i * r < 2 ^ 50 -> 0 <= r < 2 ^ 50 ->
  exists xl xr,
    draw_ring x0 y r i color h w
    = (Ok tt,
       record_call
         (Ellipse [NFloat xl; NInt (y - r); NFloat xr; NInt (y + r)] color
            (Z.max 1 (r / 8))) w).
Proof.
  intros Hf Hx0 Hir Hr.
  destruct (float_of_int_returns (i * r) Hir) as [fo Efo].
  destruct (float_of_int_returns x0 Hx0) as [fx Efx].
  destruct (float_of_int_returns r Hr) as [fr Efr].
  unfold draw_ring. rewrite bind_unfold. unfold lift at 1.
  cbn [num_mul]. rewrite Efo. cbn [obind].
  rewrite bind_unfold. unfold lift at 1. cbn [num_add]. rewrite Efx.
  cbn [obind].
  rewrite bind_unfold. unfold lift at 1. cbn [num_sub]. rewrite Efr.
  cbn [obind].
  rewrite bind_unfold. unfold lift at 1. cbn [num_add]. rewrite Efr.
  cbn [obind].
  unfold host_call. rewrite Hf. eexists _, _. reflexivity.
Qed.

(** X11.  When no call raises and the sides are within [0, 2^50),
    [_draw_olympics_rings_programmatic] creates one RGBA image of the
    requested size and draws exactly five ellipses on it, in the colours
    blue, black, red (top row) and yellow, green (bottom row), all with the
    line width [max(1, ring_radius // 8)]; the top row spans the rows
    [center_y - 2 r, center_y] and the bottom row [center_y, center_y + 2 r];
    it returns an RGBA image of the requested size and changes no
    attribute. *)
Theorem rings_drawn (width height : Z) (h : host) (w : world) :
  (forall tr c, fault h tr c = None) ->
  0 <= width < 2 ^ 50 -> 0 <= height < 2 ^ 50 ->
  let r := Z.min width height / 6 in
  let cy := height / 2 in
  let lw := Z.max 1 (r / 8) in
  exists l1 r1 l2 r2 l3 r3 l4 r4 l5 r5,
    _draw_olympics_rings_programmatic width height h w
    = (Ok (mkimage width height "RGBA"),
       mkworld (self w)
         (trace w
          ++ [ ImageNew "RGBA" width height;
               Ellipse [NFloat l1; NInt (cy - r - r); NFloat r1; NInt (cy - r + r)]
                 (0, 129, 200) lw;
               Ellipse [NFloat l2; NInt (cy - r - r); NFloat r2; NInt (cy - r + r)]
                 (0, 0, 0) lw;
               Ellipse [NFloat l3; NInt (cy - r - r); NFloat r3; NInt (cy - r + r)]
                 (255, 20, 24) lw;
               Ellipse [NFloat l4; NInt (cy + r - r); NFloat r4; NInt (cy + r + r)]
                 (255, 195, 0) lw;
               Ellipse [NFloat l5; NInt (cy + r - r); NFloat r5; NInt (cy + r + r)]
                 (0, 158, 96) lw ])).
Proof.
  intros Hf Hw Hh. cbv zeta.
  remember (Z.min width height / 6) as r eqn:Er.
  assert (Hr : 0 <= r /\ 6 * r <= width /\ 6 * r <= height).
  { subst r. pose proof (Z.div_mod (Z.min width height) 6 ltac:(lia)).
    pose proof (Z.mod_pos_bound (Z.min width height) 6 ltac:(lia)). lia. }
  assert (Hcx : 3 * r <= width / 2 <= width).
  { pose proof (Z.div_mod width 2 ltac:(lia)).
    pose proof (Z.mod_pos_bound width 2 ltac:(lia)). lia. }
  unfold _draw_olympics_rings_programmatic. rewrite <- Er.
  rewrite bind_unfold. unfold host_call at 1. rewrite Hf. cbv beta iota.
  cbn [firstn skipn ring_colors draw_rings].
  set (w0 := record_call (ImageNew "RGBA" width height) w).
  destruct (draw_ring_run (width / 2 - r) (height / 2 - r) r 0 (0, 129, 200)
              h w0 Hf) as (l1 & r1 & E1); try lia.
  destruct (draw_ring_run (width / 2 - r) (height / 2 - r) r (0 + 1) (0, 0, 0)
              h (record_call
                   (Ellipse [NFloat l1; NInt (height / 2 - r - r); NFloat r1;
                             NInt (height / 2 - r + r)] (0, 129, 200)
                      (Z.max 1 (r / 8))) w0) Hf) as (l2 & r2 & E2); try lia.
  destruct (draw_ring_run (width / 2 - r) (height / 2 - r) r (0 + 1 + 1)
              (255, 20, 24) h
              (record_call
                 (Ellipse [NFloat l2; NInt (height / 2 - r - r); NFloat r2;
                           NInt (height / 2 - r + r)] (0, 0, 0)
                    (Z.max 1 (r / 8)))
                 (record_call
                    (Ellipse [NFloat l1; NInt (height / 2 - r - r); NFloat r1;
                              NInt (height / 2 - r + r)] (0, 129, 200)
                       (Z.max 1 (r / 8))) w0)) Hf) as (l3 & r3 & E3); try lia.
  set (w3 := record_call
               (Ellipse [NFloat l3; NInt (height / 2 - r - r); NFloat r3;
                         NInt (height / 2 - r + r)] (255, 20, 24)
                  (Z.max 1 (r / 8)))
               (record_call
                  (Ellipse [NFloat l2; NInt (height / 2 - r - r); NFloat r2;
                            NInt (height / 2 - r + r)] (0, 0, 0)
                     (Z.max 1 (r / 8)))
                  (record_call
                     (Ellipse [NFloat l1; NInt (height / 2 - r - r); NFloat r1;
                               NInt (height / 2 - r + r)] (0, 129, 200)
                        (Z.max 1 (r / 8))) w0))) in *.
  destruct (draw_ring_run (width / 2) (height / 2 + r) r 0 (255, 195, 0)
              h w3 Hf) as (l4 & r4 & E4); try lia.
  destruct (draw_ring_run (width / 2) (height / 2 + r) r (0 + 1) (0, 158, 96)
              h (record_call
                   (Ellipse [NFloat l4; NInt (height / 2 + r - r); NFloat r4;
                             NInt (height / 2 + r + r)] (255, 195, 0)
                      (Z.max 1 (r / 8))) w3) Hf) as (l5 & r5 & E5); try lia.
  exists l1, r1, l2, r2, l3, r3, l4, r4, l5, r5.
  repeat (rewrite bind_unfold;
          first [rewrite E1 | rewrite E2 | rewrite E3 | rewrite E4 | rewrite E5
                | unfold ret at 1];
          cbv beta iota).
  unfold ret, w3, w0, record_call. cbn [self trace].
  rewrite <- !app_assoc. reflexivity.
Qed.

Lemma rings_drawn_witness :
  let h := panel (mkdate 2025 11 3) in
  let w := constructed h [] in
  exists l1 r1 l2 r2 l3 r3 l4 r4 l5 r5,
    _draw_olympics_rings_programmatic 28 28 h w
    = (Ok (mkimage 28 28 "RGBA"),
       mkworld (self w)
         (trace w
          ++ [ ImageNew "RGBA" 28 28;
               Ellipse [NFloat l1; NInt (28 / 2 - Z.min 28 28 / 6 - Z.min 28 28 / 6);
                        NFloat r1;
                        NInt (28 / 2 - Z.min 28 28 / 6 + Z.min 28 28 / 6)]
                 (0, 129, 200) (Z.max 1 (Z.min 28 28 / 6 / 8));
               Ellipse [NFloat l2; NInt (28 / 2 - Z.min 28 28 / 6 - Z.min 28 28 / 6);
                        NFloat r2;
                        NInt (28 / 2 - Z.min 28 28 / 6 + Z.min 28 28 / 6)]
                 (0, 0, 0) (Z.max 1 (Z.min 28 28 / 6 / 8));
               Ellipse [NFloat l3; NInt (28 / 2 - Z.min 28 28 / 6 - Z.min 28 28 / 6);
                        NFloat r3;
                        NInt (28 / 2 - Z.min 28 28 / 6 + Z.min 28 28 / 6)]
                 (255, 20, 24) (Z.max 1 (Z.min 28 28 / 6 / 8));
               Ellipse [NFloat l4; NInt (28 / 2 + Z.min 28 28 / 6 - Z.min 28 28 / 6);
                        NFloat r4;
                        NInt (28 / 2 + Z.min 28 28 / 6 + Z.min 28 28 / 6)]
                 (255, 195, 0) (Z.max 1 (Z.min 28 28 / 6 / 8));
               Ellipse [NFloat l5; NInt (28 / 2 + Z.min 28 28 / 6 - Z.min 28 28 / 6);
                        NFloat r5;
                        NInt (28 / 2 + Z.min 28 28 / 6 + Z.min 28 28 / 6)]
                 (0, 158, 96) (Z.max 1 (Z.min 28 28 / 6 / 8)) ])).
Proof.
  apply (rings_drawn 28 28 (panel (mkdate 2025 11 3))
           (constructed (panel (mkdate 2025 11 3)) [])).
  - intros tr c. reflexivity.
  - split; [lia|reflexivity].
  - split; [lia|reflexivity].
Defined.

(** *** Construction *)

Lemma load_first_logo_run (names : list string) (h : host) (w : world) :
  load_first_logo names h w
  = match first_existing h names with
    | None => (Ok false, w)
    | Some (name, Ok img) =>
        (Ok true,
         mkworld (set_logo_image (Some img) (self w))
           (trace w ++ [Log INFO ("Loaded Olympics logo image from "
                                  ++ plugin_dir h ++ "/" ++ name)%string]))
    | Some (_, Raise e) => (Raise e, w)
    end.
Proof.
  induction names as [|name names IH]; [reflexivity|].
  cbn [load_first_logo first_existing]. rewrite bind_unfold.
  unfold ask at 1. cbv beta iota.
  destruct (logo_file h name) as [[img|e]|]; [reflexivity|reflexivity|].
  exact IH.
Qed.

Lemma load_logo_image_run (h : host) (w : world) :
  exists msg,
    _load_logo_image h w
    = (Ok tt,
       mkworld (set_logo_image (bundled_logo h) (self w))
         (trace w ++ [Log (load_log_level h) msg])).
Proof.
  unfold _load_logo_image, try_except. rewrite bind_unfold, load_first_logo_run.
  unfold bundled_logo, load_log_level.
  destruct (first_existing h possible_names) as [[name [img|e]]|];
    cbn; eexists; reflexivity.
Qed.

(** X12.  [_load_logo_image] never raises.  It takes the first of the six
    candidate names, in their order, for which a file exists: when that
    file opens, [logo_image] is its image (INFO line); when opening it
    raises, no later name is tried and [logo_image] is [None] (WARNING
    line); when no file exists, [logo_image] is [None] (DEBUG line).  No
    other attribute changes and exactly one line is logged. *)
Theorem load_logo_image_first_existing (h : host) (w : world) :
  fst (_load_logo_image h w) = Ok tt
  /\ self (snd (_load_logo_image h w)) = set_logo_image (bundled_logo h) (self w)
  /\ exists msg,
      trace (snd (_load_logo_image h w))
      = trace w ++ [Log (load_log_level h) msg].
Proof.
  destruct (load_logo_image_run h w) as [msg ->]. cbn [fst snd self trace].
  repeat split. exists msg. reflexivity.
Qed.

(** X13.  [__init__] never raises, whatever the files of the plugin
    directory and whatever the configuration, provided the configured
    [text_color], when it is a list, holds no infinite float ([NaN] and any
    other value are allowed; [int] of an infinity raises [OverflowError],
    which [_parse_color] does not catch).  It leaves [text_color] as the
    value [_parse_color] returns for the configured colour (white by
    default), [logo_size] as configured ([None] by default), the countdown
    at its defaults ([days_until = 0], not active, no current Games, type
    "opening"), no calculated date and no displayed message, and
    [logo_image] as [_load_logo_image] leaves it; its last log line is
    "Olympics countdown plugin initialized". *)
Theorem init_state (config : list (string * pyval)) (h : host) (w0 : world) :
  no_infinite_item (config_get config "text_color" default_text_color) = true ->
  exists color msg,
    _parse_color h (config_get config "text_color" default_text_color)
    = Ok color
    /\ __init__ config h w0
       = (Ok tt,
          mkworld
            (mkplugin color (config_get config "logo_size" VNone) 0 false None
               "opening" (bundled_logo h) None None)
            (trace w0
             ++ [Log (load_log_level h) msg;
                 Log INFO "Olympics countdown plugin initialized"])).
Proof.
  intros Hfin.
  destruct (parse_color_returns h
              (config_get config "text_color" default_text_color) Hfin)
    as [color Ec].
  destruct (load_logo_image_run h
              (mkworld (mkplugin color (config_get config "logo_size" VNone)
                          0 false None "opening" None None None) (trace w0)))
    as [msg Hload].
  exists color, msg. split; [exact Ec|].
  unfold __init__. rewrite bind_unfold. unfold ask at 1. cbv beta iota.
  rewrite bind_unfold. unfold lift at 1. rewrite Ec.
  rewrite bind_unfold. unfold modify_self at 1. cbv beta iota.
  rewrite bind_unfold. cbn [self trace]. rewrite Hload.
  unfold log, record_call.
  cbn [set_logo_image self trace text_color logo_size days_until
       is_olympics_active current_olympics countdown_type
       last_calculated_date last_displayed_message].
  rewrite <- app_assoc. reflexivity.
Qed.

Lemma init_state_witness :
  let config := [("text_color", VList [VInt 255; VNaN; VStr "0"]);
                 ("logo_size", VInf false)] in
  let h := panel (mkdate 2025 11 3) in
  exists color msg,
    _parse_color h (config_get config "text_color" default_text_color)
    = Ok color
    /\ __init__ config h unset
       = (Ok tt,
          mkworld
            (mkplugin color (config_get config "logo_size" VNone) 0 false None
               "opening" (bundled_logo h) None None)
            (trace unset
             ++ [Log (load_log_level h) msg;
                 Log INFO "Olympics countdown plugin initialized"])).
Proof.
  apply (init_state [("text_color", VList [VInt 255; VNaN; VStr "0"]);
                     ("logo_size", VInf false)]
           (panel (mkdate 2025 11 3)) unset).
  reflexivity.
Defined.

(** An infinite item is what [__init__] does not survive: [int] of it
    raises [OverflowError], which [_parse_color] does not catch. *)
Example init_raises_on_infinite_colour :
  fst (__init__ [("text_color", VList [VInt 255; VInf false; VInt 0])]
         (panel (mkdate 2025 11 3)) unset)
  = Raise (Exn OverflowError "cannot convert float infinity to integer").
Proof. reflexivity. Qed.

(** X14.  [_parse_color] is idempotent on configuration values: applied
    to a value it has returned, it returns that value again.  So a colour
    that was normalised once (a tuple of ints, a tuple of the raw items, or
    the raw value of a non-iterable) is stable; where the first pass raises
    (an infinite item), there is no value for a second pass. *)
Theorem parse_color_idempotent (h : host) (raw : pyval) :
  obind (_parse_color h raw) (_parse_color h) = _parse_color h raw.
Proof.
  assert (Hints : forall zs,
             _parse_color h (VTuple (map VInt zs)) = Ok (VTuple (map VInt zs))).
  { intros zs. unfold _parse_color. cbn [py_iter obind].
    rewrite omap_py_int_ints. reflexivity. }
  assert (Hraw : forall l e,
             omap (py_int h) l = Raise e ->
             caught [ValueError; TypeError] e = true ->
             _parse_color h (VTuple l) = Ok (VTuple l)).
  { intros l e He Hc. unfold _parse_color. cbn [py_iter obind]. rewrite He.
    cbn [obind]. rewrite Hc. reflexivity. }
  assert (Hiter : forall l,
             obind (match obind (omap (py_int h) l)
                            (fun zs => Ok (VTuple (map VInt zs))) with
                    | Ok t => Ok t
                    | Raise e =>
                        if caught [ValueError; TypeError] e
                        then Ok (VTuple l) else Raise e
                    end) (_parse_color h)
             = match obind (omap (py_int h) l)
                       (fun zs => Ok (VTuple (map VInt zs))) with
               | Ok t => Ok t
               | Raise e =>
                   if caught [ValueError; TypeError] e
                   then Ok (VTuple l) else Raise e
               end).
  { intros l. destruct (omap (py_int h) l) as [zs|e] eqn:E; cbn [obind].
    - apply Hints.
    - destruct (caught [ValueError; TypeError] e) eqn:Ec; cbn [obind];
        [exact (Hraw l e E Ec)|reflexivity]. }
  destruct raw; try reflexivity; unfold _parse_color at 1 3;
    cbn [py_iter obind]; apply Hiter.
Qed.

(** *** validate_config: what it logs *)

(** X15.  On a state whose [text_color] holds no infinite float, or was
    produced by [_parse_color] (as every state [__init__] leaves is),
    [validate_config] never raises and changes no attribute.  It logs
    nothing when it accepts the configuration and nothing when the parent's
    validation has failed; every rejection by one of its own checks logs
    exactly one ERROR line. *)
Theorem validate_config_logs (h : host) (w : world) :
  no_infinite_item (text_color (self w)) = true
  \/ (exists raw, _parse_color h raw = Ok (text_color (self w))) ->
  exists r cs,
    validate_config h w = (Ok r, mkworld (self w) (trace w ++ cs))
    /\ if r then cs = []
       else if parent_validate_config h
            then exists msg, cs = [Log ERROR msg]
            else cs = [].
Proof.
  intros Hstate.
  assert (Hcaught : forall l e,
             text_color (self w) = VTuple l ->
             omap (py_int h) l = Raise e ->
             caught [ValueError; TypeError] e = true).
  { intros l e Et Eo. destruct Hstate as [Hfin|[raw Hparse]].
    - rewrite Et in Hfin. cbn [no_infinite_item] in Hfin.
      apply (omap_py_int_raise h l e Eo).
      now destruct (existsb is_infinite l).
    - rewrite Et in Hparse.
      destruct (parse_color_cases h raw _ Hparse)
        as [[zs Hv] | [(l' & e' & Hv & Hraise & Hc) | Hv]].
      + injection Hv as ->. rewrite omap_py_int_ints in Eo. discriminate.
      + injection Hv as <-. congruence.
      + exfalso. eapply Hv. reflexivity. }
  unfold validate_config. rewrite bind_unfold. unfold ask at 1.
  cbv beta iota. rewrite bind_unfold. unfold get_self at 1. cbv beta iota.
  assert (Hnil : forall r : bool,
             ret r h w = (Ok r, mkworld (self w) (trace w ++ []))).
  { intros r. unfold ret. rewrite app_nil_r. destruct w. reflexivity. }
  assert (Hlog : forall msg,
             (log ERROR msg;; ret false) h w
             = (Ok false, mkworld (self w) (trace w ++ [Log ERROR msg]))).
  { intros msg. reflexivity. }
  destruct (parent_validate_config h) eqn:Ep; cbn [negb].
  2:{ exists false, []. split; [apply Hnil|reflexivity]. }
  destruct (text_color (self w)) as [| | | | | |l| | |] eqn:Et;
    try (exists false; eexists; split; [apply Hlog|eexists; reflexivity]).
  destruct l as [|c1 [|c2 [|c3 [|c4 l]]]];
    try (exists false; eexists; split; [apply Hlog|eexists; reflexivity]).
  rewrite bind_unfold. unfold try_except_in. rewrite bind_unfold.
  unfold lift at 1.
  destruct (omap (py_int h) [c1; c2; c3]) as [ints|e] eqn:Eo.
  - destruct (forallb in_color_range ints); cbn [negb].
    + unfold ret at 1. cbv beta iota. cbn [negb].
      destruct (is_None (logo_size (self w))); cbn [negb].
      * exists true, []. split; [apply Hnil|reflexivity].
      * destruct (negb (is_int_or_float (logo_size (self w)))
                  || le_zero (logo_size (self w))).
        -- exists false. eexists. split; [apply Hlog|eexists; reflexivity].
        -- exists true, []. split; [apply Hnil|reflexivity].
    + exists false. eexists. split; [|eexists; reflexivity]. reflexivity.
  - change (existsb (exn_class_eqb (exn_cls e)) [ValueError; TypeError])
      with (caught [ValueError; TypeError] e).
    rewrite (Hcaught _ e eq_refl Eo).
    exists false. eexists. split; [|eexists; reflexivity]. reflexivity.
Qed.

Lemma validate_config_logs_witness :
  let h := panel (mkdate 2025 11 3) in
  let w := constructed h [("text_color", VList [VInt 255; VNaN; VInt 0]);
                          ("logo_size", VNaN)] in
  exists r cs,
    validate_config h w = (Ok r, mkworld (self w) (trace w ++ cs))
    /\ if r then cs = []
       else if parent_validate_config h
            then exists msg, cs = [Log ERROR msg]
            else cs = [].
Proof.
  apply (validate_config_logs (panel (mkdate 2025 11 3))
           (constructed (panel (mkdate 2025 11 3))
              [("text_color", VList [VInt 255; VNaN; VInt 0]);
               ("logo_size", VNaN)])).
  left. reflexivity.
Defined.

(** *** get_info *)

Lemma dict_get_set_same (d : list (string * info_value)) (k : string)
  (v : info_value) :
  dict_get (dict_set d k v) k = Some v.
Proof.
  induction d as [|[k' v'] d IH]; cbn [dict_set dict_get].
  - rewrite String.eqb_refl. reflexivity.
  - destruct (String.eqb k' k) eqn:E; cbn [dict_get]; rewrite E; auto.
Qed.

Lemma dict_get_set_other (d : list (string * info_value)) (k k' : string)
  (v : info_value) :
  k <> k' -> dict_get (dict_set d k v) k' = dict_get d k'.
Proof.
  intros Hne. induction d as [|[k0 v0] d IH]; cbn [dict_set dict_get].
  - destruct (String.eqb_spec k k'); [contradiction|reflexivity].
  - destruct (String.eqb_spec k0 k) as [->|Hk]; cbn [dict_get].
    + destruct (String.eqb_spec k k'); [contradiction|reflexivity].
    + rewrite IH. reflexivity.
Qed.

(** X16.  [get_info] returns the parent's info dict with the six plugin
    entries written over it: each of the six keys maps to the current value
    of its attribute, whatever the parent had stored under that key, and
    every other key keeps the parent's value.  It changes no attribute and
    issues no call. *)
Theorem get_info_entries (parent_info : list (string * info_value))
  (h : host) (w : world) :
  exists info,
    get_info parent_info h w = (Ok info, w)
    /\ dict_get info "days_until" = Some (IVal (VInt (days_until (self w))))
    /\ dict_get info "is_olympics_active"
       = Some (IVal (VBool (is_olympics_active (self w))))
    /\ dict_get info "current_olympics"
       = Some (event_or_none (current_olympics (self w)))
    /\ dict_get info "countdown_type"
       = Some (IVal (VStr (countdown_type (self w))))
    /\ dict_get info "text_color" = Some (IVal (text_color (self w)))
    /\ dict_get info "logo_size" = Some (IVal (logo_size (self w)))
    /\ forall k, ~ In k info_keys -> dict_get info k = dict_get parent_info k.
Proof.
  eexists. split; [reflexivity|].
  unfold dict_update. cbn [fold_left fst snd].
  repeat split;
    try (rewrite ?dict_get_set_other by discriminate;
         apply dict_get_set_same).
  intros k Hk. unfold info_keys in Hk. cbn [In] in Hk.
  rewrite !dict_get_set_other; [reflexivity| | | | | |];
    intros <-; apply Hk; auto 10.
Qed.

(** *** The logo stays in the left half *)

Lemma rings_image (width height : Z) (h : host) (w w1 : world) (img : image) :
  _draw_olympics_rings_programmatic width height h w = (Ok img, w1) ->
  img = mkimage width height "RGBA".
Proof.
  unfold _draw_olympics_rings_programmatic. rewrite bind_unfold.
  destruct (host_call _ h w) as [[[]|e] w']; [|discriminate].
  rewrite bind_unfold.
  destruct (draw_rings _ _ _ _ _ h w') as [[[]|e] w'']; [|discriminate].
  rewrite bind_unfold.
  destruct (draw_rings _ _ _ _ _ h w'') as [[[]|e] w''']; [|discriminate].
  unfold ret. intros [= <- _]. reflexivity.
Qed.

(** The image [_get_logo_image] returns fits the box it was asked for. *)
Lemma get_logo_image_size (width height : Z) (h : host) (w w1 : world)
  (img : image) :
  0 < width < 2 ^ 50 -> 0 < height < 2 ^ 50 ->
  (forall logo, logo_image (self w) = Some logo ->
                0 < img_width logo < 2 ^ 50 /\ 0 < img_height logo < 2 ^ 50) ->
  _get_logo_image width height h w = (Ok img, w1) ->
  0 <= img_width img <= width /\ 0 <= img_height img <= height.
Proof.
  intros Hw Hh Hlogo Hrun.
  destruct (logo_image (self w)) as [logo|] eqn:El.
  - destruct (Hlogo logo eq_refl) as [Hiw Hih].
    destruct (scaled_size_fits width height (img_width logo) (img_height logo)
                Hw Hh Hiw Hih)
      as (_ & _ & nw & nh & _ & _ & _ & Es & Bw & Bh).
    destruct (get_logo_image_resized width height logo nw nh h w El Es)
      as [Himg _].
    rewrite (Himg img w1 Hrun). cbn [img_width img_height]. auto.
  - unfold _get_logo_image in Hrun. rewrite bind_unfold in Hrun.
    unfold get_self at 1 in Hrun. cbv beta iota in Hrun. rewrite El in Hrun.
    rewrite (rings_image _ _ _ _ _ _ Hrun). cbn [img_width img_height]. lia.
Qed.

Lemma redraw_paste_within (message : string) (lines : list string) (h : host)
  (w : world) :
  0 < dm_width h / 2 - 4 < 2 ^ 50 -> 0 < dm_height h - 4 < 2 ^ 50 ->
  (forall logo, logo_image (self w) = Some logo ->
                0 < img_width logo < 2 ^ 50 /\ 0 < img_height logo < 2 ^ 50) ->
  exists cs,
    trace (snd (redraw message lines h w)) = trace w ++ cs
    /\ forallb (paste_within h) cs = true.
Proof.
  intros Hw Hh Hlogo. unfold redraw.
  rewrite bind_unfold. unfold ask at 1. cbv beta iota zeta.
  rewrite bind_unfold. unfold host_call at 1.
  destruct (fault h (trace w) Clear) as [e|]; cbv beta iota.
  { exists [Clear]. cbn [snd]. split; reflexivity. }
  rewrite bind_unfold.
  destruct (get_logo_image_calls (paste_within h) (plain_paste_within h)
              (dm_width h / 2 - 2 * 2) (dm_height h - 2 * 2) h
              (record_call Clear w)) as (cs1 & Ht1 & Hp1).
  pose proof (get_logo_image_size (dm_width h / 2 - 2 * 2)
                (dm_height h - 2 * 2) h (record_call Clear w)) as Hsize.
  destruct (_get_logo_image _ _ h (record_call Clear w)) as [[img|e] w1];
    cbn [snd record_call trace] in Ht1; cbv beta iota.
  2:{ exists (Clear :: cs1). cbn [snd]. rewrite Ht1, <- app_assoc.
      split; [reflexivity|]. exact Hp1. }
  destruct (Hsize w1 img) as [Bw Bh]; [lia|lia|exact Hlogo|reflexivity|].
  set (paste := Paste img 2 2 (String.eqb (mode img) "RGBA")).
  assert (Hpaste : paste_within h paste = true).
  { unfold paste, paste_within. cbn [Z.eqb Pos.eqb andb].
    rewrite !andb_true_iff, !Z.leb_le. lia. }
  rewrite bind_unfold. unfold host_call at 1.
  destruct (fault h (trace w1) paste) as [e|]; cbv beta iota.
  { exists (Clear :: cs1 ++ [paste]). cbn [snd record_call trace].
    rewrite Ht1, <- !app_assoc. split; [reflexivity|].
    cbn [forallb]. rewrite forallb_app, Hp1. cbn [forallb]. rewrite Hpaste.
    reflexivity. }
  match goal with
  | |- context [bind ?c ?k h (record_call paste w1)] =>
      assert (Hrest : calls_in (paste_within h) (bind c k))
  end.
  { calls.
    - apply calculate_text_layout_calls, plain_paste_within.
    - apply draw_lines_calls, plain_paste_within. }
  destruct (Hrest h (record_call paste w1)) as (cs2 & Ht2 & Hp2).
  exists (Clear :: cs1 ++ paste :: cs2).
  rewrite Ht2. cbn [record_call trace]. rewrite Ht1, <- !app_assoc.
  split; [reflexivity|].
  cbn [forallb]. rewrite forallb_app, Hp1. cbn [forallb].
  rewrite Hpaste, Hp2. reflexivity.
Qed.

(** X17.  On a display whose logo box is not empty ([width // 2 - 4] and
    [height - 4] positive, below [2^50]) and with a bundled logo, if any,
    whose sides are positive and below [2^50], every [paste] that
    [display] issues, whatever the host does, is made at (2, 2) with an
    image that stays inside the left half of the display, 2 pixels away
    from its edges: the logo never reaches the text half. *)
Theorem logo_stays_in_left_half (force_clear : bool) (h : host) (w : world) :
  0 < dm_width h / 2 - 4 < 2 ^ 50 -> 0 < dm_height h - 4 < 2 ^ 50 ->
  (forall logo, logo_image (self w) = Some logo ->
                0 < img_width logo < 2 ^ 50 /\ 0 < img_height logo < 2 ^ 50) ->
  exists cs,
    trace (snd (display force_clear h w)) = trace w ++ cs
    /\ forallb (paste_within h) cs = true.
Proof.
  intros Hw Hh Hlogo. destruct (display_run force_clear h w) as [_ ->].
  rewrite display_body_run.
  destruct (redraw_skipped force_clear (self w)).
  - exists []. rewrite app_nil_r. auto.
  - destruct (redraw_paste_within (message_of (self w)) (lines_of (self w))
                h w Hw Hh Hlogo) as (cs & Ht & Hp).
    destruct (redraw (message_of (self w)) (lines_of (self w)) h w)
      as [[[]|e] w1]; cbn [snd] in Ht.
    + exists cs. auto.
    + cbv zeta. cbn [trace]. eexists. rewrite Ht, <- !app_assoc.
      split; [reflexivity|].
      rewrite !forallb_app, Hp. cbn [forallb paste_within andb].
      apply attempted_forallb. reflexivity.
Qed.

Lemma logo_stays_in_left_half_witness :
  let h := logo_panel (mkdate 2025 11 3) in
  let w := constructed h [] in
  exists cs,
    trace (snd (display true h w)) = trace w ++ cs
    /\ forallb (paste_within h) cs = true.
Proof.
  apply (logo_stays_in_left_half true (logo_panel (mkdate 2025 11 3))
           (constructed (logo_panel (mkdate 2025 11 3)) [])).
  - split; reflexivity.
  - split; reflexivity.
  - intros logo Hl. vm_compute in Hl. injection Hl as <-.
    split; split; reflexivity.
Defined.

(** *** A failed redraw is tried again *)

Lemma redraw_starts_with_clear (message : string) (lines : list string)
  (h : host) (w : world) :
  exists cs, trace (snd (redraw message lines h w)) = trace w ++ Clear :: cs.
Proof.
  pose proof (redraw_run message lines h w) as Hr.
  destruct (redraw message lines h w) as [[[]|e] w1]; cbn [snd].
  - destruct Hr as (_ & logo_cs & img & lay & layout_cs & ->).
    eexists. cbn [app]. reflexivity.
  - destruct Hr as (_ & cs & ->). exists cs. reflexivity.
Qed.

(** X18.  A failure is not remembered as a drawn message: when a
    [display] call had to redraw (the message differed from the stored one)
    and its [try] block raised, the attributes are unchanged, so the next
    [display(force_clear=False)] starts a redraw again, beginning with
    [clear()]. *)
Theorem display_retries_after_failure (force_clear : bool) (h : host)
  (w : world) (e : exn) :
  redraw_skipped false (self w) = false ->
  fst (display_body force_clear h w) = Raise e ->
  let w1 := snd (display force_clear h w) in
  self w1 = self w
  /\ exists cs, trace (snd (display false h w1)) = trace w1 ++ Clear :: cs.
Proof.
  intros Hns Hraise. cbv zeta.
  assert (Hself : self (snd (display force_clear h w)) = self w).
  { destruct (display_run force_clear h w) as [_ ->]. revert Hraise.
    rewrite display_body_run.
    destruct (redraw_skipped force_clear (self w)); [discriminate|].
    pose proof (redraw_run (message_of (self w)) (lines_of (self w)) h w) as Hr.
    destruct (redraw (message_of (self w)) (lines_of (self w)) h w)
      as [[[]|e'] w1]; [discriminate|].
    intros _. destruct Hr as [Hs _]. exact Hs. }
  split; [exact Hself|].
  set (w1 := snd (display force_clear h w)) in *.
  destruct (display_run false h w1) as [_ ->].
  rewrite display_body_run, Hself, Hns.
  destruct (redraw_starts_with_clear (message_of (self w)) (lines_of (self w))
              h w1) as (cs & Ht).
  destruct (redraw (message_of (self w)) (lines_of (self w)) h w1)
    as [[[]|e'] w2]; cbn [snd] in Ht.
  - exists cs. exact Ht.
  - cbv zeta. cbn [trace]. eexists. rewrite Ht, <- !app_assoc. cbn [app].
    reflexivity.
Qed.

Lemma display_retries_after_failure_witness :
  let h := thin_logo_panel (mkdate 2025 11 3) in
  let w := constructed h [] in
  let w1 := snd (display false h w) in
  self w1 = self w
  /\ exists cs, trace (snd (display false h w1)) = trace w1 ++ Clear :: cs.
Proof.
  apply (display_retries_after_failure false
           (thin_logo_panel (mkdate 2025 11 3))
           (constructed (thin_logo_panel (mkdate 2025 11 3)) [])
           (Exn ValueError "height and width must be > 0")).
  - reflexivity.
  - vm_compute. reflexivity.
Defined.

(** *** The text stays inside the display *)

Lemma redraw_layout (message : string) (lines : list string) (h : host)
  (w w1 : world) :
  redraw message lines h w = (Ok tt, w1) ->
  exists w2 lay before after,
    fst (_calculate_text_layout (dm_width h) (dm_height h) lines h w2) = Ok lay
    /\ trace w1
       = before
         ++ text_calls h (self w) lay (dm_width h / 2)
              (dm_width h - dm_width h / 2) 0 lines
         ++ after.
Proof.
  unfold redraw.
  rewrite bind_unfold. unfold ask at 1. cbv beta iota zeta.
  rewrite bind_unfold. unfold host_call at 1.
  destruct (fault h (trace w) Clear) as [e|]; cbv beta iota; [discriminate|].
  rewrite bind_unfold.
  destruct (only_calls_get_logo_image (dm_width h / 2 - 2 * 2)
              (dm_height h - 2 * 2) h (record_call Clear w))
    as [Hs1 _].
  destruct (_get_logo_image _ _ h (record_call Clear w)) as [[img | e] w0];
    cbn [snd record_call self trace] in Hs1; cbv beta iota; [|discriminate].
  rewrite bind_unfold. unfold host_call at 1.
  set (paste := Paste img 2 2 (String.eqb (mode img) "RGBA")).
  destruct (fault h (trace w0) paste) as [e|]; cbv beta iota; [discriminate|].
  rewrite bind_unfold.
  destruct (only_calls_calculate_text_layout (dm_width h) (dm_height h) lines
              h (record_call paste w0)) as [Hs2 _].
  destruct (_calculate_text_layout _ _ lines h (record_call paste w0))
    as [[lay | e] w2] eqn:Elay; cbn [snd record_call self trace] in Hs2;
    cbv beta iota; [|discriminate].
  rewrite bind_unfold, draw_lines_as_calls.
  set (texts := text_calls h (self w2) lay (dm_width h / 2)
                  (dm_width h - dm_width h / 2) 0 lines).
  destruct (host_calls_run texts h w2) as [Hw3 Hok3].
  destruct (host_calls texts h w2) as [[[] | e] w3]; cbn [fst snd is_ok] in *;
    cbv beta iota; [|discriminate].
  rewrite (attempted_all_succeed h (trace w2) texts) in Hw3 by auto.
  rewrite bind_unfold. unfold host_call at 1.
  destruct (fault h (trace w3) UpdateDisplay) as [e|]; cbv beta iota;
    [discriminate|].
  rewrite bind_unfold. unfold modify_self at 1. cbv beta iota.
  unfold log. intros [= <-]. subst w3. cbn [record_call self trace].
  exists (record_call paste w0), lay, (trace w2),
    [UpdateDisplay; Log DEBUG ("Displayed: " ++ message)%string].
  rewrite Elay. split; [reflexivity|].
  assert (Etexts : texts = text_calls h (self w) lay (dm_width h / 2)
                     (dm_width h - dm_width h / 2) 0 lines)
    by (unfold texts; congruence).
  rewrite <- Etexts, <- !app_assoc. reflexivity.
Qed.

Lemma text_calls_inside (h : host) (s : plugin) (lay : layout)
  (lines : list string) (i : Z) :
  0 <= line_height lay -> 0 <= i ->
  2 <= start_y lay ->
  start_y lay + line_height lay * (i + Z.of_nat (List.length lines))
  <= dm_height h - 2 ->
  forallb (text_inside h lay)
    (text_calls h s lay (dm_width h / 2) (dm_width h - dm_width h / 2) i lines)
  = true.
Proof.
  intros Hlh. revert i. induction lines as [|line lines IH]; intros i Hi Hs He;
    [reflexivity|].
  cbn [text_calls forallb]. rewrite IH; try lia.
  2:{ cbn [List.length] in He. lia. }
  rewrite andb_true_r. cbn [List.length] in He.
  destruct (font_eqb (font lay) (extra_small_font h)); cbn [text_inside];
    rewrite Z.eqb_refl, !andb_true_iff, !Z.leb_le; repeat split; nia.
Qed.

Lemma text_calls_length (h : host) (s : plugin) (lay : layout) (rx rw : Z)
  (lines : list string) (i : Z) :
  List.length (text_calls h s lay rx rw i lines) = List.length lines.
Proof.
  revert i. induction lines as [|l ls IH]; intros i;
    cbn [text_calls List.length]; [reflexivity|]. rewrite IH. reflexivity.
Qed.

Lemma lines_of_count (s : plugin) :
  (2 <= List.length (lines_of s) <= 4)%nat.
Proof.
  destruct (message_and_lines_forms s)
    as [[_ ->]|[[_ ->]|[[_ ->]|[(n & _ & _ & ->)|(n & t & _ & _ & ->)]]]];
    cbn [List.length]; lia.
Qed.

(** X19.  For a display higher than 4 pixels, fonts with a positive line
    height (below [2^40]) and lines shorter than [2^50] characters: when
    [display] redraws and its [try] block completes, the [draw_text] calls
    it has issued, one per line, are all centred on the middle of the right
    half of the display, and each line starts at or below row 2 and, with
    the line height of the layout, ends at or above row [height - 2]. *)
Theorem text_stays_inside (force_clear : bool) (h : host) (w : world) :
  4 < dm_height h ->
  (forall name f us,
      In (name, f, us) (font_options h) ->
      0 < font_line_height f us < 2 ^ 40) ->
  (forall line, In line (lines_of (self w)) -> len line < 2 ^ 50) ->
  redraw_skipped force_clear (self w) = false ->
  fst (display_body force_clear h w) = Ok tt ->
  exists lay before after texts,
    trace (snd (display force_clear h w)) = before ++ texts ++ after
    /\ texts = text_calls h (self w) lay (dm_width h / 2)
                 (dm_width h - dm_width h / 2) 0 (lines_of (self w))
    /\ List.length texts = List.length (lines_of (self w))
    /\ forallb (text_inside h lay) texts = true.
Proof.
  intros Hh Hfonts Hlen Hns Hok.
  destruct (display_run force_clear h w) as [_ ->]. revert Hok.
  rewrite display_body_run, Hns.
  destruct (redraw (message_of (self w)) (lines_of (self w)) h w)
    as [[[]|e] w1] eqn:Er; [|discriminate].
  intros _.
  destruct (redraw_layout _ _ _ _ _ Er) as (w2 & lay & before & after & El & Ht).
  pose proof (lines_of_count (self w)) as Hn.
  assert (Hne : lines_of (self w) <> []).
  { intros E. rewrite E in Hn. cbn in Hn. lia. }
  destruct (select_font_result (dm_width h) (lines_of (self w)) h w2 Hne Hlen)
    as (f & lh & us & Esel & Hlh).
  assert (Blh : 0 < lh < 2 ^ 40).
  { destruct Hlh as [->|(name & Hin & ->)]; [lia|]. exact (Hfonts _ _ _ Hin). }
  destruct (fit_to_height_fits (dm_height h)
              (Z.of_nat (List.length (lines_of (self w)))) lh f us)
    as (lay' & El' & B1 & _ & B2 & B3 & B4 & B5); try lia.
  { change (2 ^ 50) with (1024 * 2 ^ 40). nia. }
  rewrite calculate_text_layout_fst, Esel in El. cbn [obind] in El.
  rewrite El in El'. injection El' as <-.
  exists lay, before, after. eexists. split; [exact Ht|].
  split; [reflexivity|]. split.
  - apply text_calls_length.
  - apply text_calls_inside; lia.
Qed.

Lemma text_stays_inside_witness :
  let h := panel (mkdate 2025 11 3) in
  let w := constructed h [] in
  exists lay before after texts,
    trace (snd (display true h w)) = before ++ texts ++ after
    /\ texts = text_calls h (self w) lay (dm_width h / 2)
                 (dm_width h - dm_width h / 2) 0 (lines_of (self w))
    /\ List.length texts = List.length (lines_of (self w))
    /\ forallb (text_inside h lay) texts = true.
Proof.
  apply (text_stays_inside true (panel (mkdate 2025 11 3))
           (constructed (panel (mkdate 2025 11 3)) [])).
  - reflexivity.
  - intros name f us Hin. cbn in Hin.
    repeat (destruct Hin as [[= <- <- <-] | Hin];
            [vm_compute; split; reflexivity|]).
    contradiction.
  - intros line Hin. vm_compute in Hin.
    repeat (destruct Hin as [<- | Hin]; [vm_compute; reflexivity|]).
    contradiction.
  - reflexivity.
  - vm_compute. reflexivity.
Defined.
